(** * canvas-mcp: the surface state synchronisation engine

    A shallow embedding of [canvas_mcp/canvas_manager.py] (class
    [CanvasManager]) together with the parts of [canvas_mcp/models.py] and
    [canvas_mcp/server.py] that it relies on, and the properties of the
    path-addressed data model, of the join replay, of broadcasting and of
    the surface life cycle that hold on it.

    Conventions.
    - A Python [str] is a [string]; [str.strip] and [str.split] are written
      out for a one-character argument, which is all the manager uses.
    - A JSON value is the inductive type [json]; a Python [dict] keeps its
      insertion order, so it is a list of items with [dict_set] replacing
      in place or appending.
    - An operation of the manager is a computation in the monad [M]: it
      threads the manager's state and either returns or raises; a raise
      keeps the mutations made before it, as in Python. *)

From Stdlib Require Import ZArith Ascii String List Bool Lia.
From stdpp Require Import base option list gmap strings.

Local Open Scope Z_scope.
Local Open Scope string_scope.
Local Open Scope list_scope.

(** ** Python strings *)

Module PyStr.

(** [s.lstrip(c)] for a one-character [c]. *)
Fixpoint lstrip (c : ascii) (s : string) : string :=
  match s with
  | String a r => if Ascii.eqb a c then lstrip c r else s
  | EmptyString => EmptyString
  end.

(** [s.rstrip(c)] for a one-character [c]. *)
Fixpoint rstrip (c : ascii) (s : string) : string :=
  match s with
  | EmptyString => EmptyString
  | String a r =>
      match rstrip c r with
      | EmptyString => if Ascii.eqb a c then EmptyString else String a EmptyString
      | r' => String a r'
      end
  end.

(** [s.strip(c)]: every leading and every trailing [c] is removed. *)
Definition strip (c : ascii) (s : string) : string := rstrip c (lstrip c s).

(** [s.split(c)]: the pieces between the occurrences of [c]; empty pieces
    are kept, and the empty string splits into one empty piece. *)
Fixpoint split (c : ascii) (s : string) : list string :=
  match s with
  | EmptyString => [EmptyString]
  | String a r =>
      if Ascii.eqb a c then EmptyString :: split c r
      else match split c r with
           | h :: t => String a h :: t
           | [] => [String a EmptyString]
           end
  end.

(** [c.join(l)]. *)
Fixpoint join (c : ascii) (l : list string) : string :=
  match l with
  | [] => EmptyString
  | [h] => h
  | h :: t => h +:+ String c (join c t)
  end.

(** [c * n]. *)
Fixpoint rep (c : ascii) (n : nat) : string :=
  match n with
  | O => EmptyString
  | S n' => String c (rep c n')
  end.

(** [s.startswith(c)], [s.endswith(c)] and [c + c in s]. *)
Definition starts_with (c : ascii) (s : string) : bool :=
  match s with
  | String a _ => Ascii.eqb a c
  | EmptyString => false
  end.

Fixpoint ends_with (c : ascii) (s : string) : bool :=
  match s with
  | EmptyString => false
  | String a EmptyString => Ascii.eqb a c
  | String _ r => ends_with c r
  end.

Fixpoint has_adjacent (c : ascii) (s : string) : bool :=
  match s with
  | EmptyString => false
  | String a r => (Ascii.eqb a c && starts_with c r) || has_adjacent c r
  end.

(** [c in s]. *)
Fixpoint contains_char (c : ascii) (s : string) : bool :=
  match s with
  | EmptyString => false
  | String a r => Ascii.eqb a c || contains_char c r
  end.

(** [sub in s] for strings: [sub] occurs in [s] as a contiguous run. *)
Fixpoint is_substring (sub s : string) : bool :=
  String.prefix sub s ||
  match s with
  | EmptyString => false
  | String _ r => is_substring sub r
  end.

End PyStr.

(** ** PathCodec: the decoding inside [_set_json_pointer] *)

(** [not path or path == "/"]: the two root paths. *)
Definition is_root_path (path : string) : bool :=
  String.eqb path "" || String.eqb path "/".

(** [parts = path.strip("/").split("/")]. *)
Definition path_parts (path : string) : list string :=
  PyStr.split "/" (PyStr.strip "/" path).

(** The decoding as the specification words it: one leading and one
    trailing slash are removed, then the rest is split on slashes. *)
Definition strip_one_leading (s : string) : string :=
  match s with
  | String "/" r => r
  | _ => s
  end.

Fixpoint strip_one_trailing (s : string) : string :=
  match s with
  | EmptyString => EmptyString
  | String "/" EmptyString => EmptyString
  | String a r => String a (strip_one_trailing r)
  end.

Definition spec_path_parts (path : string) : list string :=
  PyStr.split "/" (strip_one_trailing (strip_one_leading path)).


(** ** JSON values and Python containers *)

#[warnings="-register-all"]
Inductive json : Type :=
| JNull
| JBool (b : bool)
| JInt (n : Z)
| JFloat (bits : Z)   (* an IEEE-754 double, by its 64 bits *)
| JStr (s : string)
| JList (l : list json)
| JDict (items : list (string * json)).

(** A [dict] with string keys, in insertion order. *)
Abbreviation dict := (list (string * json)) (only parsing).

Inductive exn : Type :=
| ValueError (msg : string)
| TypeError
| KeyError (key : string)
| ChannelError.        (* whatever [send_str] or [close] raises on a channel *)

Inductive result (A : Type) : Type :=
| Ok (a : A)
| Raise (e : exn).
Arguments Ok {A} a.
Arguments Raise {A} e.

(** The two errors of the specification's taxonomy, as the code raises them. *)
Definition InvalidPathError : exn := ValueError "Cannot replace root object".
Definition SurfaceNotFoundError (surface_id : string) : exn :=
  ValueError ("Surface not found: " +:+ surface_id).

Fixpoint dict_get (d : dict) (key : string) : option json :=
  match d with
  | [] => None
  | (k, v) :: r => if String.eqb k key then Some v else dict_get r key
  end.

(** [d[key] = value]: an existing key keeps its place, a new one goes last. *)
Fixpoint dict_set (d : dict) (key : string) (value : json) : dict :=
  match d with
  | [] => [(key, value)]
  | (k, v) :: r =>
      if String.eqb k key then (k, value) :: r else (k, v) :: dict_set r key value
  end.

(** [key in container]. Key membership on a dict, substring on a str,
    element equality on a list; the other values are not iterable. *)
Definition py_contains (container : json) (key : string) : result bool :=
  match container with
  | JDict d => Ok (bool_decide (is_Some (dict_get d key)))
  | JStr s => Ok (PyStr.is_substring key s)
  | JList l =>
      Ok (existsb (fun x => match x with JStr s => String.eqb s key | _ => false end) l)
  | _ => Raise TypeError
  end.

(** [container[key] = value] for a string [key]: only a dict accepts it.
    The container after the statement comes with the exception, if any. *)
Definition py_setitem (container : json) (key : string) (value : json)
  : json * option exn :=
  match container with
  | JDict d => (JDict (dict_set d key value), None)
  | _ => (container, Some TypeError)
  end.

(** [container[key]] for a string [key]. *)
Definition py_getitem (container : json) (key : string) : result json :=
  match container with
  | JDict d =>
      match dict_get d key with
      | Some v => Ok v
      | None => Raise (KeyError key)
      end
  | _ => Raise TypeError
  end.

(** [child] was obtained as [container[key]] and then mutated in place into
    [child']: the container shows the mutation, the two being one object. *)
Definition py_alias_back (container : json) (key : string) (child' : json) : json :=
  match container with
  | JDict d => JDict (dict_set d key child')
  | _ => container
  end.

(** ** DataModelPatcher: [_set_json_pointer] *)

(** The loop [for part in parts[:-1]] followed by [current[parts[-1]] = value],
    started at the node [current]. It returns the node as the statements
    leave it, and the exception that stopped them, if one did. *)
Fixpoint set_walk (current : json) (parts : list string) (last : string)
    (value : json) : json * option exn :=
  match parts with
  | [] => py_setitem current last value
  | part :: rest =>
      match py_contains current part with
      | Raise e => (current, Some e)
      | Ok present =>
          match (if present then (current, None)
                 else py_setitem current part (JDict [])) with
          | (current1, Some e) => (current1, Some e)
          | (current1, None) =>
              match py_getitem current1 part with
              | Raise e => (current1, Some e)
              | Ok child =>
                  let (child', e) := set_walk child rest last value in
                  (py_alias_back current1 part child', e)
              end
          end
      end
  end.

Definition _set_json_pointer (obj : dict) (path : string) (value : json)
  : dict * option exn :=
  if is_root_path path then (obj, Some InvalidPathError)
  else
    let parts := path_parts path in
    match set_walk (JDict obj) (removelast parts) (List.last parts "") value with
    | (JDict obj', e) => (obj', e)
    | (_, e) => (obj, e)
    end.

(** ** The read side: [_flatten_data_model] *)

Fixpoint flatten_value (path : string) (value : json) {struct value}
  : list (string * json) :=
  match value with
  | JDict obj =>
      (fix items (l : dict) : list (string * json) :=
         match l with
         | [] => []
         | (key, v) :: r => flatten_value (path +:+ "/" +:+ key) v ++ items r
         end) obj
  | _ => [(path, value)]
  end.

Definition _flatten_data_model (obj : dict) (prefix : string)
  : list (string * json) :=
  flatten_value prefix (JDict obj).

(** Modelled from the spec: the "get-equivalent lookup" of a path, which the
    source does not have (nothing in it reads the data model by path). It
    decodes the path as [_set_json_pointer] does and descends through the
    mappings, one key per segment. *)
Fixpoint get_walk (current : json) (parts : list string) : option json :=
  match parts with
  | [] => Some current
  | part :: rest =>
      match current with
      | JDict d =>
          match dict_get d part with
          | Some child => get_walk child rest
          | None => None
          end
      | _ => None
      end
  end.

Definition get_json_pointer (obj : dict) (path : string) : option json :=
  get_walk (JDict obj) (path_parts path).


(** ** models.py *)

Inductive CanvasSizePreset : Type :=
| TV_1080P | TV_4K | PHONE_PORTRAIT | TABLET | SQUARE | AUTO | CUSTOM.

Record CanvasSize : Type := {
  width : option Z;
  height : option Z;
  preset : CanvasSizePreset;
  scale_mode : string
}.

(** [SurfaceState]; a [datetime] is a number of clock ticks. *)
Record SurfaceState : Type := {
  surface_id : string;
  name : option string;
  device_id : option string;
  size : CanvasSize;
  components : list json;
  data_model : dict;
  created_at : Z;
  updated_at : Z
}.

(** The four A2UI messages, before [json.dumps] turns them into text. *)
Inductive message : Type :=
| createSurface (surfaceId catalogId : string)
| updateComponents (comps : list json)
| updateDataModel (path : string) (value : json)
| deleteSurface (surfaceId : string).

Definition to_create_message (self : SurfaceState) : message :=
  createSurface (surface_id self) "standard".

Definition to_components_message (self : SurfaceState) : message :=
  updateComponents (components self).

Definition set_components (c : list json) (s : SurfaceState) : SurfaceState :=
  {| surface_id := surface_id s; name := name s; device_id := device_id s;
     size := size s; components := c; data_model := data_model s;
     created_at := created_at s; updated_at := updated_at s |}.

Definition set_data_model (d : dict) (s : SurfaceState) : SurfaceState :=
  {| surface_id := surface_id s; name := name s; device_id := device_id s;
     size := size s; components := components s; data_model := d;
     created_at := created_at s; updated_at := updated_at s |}.

Definition set_updated_at (t : Z) (s : SurfaceState) : SurfaceState :=
  {| surface_id := surface_id s; name := name s; device_id := device_id s;
     size := size s; components := components s; data_model := data_model s;
     created_at := created_at s; updated_at := t |}.

(** ** What a file gives back *)

(** A double that is neither an infinity nor a NaN: its eleven exponent
    bits are not all set. *)
Definition is_finite (bits : Z) : bool :=
  negb (Z.land (Z.shiftr bits 52) 2047 =? 2047)%Z.

(** [json.loads] of what [model_dump_json] writes for a value: an infinity
    or a NaN is written as [null]; every other value comes back as it was. *)
Fixpoint json_reload (v : json) : json :=
  match v with
  | JFloat bits => if is_finite bits then v else JNull
  | JList l => JList (map json_reload l)
  | JDict items => JDict (map (fun kv => let '(k, x) := kv in (k, json_reload x)) items)
  | _ => v
  end.

Definition dict_reload (d : dict) : dict :=
  map (fun kv => let '(k, x) := kv in (k, json_reload x)) d.

Definition is_mapping (v : json) : bool :=
  match v with
  | JDict _ => true
  | _ => false
  end.

(** The [SurfaceState] built from [json.loads] of the text that
    [model_dump_json] writes for [state]: the record that
    [_load_persisted_surfaces] gets from the file. The validation of [components: list[dict[str, Any]]] refuses a
    component that is not a mapping, and the file then gives no record. *)
Definition reload_state (state : SurfaceState) : option SurfaceState :=
  if forallb is_mapping (components state)
  then Some (set_data_model (dict_reload (data_model state))
               (set_components (map json_reload (components state)) state))
  else None.

(** ** The manager's state and its surroundings *)

(** A WebSocket connection, by its identity. *)
Abbreviation handle := nat (only parsing).

(** What an operation does, in program order: a send or a close on a
    channel and a write or an unlink of a file (each with whether it went
    through), and the removal of a surface's entry from [_ws_clients] and
    from [_surfaces]. *)
Inductive event : Type :=
| EvSend (ws : handle) (m : message) (ok : bool)
| EvClose (ws : handle) (ok : bool)
| EvWrite (sid : string) (ok : bool)
| EvUnlink (sid : string) (ok : bool)
| EvDropClients (sid : string)
| EvDropSurface (sid : string).

(** The surroundings decide which channel and file operations fail; the
    number is the count of events before the attempt, so that the same
    channel may accept one send and refuse the next. A write that fails
    does so either at [open], the file being left as it was, or later, the
    file having been truncated by [open(file_path, "w")]: [truncates]
    tells which. *)
Record World : Type := {
  send_ok : handle -> nat -> bool;
  close_ok : handle -> nat -> bool;
  disk_ok : nat -> bool;
  truncates : nat -> bool
}.

(** [CanvasManager]: the configuration flag, the two dictionaries, the files
    of the persistence directory (by surface id), the clock behind
    [datetime.now()] and the events so far. Of the files, [files] gives the
    record that each one loads as, and [unreadable] the ids of those that
    are there but load as no record (an empty or truncated file, or one
    that [SurfaceState] refuses). *)
Record CanvasManager : Type := {
  persistence_enabled : bool;
  _surfaces : gmap string SurfaceState;
  _ws_clients : gmap string (gset handle);
  files : gmap string SurfaceState;
  unreadable : gset string;
  clock : Z;
  log : list event
}.

Definition set_surfaces (m : gmap string SurfaceState) (st : CanvasManager) :=
  {| persistence_enabled := persistence_enabled st; _surfaces := m;
     _ws_clients := _ws_clients st; files := files st;
     unreadable := unreadable st; clock := clock st; log := log st |}.

Definition set_ws_clients (m : gmap string (gset handle)) (st : CanvasManager) :=
  {| persistence_enabled := persistence_enabled st; _surfaces := _surfaces st;
     _ws_clients := m; files := files st; unreadable := unreadable st;
     clock := clock st; log := log st |}.

Definition set_files (m : gmap string SurfaceState) (st : CanvasManager) :=
  {| persistence_enabled := persistence_enabled st; _surfaces := _surfaces st;
     _ws_clients := _ws_clients st; files := m; unreadable := unreadable st;
     clock := clock st; log := log st |}.

Definition set_unreadable (u : gset string) (st : CanvasManager) :=
  {| persistence_enabled := persistence_enabled st; _surfaces := _surfaces st;
     _ws_clients := _ws_clients st; files := files st; unreadable := u;
     clock := clock st; log := log st |}.

Definition set_clock (t : Z) (st : CanvasManager) :=
  {| persistence_enabled := persistence_enabled st; _surfaces := _surfaces st;
     _ws_clients := _ws_clients st; files := files st;
     unreadable := unreadable st; clock := t; log := log st |}.

Definition set_log (l : list event) (st : CanvasManager) :=
  {| persistence_enabled := persistence_enabled st; _surfaces := _surfaces st;
     _ws_clients := _ws_clients st; files := files st;
     unreadable := unreadable st; clock := clock st; log := l |}.

(** The three things that can happen to the file of a surface: it holds a
    record, it is there but loads as none, it is gone. *)
Definition file_holds (sid : string) (record : SurfaceState) (st : CanvasManager) :=
  set_unreadable (unreadable st ∖ {[sid]}) (set_files (<[sid := record]> (files st)) st).

Definition file_spoilt (sid : string) (st : CanvasManager) :=
  set_unreadable ({[sid]} ∪ unreadable st) (set_files (delete sid (files st)) st).

Definition file_gone (sid : string) (st : CanvasManager) :=
  set_unreadable (unreadable st ∖ {[sid]}) (set_files (delete sid (files st)) st).

(** [file_path.exists()]. *)
Definition file_exists (sid : string) (st : CanvasManager) : bool :=
  bool_decide (is_Some (files st !! sid)) || bool_decide (sid ∈ unreadable st).

(** ** The monad of the manager's methods *)

Definition M (A : Type) : Type := CanvasManager -> result A * CanvasManager.

Definition ret {A} (a : A) : M A := fun st => (Ok a, st).
Definition raise {A} (e : exn) : M A := fun st => (Raise e, st).
Definition bind {A B} (m : M A) (k : A -> M B) : M B :=
  fun st =>
    match m st with
    | (Ok a, st') => k a st'
    | (Raise e, st') => (Raise e, st')
    end.
Definition get_self : M CanvasManager := fun st => (Ok st, st).
Definition modify (f : CanvasManager -> CanvasManager) : M unit :=
  fun st => (Ok tt, f st).

Declare Scope manager_scope.
Delimit Scope manager_scope with M.
Notation "x <~ m ;; k" := (bind m (fun x => k))
  (at level 63, m at next level, right associativity) : manager_scope.
Notation "m ;;; k" := (bind m (fun _ => k))
  (at level 63, right associativity) : manager_scope.
Local Open Scope manager_scope.

(** [datetime.now()]: the clock is read, and time passes. *)
Definition datetime_now : M Z :=
  fun st => (Ok (clock st), set_clock (clock st + 1) st).

Definition emit (e : event) : M unit :=
  modify (fun st => set_log (log st ++ [e]) st).

Section Manager.

Variable w : World.

(** [await client.send_str(json.dumps(message))], with its exception. *)
Definition send_str (ws : handle) (m : message) : M unit :=
  st <~ get_self ;;
  let ok := send_ok w ws (length (log st)) in
  emit (EvSend ws m ok) ;;;
  if ok then ret tt else raise ChannelError.

(** [await client.close()], with its exception. *)
Definition ws_close (ws : handle) : M unit :=
  st <~ get_self ;;
  let ok := close_ok w ws (length (log st)) in
  emit (EvClose ws ok) ;;;
  if ok then ret tt else raise ChannelError.

(** [try: body except Exception: handler]. *)
Definition try_except {A} (body : M A) (handler : exn -> M A) : M A :=
  fun st =>
    match body st with
    | (Ok a, st') => (Ok a, st')
    | (Raise e, st') => handler e st'
    end.

(** [_persist_surface]: an exception of the write is caught and logged.
    After a write that went through, the file loads as [reload_state] says;
    after one that failed, the file is as it was if [open] failed, and is
    truncated, so loads as no record, if the failure came later. *)
Definition _persist_surface (surface_id : string) : M unit :=
  st <~ get_self ;;
  if negb (persistence_enabled st) then ret tt
  else
    match _surfaces st !! surface_id with
    | None => ret tt
    | Some state =>
        let ok := disk_ok w (length (log st)) in
        let cut := truncates w (length (log st)) in
        emit (EvWrite surface_id ok) ;;;
        if ok then
          match reload_state state with
          | Some record => modify (file_holds surface_id record)
          | None => modify (file_spoilt surface_id)
          end
        else if cut then modify (file_spoilt surface_id)
        else ret tt
    end.

(** [_delete_persisted_surface]: the unlink is tried when the file exists,
    and its exception is caught and logged. *)
Definition _delete_persisted_surface (surface_id : string) : M unit :=
  st <~ get_self ;;
  if negb (persistence_enabled st) then ret tt
  else
    if negb (file_exists surface_id st) then ret tt
    else
      let ok := disk_ok w (length (log st)) in
      emit (EvUnlink surface_id ok) ;;;
      if ok then modify (file_gone surface_id)
      else ret tt.

(** The records of the files after a write of [state], tried when [t]
    events had gone by. *)
Definition files_after_write (t : nat) (surface_id : string) (state : SurfaceState)
    (fs : gmap string SurfaceState) : gmap string SurfaceState :=
  if disk_ok w t then
    match reload_state state with
    | Some record => <[surface_id := record]> fs
    | None => delete surface_id fs
    end
  else if truncates w t then delete surface_id fs
  else fs.

(** The manager after the write of [state] by [_persist_surface], and after
    the unlink by [_delete_persisted_surface]. *)
Definition after_write (surface_id : string) (state : SurfaceState)
    (st : CanvasManager) : CanvasManager :=
  let ok := disk_ok w (length (log st)) in
  let st1 := set_log (log st ++ [EvWrite surface_id ok]) st in
  if ok then
    match reload_state state with
    | Some record => file_holds surface_id record st1
    | None => file_spoilt surface_id st1
    end
  else if truncates w (length (log st)) then file_spoilt surface_id st1
  else st1.

Definition after_unlink (surface_id : string) (st : CanvasManager) : CanvasManager :=
  let ok := disk_ok w (length (log st)) in
  let st1 := set_log (log st ++ [EvUnlink surface_id ok]) st in
  if ok then file_gone surface_id st1 else st1.

(** The first loop of [_broadcast_to_surface]; it returns [disconnected]. *)
Fixpoint broadcast_sends (clients : list handle) (m : message)
  : M (list handle) :=
  match clients with
  | [] => ret []
  | client :: rest =>
      ok <~ try_except (send_str client m ;;; ret true) (fun _ => ret false) ;;
      disconnected <~ broadcast_sends rest m ;;
      ret (if ok : bool then disconnected else client :: disconnected)
  end.

(** [self._ws_clients[surface_id].discard(client)]. *)
Definition discard_client (surface_id : string) (client : handle) : M unit :=
  st <~ get_self ;;
  match _ws_clients st !! surface_id with
  | None => raise (KeyError surface_id)
  | Some s =>
      modify (set_ws_clients (<[surface_id := s ∖ {[client]}]> (_ws_clients st)))
  end.

Fixpoint discard_all (surface_id : string) (disconnected : list handle) : M unit :=
  match disconnected with
  | [] => ret tt
  | client :: rest =>
      discard_client surface_id client ;;; discard_all surface_id rest
  end.

(** [_broadcast_to_surface]; the order in which Python iterates over the
    set of clients is the one of [elements]. *)
Definition _broadcast_to_surface (surface_id : string) (m : message) : M unit :=
  st <~ get_self ;;
  let clients := default ∅ (_ws_clients st !! surface_id) in
  if bool_decide (clients = ∅) then ret tt
  else
    disconnected <~ broadcast_sends (elements clients) m ;;
    discard_all surface_id disconnected.

Definition update_components (surface_id : string) (comps : list json) : M bool :=
  st <~ get_self ;;
  match _surfaces st !! surface_id with
  | None => raise (SurfaceNotFoundError surface_id)
  | Some state =>
      now <~ datetime_now ;;
      modify (fun st =>
        set_surfaces (<[surface_id := set_updated_at now (set_components comps state)]>
                        (_surfaces st)) st) ;;;
      _persist_surface surface_id ;;;
      _broadcast_to_surface surface_id (updateComponents comps) ;;;
      ret true
  end.

(** [update_data_model]: the data model is mutated in place, so what
    [_set_json_pointer] did before raising stays in the surface. *)
Definition update_data_model (surface_id : string) (path : string) (value : json)
  : M bool :=
  st <~ get_self ;;
  match _surfaces st !! surface_id with
  | None => raise (SurfaceNotFoundError surface_id)
  | Some state =>
      let (dm, e) := _set_json_pointer (data_model state) path value in
      modify (fun st =>
        set_surfaces (<[surface_id := set_data_model dm state]> (_surfaces st)) st) ;;;
      match e with
      | Some e => raise e
      | None =>
          now <~ datetime_now ;;
          modify (fun st =>
            set_surfaces (<[surface_id := set_updated_at now (set_data_model dm state)]>
                            (_surfaces st)) st) ;;;
          _persist_surface surface_id ;;;
          _broadcast_to_surface surface_id (updateDataModel path value) ;;;
          ret true
      end
  end.

(** The loop of [close_surface] over the popped set. *)
Fixpoint close_all (clients : list handle) : M unit :=
  match clients with
  | [] => ret tt
  | client :: rest =>
      try_except (ws_close client) (fun _ => ret tt) ;;; close_all rest
  end.

Definition close_surface (surface_id : string) : M bool :=
  st <~ get_self ;;
  match _surfaces st !! surface_id with
  | None => raise (SurfaceNotFoundError surface_id)
  | Some _ =>
      _broadcast_to_surface surface_id (deleteSurface surface_id) ;;;
      st <~ get_self ;;
      let clients := default ∅ (_ws_clients st !! surface_id) in
      modify (set_ws_clients (delete surface_id (_ws_clients st))) ;;;
      emit (EvDropClients surface_id) ;;;
      close_all (elements clients) ;;;
      modify (fun st => set_surfaces (delete surface_id (_surfaces st)) st) ;;;
      emit (EvDropSurface surface_id) ;;;
      _delete_persisted_surface surface_id ;;;
      ret true
  end.

Definition get_surface (surface_id : string) (st : CanvasManager)
  : option SurfaceState :=
  _surfaces st !! surface_id.

(** The [canvas_get] branch of [_handle_tool_call] in server.py, up to
    the rendering of the state. *)
Definition canvas_get (surface_id : string) : M SurfaceState :=
  st <~ get_self ;;
  match get_surface surface_id st with
  | None => raise (SurfaceNotFoundError surface_id)
  | Some state => ret state
  end.

Definition register_ws_client (surface_id : string) (ws : handle) : M bool :=
  st <~ get_self ;;
  match _surfaces st !! surface_id with
  | None => ret false
  | Some _ =>
      let s := default ∅ (_ws_clients st !! surface_id) in
      modify (set_ws_clients (<[surface_id := s ∪ {[ws]}]> (_ws_clients st))) ;;;
      ret true
  end.

Definition unregister_ws_client (surface_id : string) (ws : handle) : M unit :=
  st <~ get_self ;;
  match _ws_clients st !! surface_id with
  | None => ret tt
  | Some s =>
      modify (set_ws_clients (<[surface_id := s ∖ {[ws]}]> (_ws_clients st)))
  end.

(** The last loop of [send_initial_state]. *)
Fixpoint send_leaves (ws : handle) (leaves : list (string * json)) : M unit :=
  match leaves with
  | [] => ret tt
  | (path, value) :: rest =>
      send_str ws (updateDataModel path value) ;;; send_leaves ws rest
  end.

Definition send_initial_state (surface_id : string) (ws : handle) : M unit :=
  st <~ get_self ;;
  match _surfaces st !! surface_id with
  | None => ret tt
  | Some state =>
      send_str ws (to_create_message state) ;;;
      match components state with
      | [] => ret tt
      | _ :: _ => send_str ws (to_components_message state)
      end ;;;
      match data_model state with
      | [] => ret tt
      | _ :: _ => send_leaves ws (_flatten_data_model (data_model state) "")
      end
  end.

End Manager.

(** ** Auxiliary notions of the statements *)

(** Whether the walk over [parts] from [current] meets a value that is not
    a mapping, at [current] itself or under the keys that exist. *)
Fixpoint walk_blocked (current : json) (parts : list string) : bool :=
  match current with
  | JDict d =>
      match parts with
      | [] => false
      | part :: rest =>
          match dict_get d part with
          | Some child => walk_blocked child rest
          | None => false
          end
      end
  | _ => true
  end.

(** The same for a tree and a path: the segments before the last are
    walked, and the node that receives the last one counts too. *)
Definition hits_non_mapping (obj : dict) (path : string) : bool :=
  walk_blocked (JDict obj) (removelast (path_parts path)).

(** The join replay as the specification words it. *)
Definition join_replay (state : SurfaceState) : list message :=
  [createSurface (surface_id state) "standard"] ++
  match components state with
  | [] => []
  | _ :: _ => [updateComponents (components state)]
  end ++
  map (fun leaf => updateDataModel (fst leaf) (snd leaf))
      (_flatten_data_model (data_model state) "").

(** A manager with one surface, three subscribers and a persisted record,
    in surroundings where the channel 2 is stale and the disk works. *)
Module Example.

Definition size0 : CanvasSize :=
  {| width := None; height := None; preset := AUTO; scale_mode := "fit" |}.

Definition s0 : SurfaceState :=
  {| surface_id := "s1"; name := None; device_id := None; size := size0;
     components := [JDict [("id", JStr "root"); ("component", JStr "Text")]];
     data_model := [("msg", JStr "hi"); ("user", JDict [("age", JInt 30)])];
     created_at := 0; updated_at := 0 |}.

Definition w0 : World :=
  {| send_ok := fun ws _ => negb (Nat.eqb ws 2);
     close_ok := fun _ _ => true;
     disk_ok := fun _ => true;
     truncates := fun _ => true |}.

(** Surroundings where nothing fails. *)
Definition w1 : World :=
  {| send_ok := fun _ _ => true;
     close_ok := fun _ _ => true;
     disk_ok := fun _ => true;
     truncates := fun _ => true |}.

Definition st0 : CanvasManager :=
  {| persistence_enabled := true;
     _surfaces := {["s1" := s0]};
     _ws_clients := {["s1" := {[1%nat; 2%nat; 3%nat]}]};
     files := {["s1" := s0]};
     unreadable := ∅;
     clock := 5;
     log := [] |}.

End Example.

(** ** Auxiliary notions of the further statements *)

(** Two lists of segments part ways: after a common beginning, each has a
    segment and the two segments differ. *)
Inductive diverge : list string -> list string -> Prop :=
| diverge_here (k1 k2 : string) (r1 r2 : list string) :
    k1 <> k2 -> diverge (k1 :: r1) (k2 :: r2)
| diverge_later (k : string) (r1 r2 : list string) :
    diverge r1 r2 -> diverge (k :: r1) (k :: r2).

(** ** The rest of models.py *)

From Stdlib Require DecimalString.

(** [str(n)] for an [int]. *)
Definition py_str_int (n : Z) : string :=
  DecimalString.NilZero.string_of_int (Z.to_int n).

(** The value of each member of [CanvasSizePreset]. *)
Definition preset_value (p : CanvasSizePreset) : string :=
  match p with
  | TV_1080P => "tv_1080p"
  | TV_4K => "tv_4k"
  | PHONE_PORTRAIT => "phone"
  | TABLET => "tablet"
  | SQUARE => "square"
  | AUTO => "auto"
  | CUSTOM => "custom"
  end.

(** [repr(s)] for a [str] of ASCII characters: between single quotes, or
    between double quotes when [s] holds a single quote and no double one;
    the quote in use and the backslash are escaped, the tabulation, the
    line feed and the carriage return are written by their letter, the
    other control characters in hexadecimal. (A character beyond ASCII is
    kept as it is, which [repr] does for the printable ones.) *)
Definition double_quote : ascii := Ascii.ascii_of_nat 34.

Definition hex_digit (n : nat) : ascii :=
  nth n (list_ascii_of_string "0123456789abcdef") "0"%char.

Definition py_repr_char (quote c : ascii) : string :=
  let n := Ascii.nat_of_ascii c in
  if Ascii.eqb c quote || Ascii.eqb c "\"%char then String "\" (String c "")
  else if Nat.eqb n 9 then "\t"
  else if Nat.eqb n 10 then "\n"
  else if Nat.eqb n 13 then "\r"
  else if Nat.ltb n 32 || Nat.eqb n 127
       then "\x" +:+ String (hex_digit (n / 16)) (String (hex_digit (n mod 16)) "")
  else String c "".

Fixpoint py_repr_body (quote : ascii) (s : string) : string :=
  match s with
  | EmptyString => EmptyString
  | String c r => py_repr_char quote c +:+ py_repr_body quote r
  end.

Definition py_repr (s : string) : string :=
  let quote :=
    if PyStr.contains_char "'" s && negb (PyStr.contains_char double_quote s)
    then double_quote else "'"%char in
  String quote (py_repr_body quote s +:+ String quote "").

(** [CanvasSizePreset(s)]: the member whose value is [s]; a string that is
    no member's value makes the enumeration raise [ValueError], with
    [repr(s)] in its message. *)
Definition preset_of_value (s : string) : result CanvasSizePreset :=
  if String.eqb s "tv_1080p" then Ok TV_1080P
  else if String.eqb s "tv_4k" then Ok TV_4K
  else if String.eqb s "phone" then Ok PHONE_PORTRAIT
  else if String.eqb s "tablet" then Ok TABLET
  else if String.eqb s "square" then Ok SQUARE
  else if String.eqb s "auto" then Ok AUTO
  else if String.eqb s "custom" then Ok CUSTOM
  else Raise (ValueError (py_repr s +:+ " is not a valid CanvasSizePreset")).

(** The table [presets] of [CanvasSize.from_preset]. *)
Definition preset_dimensions (p : CanvasSizePreset) : option Z * option Z :=
  match p with
  | TV_1080P => (Some 1920, Some 1080)
  | TV_4K => (Some 3840, Some 2160)
  | PHONE_PORTRAIT => (Some 390, Some 844)
  | TABLET => (Some 1024, Some 768)
  | SQUARE => (Some 1080, Some 1080)
  | AUTO => (None, None)
  | CUSTOM => (None, None)
  end.

(** [CanvasSize.from_preset] on a member of the enumeration. *)
Definition from_preset (p : CanvasSizePreset) : CanvasSize :=
  let (w, h) := preset_dimensions p in
  {| width := w; height := h; preset := p; scale_mode := "fit" |}.

(** [CanvasSize.from_preset] on a string. *)
Definition from_preset_name (s : string) : result CanvasSize :=
  match preset_of_value s with
  | Ok p => Ok (from_preset p)
  | Raise e => Raise e
  end.

(** [Surface], the connection info of a surface. *)
Module Surface.
Record t : Type := {
  surface_id : string;
  name : option string;
  device_id : option string;
  size : CanvasSize;
  local_url : string;
  ws_url : string;
  created_at : Z;
  connected_clients : nat
}.
End Surface.

(** The fields of [CanvasConfig] that the manager reads, besides the
    persistence flag, which the manager's state holds. *)
Record CanvasConfig : Type := {
  host : string;
  port : Z;
  default_size : CanvasSize
}.

(** What [create_surface] may receive as [size]. *)
Inductive size_arg : Type :=
| SizeNone
| SizeObject (s : CanvasSize)
| SizePreset (p : CanvasSizePreset)
| SizeName (s : string)
| SizeOther.

(** ** The rest of canvas_manager.py *)

Section ManagerMore.

Variable w : World.
Variable config : CanvasConfig.

Definition _get_surface_urls (surface_id : string) : string * string :=
  let display_host :=
    if String.eqb (host config) "0.0.0.0" then "localhost" else host config in
  let display_base := display_host +:+ ":" +:+ py_str_int (port config) in
  let local_url := "http://" +:+ display_base +:+ "/canvas/" +:+ surface_id in
  let ws_url := "ws://" +:+ display_base +:+ "/ws/" +:+ surface_id in
  (local_url, ws_url).

(** The [if]/[elif] chain of [create_surface] that resolves the size. *)
Definition resolve_size (size : size_arg) : result CanvasSize :=
  match size with
  | SizeNone => Ok (default_size config)
  | SizeObject s => Ok s
  | SizePreset p => Ok (from_preset p)
  | SizeName s => from_preset_name s
  | SizeOther => Ok (default_size config)
  end.

(** [create_surface]; [new_id] is what [_generate_surface_id()] returned, and
    the three readings of the clock are those of [created_at], [updated_at]
    and the [created_at] that [Surface] gets by default. *)
Definition create_surface (new_id : string) (name : option string)
    (size : size_arg) : M Surface.t :=
  let surface_id := new_id in
  let (local_url, ws_url) := _get_surface_urls surface_id in
  canvas_size <~ match resolve_size size with
                 | Ok cs => ret cs
                 | Raise e => raise e
                 end ;;
  t_created <~ datetime_now ;;
  t_updated <~ datetime_now ;;
  let state :=
    {| surface_id := surface_id; name := name; device_id := None;
       size := canvas_size; components := []; data_model := [];
       created_at := t_created; updated_at := t_updated |} in
  modify (fun st => set_surfaces (<[surface_id := state]> (_surfaces st)) st) ;;;
  modify (fun st => set_ws_clients (<[surface_id := ∅]> (_ws_clients st)) st) ;;;
  _persist_surface w surface_id ;;;
  t_surface <~ datetime_now ;;
  ret {| Surface.surface_id := surface_id; Surface.name := name;
         Surface.device_id := None; Surface.size := canvas_size;
         Surface.local_url := local_url; Surface.ws_url := ws_url;
         Surface.created_at := t_surface; Surface.connected_clients := 0 |}.

Definition get_surface_info (surface_id : string) (st : CanvasManager)
  : option Surface.t :=
  match _surfaces st !! surface_id with
  | None => None
  | Some {| surface_id := state_surface_id; name := state_name;
            size := state_size; created_at := state_created_at |} =>
      let (local_url, ws_url) := _get_surface_urls surface_id in
      Some {| Surface.surface_id := state_surface_id;
              Surface.name := state_name;
              Surface.device_id := None;
              Surface.size := state_size;
              Surface.local_url := local_url;
              Surface.ws_url := ws_url;
              Surface.created_at := state_created_at;
              Surface.connected_clients :=
                base.size (default ∅ (_ws_clients st !! surface_id)) |}
  end.

End ManagerMore.

(** An event that concerns the surface [sid] and its subscribers [subs]
    only: a send or a close on one of the subscribers, a write or an unlink
    of the surface's file, a removal of the surface's entries. *)
Definition event_on (sid : string) (subs : gset handle) (e : event) : Prop :=
  match e with
  | EvSend c _ _ | EvClose c _ => c ∈ subs
  | EvWrite s _ | EvUnlink s _ | EvDropClients s | EvDropSurface s => s = sid
  end.

(** The messages of a list sent one after the other to one handle, the
    first failure ending the sequence: the shape of [send_initial_state]. *)
Section SendSeq.
Variable w : World.
Fixpoint send_seq (ws : handle) (msgs : list message) : M unit :=
  match msgs with
  | [] => ret tt
  | m :: rest => send_str w ws m ;;; send_seq ws rest
  end.
End SendSeq.

(** ** Start-up: [__init__], [initialize], [_load_persisted_surfaces] *)

(** [CanvasManager(config)]: no surface and no subscriber; the files are
    those of the persistence directory. *)
Definition new_manager (enabled : bool) (fs : gmap string SurfaceState)
    (junk : gset string) (now : Z) : CanvasManager :=
  {| persistence_enabled := enabled; _surfaces := ∅; _ws_clients := ∅;
     files := fs; unreadable := junk; clock := now; log := [] |}.

(** One turn of the loop of [_load_persisted_surfaces]: the state read from a
    file is stored under the id that the state carries. *)
Definition load_record (state : SurfaceState) : M unit :=
  modify (fun st => set_surfaces (<[surface_id state := state]> (_surfaces st)) st).

Fixpoint load_records (records : list (string * SurfaceState)) : M unit :=
  match records with
  | [] => ret tt
  | (_, state) :: rest => load_record state ;;; load_records rest
  end.

(** [_load_persisted_surfaces]. The files are taken in the order of
    [map_to_list], the order of [glob] being unspecified; [files] holds the
    records that parse, a file that does not being skipped by the loop as if
    it were not there. *)
Definition _load_persisted_surfaces : M unit :=
  st <~ get_self ;;
  load_records (map_to_list (files st)).

Definition initialize : M unit :=
  st <~ get_self ;;
  if persistence_enabled st then _load_persisted_surfaces else ret tt.

(** Every surface is stored, and every record filed, under the id that it
    carries. *)
Definition keyed (st : CanvasManager) : Prop :=
  (forall sid state, _surfaces st !! sid = Some state -> surface_id state = sid) /\
  (forall sid state, files st !! sid = Some state -> surface_id state = sid).

(** Persistence is on and the files are the store. *)
Definition synced (st : CanvasManager) : Prop :=
  persistence_enabled st = true /\ files st = _surfaces st.

(** Persistence is on and the files load as the surfaces of the store do
    after a dump and a load: a surface that would not load has no record. *)
Definition mirrored (st : CanvasManager) : Prop :=
  persistence_enabled st = true /\ files st = omap reload_state (_surfaces st).

(** ** server.py: [read_resource] *)

(** [s[n:]]. *)
Fixpoint py_slice_from (n : nat) (s : string) : string :=
  match n, s with
  | O, _ => s
  | S n', String _ r => py_slice_from n' r
  | S _, EmptyString => EmptyString
  end.

(** What [read_resource] hands to [json.dumps]. *)
Inductive resource_doc : Type :=
| StateDoc (doc_surface_id : string) (doc_name : option string)
           (doc_components : list json) (doc_data_model : dict)
           (doc_created_at doc_updated_at : Z)
| UrlDoc (doc_surface_id doc_local_url doc_ws_url : string).

(** [state.surface_id], for where [surface_id] names a variable. *)
Definition state_surface_id (state : SurfaceState) : string := surface_id state.

Section Resources.

Variable config : CanvasConfig.

Definition read_resource (uri : string) : M resource_doc :=
  if negb (String.prefix "canvas://" uri)
  then raise (ValueError ("Invalid resource URI: " +:+ uri))
  else
    let path := py_slice_from (String.length "canvas://") uri in
    let parts := PyStr.split "/" path in
    match parts with
    | [surface_id; resource_type] =>
        if String.eqb resource_type "state" then
          st <~ get_self ;;
          match get_surface surface_id st with
          | None => raise (SurfaceNotFoundError surface_id)
          | Some state =>
              ret (StateDoc (state_surface_id state) (name state) (components state)
                            (data_model state) (created_at state) (updated_at state))
          end
        else if String.eqb resource_type "url" then
          st <~ get_self ;;
          match get_surface_info config surface_id st with
          | None => raise (SurfaceNotFoundError surface_id)
          | Some info =>
              ret (UrlDoc (Surface.surface_id info) (Surface.local_url info)
                          (Surface.ws_url info))
          end
        else raise (ValueError ("Unknown resource type: " +:+ resource_type))
    | _ => raise (ValueError ("Invalid resource path: " +:+ path))
    end.

End Resources.

(** ** The replay of a data model *)

(** A value as Python has it: no mapping in it, under mappings, has a key
    twice. *)
Fixpoint unique_keys (v : json) : Prop :=
  match v with
  | JDict d =>
      NoDup (map fst d) /\
      (fix each (l : dict) : Prop :=
         match l with
         | [] => True
         | (_, x) :: r => unique_keys x /\ each r
         end) d
  | _ => True
  end.

(** A key that a path can name: not empty, and without a slash. *)
Definition key_ok (k : string) : Prop :=
  k <> "" /\ PyStr.contains_char "/" k = false.

(** A value that a replay rebuilds as it is: under it every mapping has an
    item, no key twice, and keys that a path can name. *)
Fixpoint replayable (v : json) : Prop :=
  match v with
  | JDict d =>
      d <> [] /\ NoDup (map fst d) /\
      (fix each (l : dict) : Prop :=
         match l with
         | [] => True
         | (k, x) :: r => (key_ok k /\ replayable x) /\ each r
         end) d
  | _ => True
  end.

(** The same for a data model, which may be empty. *)
Definition replayable_model (obj : dict) : Prop :=
  NoDup (map fst obj) /\
  Forall (fun kv => key_ok (fst kv) /\ replayable (snd kv)) obj.

(** [_set_json_pointer] called, in order, on each of the leaves (a path and
    a value): the data model that the calls build from [obj], or the
    exception of the first call that raises. *)
Fixpoint replay_leaves (leaves : list (string * json)) (obj : dict) : result dict :=
  match leaves with
  | [] => Ok obj
  | leaf :: rest =>
      match _set_json_pointer obj (fst leaf) (snd leaf) with
      | (obj', None) => replay_leaves rest obj'
      | (_, Some e) => Raise e
      end
  end.

(** The tree that the walk of [_set_json_pointer] leaves. *)
Definition walked (current : json) (parts : list string) (last : string)
    (value : json) : json :=
  fst (set_walk current parts last value).

(** [_set_json_pointer] on a tree given as a value, when it returns. *)
Definition put_path (current : json) (path : string) (value : json) : option json :=
  if is_root_path path then None
  else
    let parts := path_parts path in
    match set_walk current (removelast parts) (List.last parts "") value with
    | (current', None) => Some current'
    | (_, Some _) => None
    end.

(** The replay on a tree given as a value. *)
Fixpoint replay_tree (leaves : list (string * json)) (current : json) : option json :=
  match leaves with
  | [] => Some current
  | leaf :: rest =>
      match put_path current (fst leaf) (snd leaf) with
      | Some current' => replay_tree rest current'
      | None => None
      end
  end.

(** The path that [_flatten_data_model] builds for a list of keys. *)
Definition path_of_keys (keys : list string) : string :=
  match keys with
  | [] => ""
  | _ :: _ => "/" +:+ PyStr.join "/" keys
  end.

(** The keys lead, through mappings, to a key that is not there. *)
Fixpoint fresh (current : json) (keys : list string) : bool :=
  match current, keys with
  | JDict d, k :: r =>
      match dict_get d k with
      | None => true
      | Some child => fresh child r
      end
  | _, _ => false
  end.

(** * Properties *)

(** ** Python strings *)

Section PyStrFacts.

Variable c : ascii.

Lemma split_not_nil (s : string) : PyStr.split c s <> [].
Proof.
  destruct s as [|a r]; simpl; [discriminate|].
  destruct (Ascii.eqb a c); [discriminate|].
  destruct (PyStr.split c r); discriminate.
Qed.

Lemma join_cons_char (a : ascii) (h : string) (t : list string) :
  PyStr.join c (String a h :: t) = String a (PyStr.join c (h :: t)).
Proof. destruct t; reflexivity. Qed.

Lemma join_cons_empty (l : list string) :
  l <> [] -> PyStr.join c ("" :: l) = String c (PyStr.join c l).
Proof. destruct l; [contradiction | reflexivity]. Qed.

Lemma join_split (s : string) : PyStr.join c (PyStr.split c s) = s.
Proof.
  induction s as [|a r IH]; [reflexivity|].
  cbn [PyStr.split].
  destruct (Ascii.eqb_spec a c) as [->|Hne].
  - rewrite join_cons_empty by apply split_not_nil. by rewrite IH.
  - pose proof (split_not_nil r) as Hnil.
    destruct (PyStr.split c r) as [|h t] eqn:E; [contradiction|].
    rewrite join_cons_char. by rewrite IH.
Qed.

Lemma split_no_separator (s : string) :
  Forall (fun p => PyStr.contains_char c p = false) (PyStr.split c s).
Proof.
  induction s as [|a r IH]; simpl.
  - repeat constructor.
  - destruct (Ascii.eqb a c) eqn:Ea.
    + constructor; [reflexivity | exact IH].
    + destruct (PyStr.split c r) as [|h t]; [repeat constructor; simpl; by rewrite Ea|].
      inversion IH; subst. constructor; [simpl; rewrite Ea; assumption | assumption].
Qed.

Lemma split_head_empty (s : string) :
  hd "" (PyStr.split c s) = "" <-> s = "" \/ PyStr.starts_with c s = true.
Proof.
  destruct s as [|a r]; simpl.
  - split; auto.
  - destruct (Ascii.eqb a c); simpl.
    + split; auto.
    + destruct (PyStr.split c r); simpl; split; intros H; try discriminate;
        destruct H; discriminate.
Qed.

Lemma split_tail_nonempty (s : string) :
  Forall (fun p => p <> "") (tl (PyStr.split c s)) <->
  PyStr.ends_with c s = false /\ PyStr.has_adjacent c s = false.
Proof.
  induction s as [|a r IH].
  - simpl. split; [auto | constructor].
  - assert (Hends : PyStr.ends_with c (String a r) =
                    match r with "" => Ascii.eqb a c | _ => PyStr.ends_with c r end)
      by (destruct r; reflexivity).
    rewrite Hends. cbn [PyStr.split PyStr.has_adjacent].
    destruct (Ascii.eqb a c) eqn:Ea; cbn [tl andb orb].
    + pose proof (split_head_empty r) as Hh.
      pose proof (split_not_nil r) as Hnil.
      destruct (PyStr.split c r) as [|h t] eqn:E; [contradiction|].
      cbn [hd tl] in *. rewrite Forall_cons, IH.
      destruct r as [|b r']; [cbn; intuition congruence|].
      cbn [PyStr.starts_with] in *.
      destruct (Ascii.eqb b c) eqn:Eb; cbn [orb].
      * split; [intros [Hne _]; exfalso; apply Hne, Hh; auto | intros [_ ?]; discriminate].
      * split; [tauto|]. intros HH; split; [|exact HH].
        intros Hh'. apply Hh in Hh' as [?|?]; discriminate.
    + pose proof (split_not_nil r) as Hnil.
      destruct (PyStr.split c r) as [|h t] eqn:E; [contradiction|].
      cbn [tl] in *. rewrite IH.
      destruct r; [cbn; tauto | tauto].
Qed.

Lemma split_all_nonempty (s : string) :
  Forall (fun p => p <> "") (PyStr.split c s) <->
  s <> "" /\ PyStr.starts_with c s = false /\
  PyStr.ends_with c s = false /\ PyStr.has_adjacent c s = false.
Proof.
  pose proof (split_head_empty s) as Hh.
  pose proof (split_tail_nonempty s) as Ht.
  pose proof (split_not_nil s) as Hnil.
  destruct (PyStr.split c s) as [|h t]; [contradiction|].
  cbn [hd tl] in *. rewrite Forall_cons, Ht.
  destruct (PyStr.starts_with c s) eqn:Es.
  - split; [intros [Hne _]; exfalso; apply Hne, Hh; auto | intros (_ & ? & _); discriminate].
  - split.
    + intros [Hne HH]. split; [|tauto]. intros ->. apply Hne, Hh. auto.
    + intros (Hne & _ & HH). split; [|exact HH].
      intros Hh'. apply Hh in Hh' as [?|?]; [contradiction|discriminate].
Qed.

Lemma append_cons (a : ascii) (s t : string) :
  String a s +:+ t = String a (s +:+ t).
Proof. reflexivity. Qed.

Lemma lstrip_decompose (s : string) :
  exists n, s = PyStr.rep c n +:+ PyStr.lstrip c s.
Proof.
  induction s as [|a r [n IH]]; [by exists O|].
  cbn [PyStr.lstrip]. destruct (Ascii.eqb_spec a c) as [->|Hne].
  - exists (S n). cbn [PyStr.rep]. rewrite append_cons. f_equal. exact IH.
  - by exists O.
Qed.

Lemma lstrip_no_lead (s : string) :
  PyStr.starts_with c (PyStr.lstrip c s) = false.
Proof.
  induction s as [|a r IH]; [reflexivity|].
  cbn [PyStr.lstrip]. destruct (Ascii.eqb a c) eqn:Ea; [exact IH | cbn; exact Ea].
Qed.

Lemma rstrip_decompose (s : string) :
  exists n, s = PyStr.rstrip c s +:+ PyStr.rep c n.
Proof.
  induction s as [|a r [n IH]]; [by exists O|].
  cbn [PyStr.rstrip]. destruct (PyStr.rstrip c r) as [|b r'] eqn:E.
  - destruct (Ascii.eqb_spec a c) as [->|Hne].
    + exists (S n). change ("" +:+ PyStr.rep c n) with (PyStr.rep c n) in IH.
      change ("" +:+ PyStr.rep c (S n)) with (String c (PyStr.rep c n)).
      f_equal. exact IH.
    + exists n. rewrite append_cons. f_equal. exact IH.
  - exists n. rewrite append_cons. f_equal. exact IH.
Qed.

Lemma rstrip_no_trail (s : string) :
  PyStr.ends_with c (PyStr.rstrip c s) = false.
Proof.
  induction s as [|a r IH]; [reflexivity|].
  cbn [PyStr.rstrip]. destruct (PyStr.rstrip c r) as [|b r'] eqn:E.
  - destruct (Ascii.eqb a c) eqn:Ea; [reflexivity | cbn; exact Ea].
  - exact IH.
Qed.

Lemma rstrip_keeps_lead (s : string) :
  PyStr.starts_with c s = false ->
  PyStr.starts_with c (PyStr.rstrip c s) = false.
Proof.
  destruct s as [|a r]; [reflexivity|].
  cbn [PyStr.rstrip PyStr.starts_with]. intros Ea.
  destruct (PyStr.rstrip c r); rewrite ?Ea; cbn; exact Ea.
Qed.

Lemma strip_decompose (s : string) :
  exists i j, s = PyStr.rep c i +:+ PyStr.strip c s +:+ PyStr.rep c j.
Proof.
  destruct (lstrip_decompose s) as [i Hi].
  destruct (rstrip_decompose (PyStr.lstrip c s)) as [j Hj].
  exists i, j. unfold PyStr.strip. by rewrite <- Hj.
Qed.

Lemma strip_no_lead (s : string) :
  PyStr.starts_with c (PyStr.strip c s) = false.
Proof. apply rstrip_keeps_lead, lstrip_no_lead. Qed.

Lemma strip_no_trail (s : string) :
  PyStr.ends_with c (PyStr.strip c s) = false.
Proof. apply rstrip_no_trail. Qed.

End PyStrFacts.

(** ** PathCodec *)

(** C7, as the code has it. Decoding removes every leading and every
    trailing slash of the path (not one of each) and splits what is left on
    the slashes: the segments are at least one, none holds a slash, and
    joined by slashes they give the stripped path back. They are all
    non-empty exactly when the stripped path is non-empty and has no two
    slashes in a row. *)
Theorem path_parts_decoding (path : string) :
  let stripped := PyStr.strip "/" path in
  (exists i j, path = PyStr.rep "/" i +:+ stripped +:+ PyStr.rep "/" j) /\
  PyStr.starts_with "/" stripped = false /\
  PyStr.ends_with "/" stripped = false /\
  path_parts path = PyStr.split "/" stripped /\
  path_parts path <> [] /\
  PyStr.join "/" (path_parts path) = stripped /\
  Forall (fun p => PyStr.contains_char "/" p = false) (path_parts path) /\
  (Forall (fun p => p <> "") (path_parts path) <->
   stripped <> "" /\ PyStr.has_adjacent "/" stripped = false).
Proof.
  intros stripped. unfold path_parts. fold stripped.
  pose proof (strip_no_lead "/" path) as Hl.
  pose proof (strip_no_trail "/" path) as Ht.
  fold stripped in Hl, Ht.
  split; [apply strip_decompose|].
  do 3 (split; [done|]).
  split; [apply split_not_nil|].
  split; [apply join_split|].
  split; [apply split_no_separator|].
  rewrite split_all_nonempty. tauto.
Qed.

(** C7, the claim as worded, fails: on ["//a//b"] the code does not decode
    as "strip one slash at each end, then split" would, and one of its
    segments is empty. *)
Lemma path_parts_not_single_strip_nor_nonempty :
  path_parts "//a//b" <> spec_path_parts "//a//b" /\
  ~ Forall (fun p => p <> "") (path_parts "//a//b").
Proof.
  split; [vm_compute; discriminate|].
  intros H. vm_compute in H.
  apply Forall_cons in H as [_ H]. apply Forall_cons in H as [H _]. by apply H.
Qed.


(** ** Dictionaries *)

Lemma dict_get_set_eq (d : list (string * json)) (key : string) (value : json) :
  dict_get (dict_set d key value) key = Some value.
Proof.
  induction d as [|[k v] r IH]; simpl.
  - by rewrite String.eqb_refl.
  - destruct (String.eqb k key) eqn:E; simpl; by rewrite E.
Qed.

Lemma dict_get_In (d : list (string * json)) (key : string) (value : json) :
  dict_get d key = Some value -> In (key, value) d.
Proof.
  induction d as [|[k v] r IH]; simpl; [discriminate|].
  destruct (String.eqb_spec k key) as [->|Hk].
  - intros [= ->]. by left.
  - intros H. right. by apply IH.
Qed.

Lemma dict_set_same (d : list (string * json)) (key : string) (value : json) :
  dict_get d key = Some value -> dict_set d key value = d.
Proof.
  induction d as [|[k v] r IH]; simpl; [discriminate|].
  destruct (String.eqb_spec k key) as [->|Hk].
  - by intros [= ->].
  - intros H. by rewrite IH.
Qed.

(** ** DataModelPatcher *)

(** The loop of [_flatten_data_model], read off its definition. *)
Lemma _flatten_data_model_cons (key : string) (value : json)
    (rest : list (string * json)) (prefix : string) :
  _flatten_data_model ((key, value) :: rest) prefix =
  match value with
  | JDict sub => _flatten_data_model sub (prefix +:+ "/" +:+ key)
  | _ => [(prefix +:+ "/" +:+ key, value)]
  end ++ _flatten_data_model rest prefix.
Proof. destruct value; reflexivity. Qed.

Lemma flatten_value_item (prefix key : string) (child : json)
    (d : list (string * json)) (leaf : string * json) :
  In (key, child) d ->
  In leaf (flatten_value (prefix +:+ "/" +:+ key) child) ->
  In leaf (flatten_value prefix (JDict d)).
Proof.
  intros Hin Hleaf. induction d as [|[k v] r IH]; [contradiction|].
  change (flatten_value prefix (JDict ((k, v) :: r)))
    with (flatten_value (prefix +:+ "/" +:+ k) v ++ flatten_value prefix (JDict r)).
  apply in_or_app. destruct Hin as [[= -> ->]|Hin]; [by left | right; by apply IH].
Qed.

Lemma string_app_assoc (s t u : string) : (s +:+ t) +:+ u = s +:+ t +:+ u.
Proof. induction s as [|a s IH]; [reflexivity|]. rewrite !append_cons. by rewrite IH. Qed.

Lemma set_walk_dict (d : list (string * json)) (parts : list string)
    (last : string) (value : json) :
  exists d', fst (set_walk (JDict d) parts last value) = JDict d'.
Proof.
  destruct parts as [|part rest]; cbn [set_walk py_setitem py_contains fst]; [eauto|].
  destruct (bool_decide _); cbn [py_setitem py_getitem].
  - destruct (dict_get d part); [|eauto].
    destruct (set_walk _ rest last value). cbn. eauto.
  - destruct (dict_get _ part); [|eauto].
    destruct (set_walk _ rest last value). cbn. eauto.
Qed.

Lemma set_walk_blocked (current : json) (parts : list string)
    (last : string) (value : json) :
  walk_blocked current parts = true ->
  set_walk current parts last value = (current, Some TypeError).
Proof.
  revert current. induction parts as [|part rest IH]; intros current Hb.
  - destruct current; try reflexivity. discriminate.
  - destruct current as [| | | |s|l|d]; try reflexivity.
    + cbn [set_walk py_contains]. by destruct (PyStr.is_substring part s).
    + cbn [set_walk py_contains]. by destruct (existsb _ l).
    + cbn [walk_blocked] in Hb. cbn [set_walk py_contains].
      destruct (dict_get d part) as [child|] eqn:E; [|discriminate].
      rewrite bool_decide_eq_true_2 by eauto.
      cbn [py_getitem]. rewrite E, (IH _ Hb). cbn [py_alias_back].
      by rewrite (dict_set_same _ _ _ E).
Qed.

Lemma set_walk_clear (current : json) (parts : list string)
    (last : string) (value : json) :
  walk_blocked current parts = false ->
  exists current', set_walk current parts last value = (current', None).
Proof.
  revert current. induction parts as [|part rest IH]; intros current Hb.
  - destruct current; try discriminate. cbn. eauto.
  - destruct current as [| | | | | |d]; try discriminate.
    cbn [walk_blocked] in Hb. cbn [set_walk py_contains].
    destruct (dict_get d part) as [child|] eqn:E.
    + rewrite bool_decide_eq_true_2 by eauto.
      cbn [py_getitem]. rewrite E.
      destruct (IH _ Hb) as [child' ->]. cbn. eauto.
    + rewrite bool_decide_eq_false_2 by (intros [? ?]; congruence).
      cbn [py_setitem py_getitem]. rewrite dict_get_set_eq.
      destruct (IH (JDict []) ltac:(by destruct rest)) as [child' ->]. cbn. eauto.
Qed.

(** [set] then [get]: whenever the walk returns, the value is found where it
    was put. *)
Lemma set_walk_get_walk (current current' : json) (parts : list string)
    (last : string) (value : json) :
  set_walk current parts last value = (current', None) ->
  get_walk current' (parts ++ [last]) = Some value.
Proof.
  revert current current'. induction parts as [|part rest IH]; intros current current' Hset.
  - destruct current; try discriminate. injection Hset as <-.
    cbn. by rewrite dict_get_set_eq.
  - cbn [set_walk] in Hset.
    destruct current as [| | | |s|l|d]; try discriminate.
    + cbn [py_contains] in Hset. destruct (PyStr.is_substring part s); discriminate.
    + cbn [py_contains] in Hset. destruct (existsb _ l); discriminate.
    + cbn [py_contains] in Hset.
      destruct (bool_decide _); cbn [py_setitem py_getitem] in Hset.
      * destruct (dict_get d part) as [child|]; [|discriminate].
        destruct (set_walk child rest last value) as [child' e] eqn:E.
        injection Hset as <- ->. cbn. rewrite dict_get_set_eq. eauto.
      * rewrite dict_get_set_eq in Hset.
        destruct (set_walk (JDict []) rest last value) as [child' e] eqn:E.
        injection Hset as <- ->. cbn. rewrite dict_get_set_eq. eauto.
Qed.

(** [set] then [flatten]: a value that is not a mapping is a leaf, under the
    path made of the segments. *)
Lemma set_walk_flatten (current current' : json) (parts : list string)
    (last : string) (value : json) (prefix : string) :
  (forall items, value <> JDict items) ->
  set_walk current parts last value = (current', None) ->
  In (prefix +:+ "/" +:+ PyStr.join "/" (parts ++ [last]), value)
     (flatten_value prefix current').
Proof.
  intros Hleaf. revert current current' prefix.
  induction parts as [|part rest IH]; intros current current' prefix Hset.
  - destruct current as [| | | | | |d]; try discriminate. injection Hset as <-.
    eapply flatten_value_item; [apply dict_get_In, dict_get_set_eq|].
    cbn. destruct value; try (by left). by destruct (Hleaf items).
  - assert (Hjoin : prefix +:+ "/" +:+ PyStr.join "/" ((part :: rest) ++ [last]) =
                    (prefix +:+ "/" +:+ part) +:+ "/" +:+ PyStr.join "/" (rest ++ [last])).
    { rewrite !string_app_assoc. do 2 f_equal.
      destruct rest; reflexivity. }
    rewrite Hjoin. clear Hjoin.
    cbn [set_walk] in Hset.
    destruct current as [| | | |s|l|d]; try discriminate.
    + cbn [py_contains] in Hset. destruct (PyStr.is_substring part s); discriminate.
    + cbn [py_contains] in Hset. destruct (existsb _ l); discriminate.
    + cbn [py_contains] in Hset.
      destruct (bool_decide _); cbn [py_setitem py_getitem] in Hset.
      * destruct (dict_get d part) as [child|]; [|discriminate].
        destruct (set_walk child rest last value) as [child' e] eqn:E.
        injection Hset as <- ->. cbn [py_alias_back].
        eapply flatten_value_item; [apply dict_get_In, dict_get_set_eq|]. eauto.
      * rewrite dict_get_set_eq in Hset.
        destruct (set_walk (JDict []) rest last value) as [child' e] eqn:E.
        injection Hset as <- ->. cbn [py_alias_back].
        eapply flatten_value_item; [apply dict_get_In, dict_get_set_eq|]. eauto.
Qed.

Lemma path_parts_snoc (path : string) :
  path_parts path =
  removelast (path_parts path) ++ [List.last (path_parts path) ""].
Proof. apply app_removelast_last, split_not_nil. Qed.

Lemma _set_json_pointer_returns (obj obj' : list (string * json))
    (path : string) (value : json) :
  _set_json_pointer obj path value = (obj', None) ->
  set_walk (JDict obj) (removelast (path_parts path))
           (List.last (path_parts path) "") value = (JDict obj', None).
Proof.
  unfold _set_json_pointer. destruct (is_root_path path); [discriminate|].
  cbv zeta.
  destruct (set_walk_dict obj (removelast (path_parts path))
              (List.last (path_parts path) "") value) as [d' Hd].
  destruct (set_walk _ _ _ value) as [t e]. cbn [fst] in Hd. subst t.
  by intros [= -> ->].
Qed.

(** Any existing value on the way that is not a mapping makes the walk
    raise [TypeError], with the tree as it was. *)
Lemma _set_json_pointer_blocked (obj : list (string * json))
    (path : string) (value : json) :
  is_root_path path = false ->
  hits_non_mapping obj path = true ->
  _set_json_pointer obj path value = (obj, Some TypeError).
Proof.
  intros Hroot Hb. unfold _set_json_pointer. rewrite Hroot. cbv zeta.
  by rewrite (set_walk_blocked _ _ _ _ Hb).
Qed.

(** Otherwise it returns. *)
Lemma _set_json_pointer_clear (obj : list (string * json))
    (path : string) (value : json) :
  is_root_path path = false ->
  hits_non_mapping obj path = false ->
  exists obj', _set_json_pointer obj path value = (obj', None).
Proof.
  intros Hroot Hb. unfold _set_json_pointer. rewrite Hroot. cbv zeta.
  destruct (set_walk_clear _ _ (List.last (path_parts path) "") value Hb) as [t Ht].
  destruct (set_walk_dict obj (removelast (path_parts path))
              (List.last (path_parts path) "") value) as [d' Hd].
  rewrite Ht in Hd |- *. cbn [fst] in Hd. subst t. eauto.
Qed.

(** The round trip of the specification, on the paths that [set] accepts:
    the value is read back where it was written. *)
Lemma set_then_get (obj : list (string * json)) (path : string) (value : json) :
  is_root_path path = false ->
  hits_non_mapping obj path = false ->
  exists obj',
    _set_json_pointer obj path value = (obj', None) /\
    get_json_pointer obj' path = Some value.
Proof.
  intros Hroot Hb.
  destruct (_set_json_pointer_clear obj path value Hroot Hb) as [obj' Hset].
  exists obj'. split; [exact Hset|].
  unfold get_json_pointer. rewrite path_parts_snoc.
  eapply set_walk_get_walk, _set_json_pointer_returns, Hset.
Qed.

(** C4. The code meets a string where it walks: ["/a/b"] on [{"a": "x"}].
    The walk stops with a [TypeError], which is neither of the errors the
    operation declares; the same happens under a number, two levels up,
    and the error leaves [update_data_model] as it is. *)
Lemma set_under_scalar_raises_TypeError :
  _set_json_pointer [("a", JStr "x")] "/a/b" (JInt 1)
    = ([("a", JStr "x")], Some TypeError) /\
  _set_json_pointer [("n", JInt 5)] "/n/k/j" JNull
    = ([("n", JInt 5)], Some TypeError) /\
  fst (update_data_model Example.w0 "s1" "/msg/x" (JInt 1) Example.st0)
    = Raise TypeError.
Proof. repeat split; vm_compute; reflexivity. Qed.

(** C5. With [{"user": "bob"}], the path ["/user/name"] and the value
    ["alice"], [set] raises and the tree keeps its contents, so the lookup
    of the path does not give the value back. *)
Lemma round_trip_fails_under_scalar :
  _set_json_pointer [("user", JStr "bob")] "/user/name" (JStr "alice")
    = ([("user", JStr "bob")], Some TypeError) /\
  get_json_pointer [("user", JStr "bob")] "/user/name" = None.
Proof. split; reflexivity. Qed.

(** C6, as the code has it. When the path is not a root path, no existing
    value on the way is a non-mapping and the value is not itself a mapping,
    [set] returns a tree whose flattening holds the value under the path
    in canonical form, a slash followed by the path without its leading and
    trailing slashes; this is the path itself when it is written that way. *)
Theorem flatten_after_set (obj : list (string * json)) (path : string) (value : json) :
  is_root_path path = false ->
  hits_non_mapping obj path = false ->
  (forall items, value <> JDict items) ->
  exists obj',
    _set_json_pointer obj path value = (obj', None) /\
    In ("/" +:+ PyStr.strip "/" path, value) (_flatten_data_model obj' "") /\
    (path = "/" +:+ PyStr.strip "/" path ->
     In (path, value) (_flatten_data_model obj' "")).
Proof.
  intros Hroot Hb Hleaf.
  destruct (_set_json_pointer_clear obj path value Hroot Hb) as [obj' Hset].
  exists obj'. split; [exact Hset|].
  assert (Hin : In ("/" +:+ PyStr.strip "/" path, value) (_flatten_data_model obj' "")).
  { pose proof (set_walk_flatten _ _ _ _ _ "" Hleaf
                  (_set_json_pointer_returns _ _ _ _ Hset)) as H.
    rewrite <- path_parts_snoc in H. unfold path_parts in H.
    rewrite join_split in H. exact H. }
  split; [exact Hin|]. intros Hcanon. by rewrite Hcanon.
Qed.

(** [flatten_after_set] at ["/a/c"], under a mapping that exists. *)
Lemma flatten_after_set_witness :
  exists obj',
    _set_json_pointer [("a", JDict [("k", JInt 0)])] "/a/c" (JStr "v") = (obj', None) /\
    In ("/" +:+ PyStr.strip "/" "/a/c", JStr "v") (_flatten_data_model obj' "") /\
    ("/a/c" = "/" +:+ PyStr.strip "/" "/a/c" ->
     In ("/a/c", JStr "v") (_flatten_data_model obj' "")).
Proof.
  apply (flatten_after_set [("a", JDict [("k", JInt 0)])] "/a/c" (JStr "v"));
    [reflexivity | reflexivity | intros items; discriminate].
Defined.

(** C6, the claim as worded, fails: a mapping set at ["/a"] is flattened
    into its own leaves, and the pair of the path and the mapping is not
    among them. *)
Lemma flatten_after_set_of_mapping :
  exists obj',
    _set_json_pointer [] "/a" (JDict [("b", JInt 1)]) = (obj', None) /\
    ~ In ("/a", JDict [("b", JInt 1)]) (_flatten_data_model obj' "").
Proof.
  eexists. split; [reflexivity|].
  vm_compute. intros [H|[]]. discriminate.
Qed.

(** ** The manager's monad *)

Lemma set_log_set_log (l l' : list event) (st : CanvasManager) :
  set_log l (set_log l' st) = set_log l st.
Proof. reflexivity. Qed.

Lemma set_log_id (st : CanvasManager) : set_log (log st) st = st.
Proof. by destruct st. Qed.

Lemma set_surfaces_id (st : CanvasManager) : set_surfaces (_surfaces st) st = st.
Proof. by destruct st. Qed.

Lemma set_data_model_id (s : SurfaceState) : set_data_model (data_model s) s = s.
Proof. by destruct s. Qed.

Lemma set_ws_clients_id (st : CanvasManager) : set_ws_clients (_ws_clients st) st = st.
Proof. by destruct st. Qed.

Lemma bind_get_self {B} (k : CanvasManager -> M B) (st : CanvasManager) :
  bind get_self k st = k st st.
Proof. reflexivity. Qed.

Lemma bind_ok {A B} (m : M A) (k : A -> M B) (st st' : CanvasManager) (a : A) :
  m st = (Ok a, st') -> bind m k st = k a st'.
Proof. unfold bind. by intros ->. Qed.

Section ManagerFacts.

Variable w : World.

Lemma send_str_run (ws : nat) (m : message) (st : CanvasManager) :
  send_str w ws m st =
  (if send_ok w ws (length (log st)) then Ok tt else Raise ChannelError,
   set_log (log st ++ [EvSend ws m (send_ok w ws (length (log st)))]) st).
Proof.
  unfold send_str, bind, get_self, emit, modify, ret, raise.
  by destruct (send_ok w ws (length (log st))).
Qed.

Lemma ws_close_run (ws : nat) (st : CanvasManager) :
  ws_close w ws st =
  (if close_ok w ws (length (log st)) then Ok tt else Raise ChannelError,
   set_log (log st ++ [EvClose ws (close_ok w ws (length (log st)))]) st).
Proof.
  unfold ws_close, bind, get_self, emit, modify, ret, raise.
  by destruct (close_ok w ws (length (log st))).
Qed.

(** The first loop of a broadcast tries every client, whatever happens to
    the others, and returns those whose send failed. *)
Lemma broadcast_sends_run (m : message) (clients : list nat) (st : CanvasManager) :
  exists disconnected,
    broadcast_sends w clients m st =
    (Ok disconnected,
     set_log (log st ++
              imap (fun i c => EvSend c m (send_ok w c (length (log st) + i))) clients) st) /\
    forall c, In c disconnected <->
              In (EvSend c m false)
                 (imap (fun i c => EvSend c m (send_ok w c (length (log st) + i))) clients).
Proof.
  revert st. induction clients as [|client rest IH]; intros st.
  - exists []. cbn. rewrite app_nil_r, set_log_id. split; [done|]. tauto.
  - cbn [broadcast_sends]. unfold bind at 1. unfold try_except.
    unfold bind at 1. rewrite send_str_run.
    set (ok := send_ok w client (length (log st))).
    set (st1 := set_log (log st ++ [EvSend client m ok]) st).
    destruct (IH st1) as (d & Hrun & Hd).
    assert (Hlen : length (log st1) = S (length (log st))).
    { subst st1. cbn. rewrite length_app. cbn. lia. }
    assert (Himap : imap (fun i c => EvSend c m (send_ok w c (length (log st1) + i))) rest =
                    imap ((fun i c => EvSend c m (send_ok w c (length (log st) + i))) ∘ S) rest).
    { apply imap_ext. intros i c _. rewrite Hlen. unfold compose. do 2 f_equal. lia. }
    rewrite Himap in Hrun, Hd.
    exists (if ok then d else client :: d).
    rewrite imap_cons. replace (length (log st) + 0)%nat with (length (log st)) by lia.
    fold ok. split.
    + destruct ok; cbn; unfold bind; rewrite Hrun; cbn; unfold ret;
        subst st1; cbn; by rewrite <- app_assoc.
    + intros c. cbn [In]. rewrite <- Hd. destruct ok; cbn [In].
      * split; [tauto|]. intros [[=]|?]; done.
      * split; [intros [->|?]; auto | intros [[= ->]|?]; auto].
Qed.

Lemma discard_all_run (surface_id : string) (disconnected : list nat)
    (s : gset nat) (st : CanvasManager) :
  _ws_clients st !! surface_id = Some s ->
  discard_all surface_id disconnected st =
  (Ok tt,
   set_ws_clients (<[surface_id := s ∖ list_to_set disconnected]> (_ws_clients st)) st).
Proof.
  revert s st. induction disconnected as [|client rest IH]; intros s st Hs.
  - cbn. rewrite difference_empty_L, insert_id by done.
    by rewrite set_ws_clients_id.
  - cbn [discard_all]. unfold bind at 1. unfold discard_client, bind, get_self.
    rewrite Hs. unfold modify.
    erewrite IH by (cbn; apply lookup_insert_eq).
    cbn. rewrite insert_insert_eq.
    by rewrite difference_difference_l_L.
Qed.

(** What a broadcast does: no error, one attempt per client in the order
    of iteration, the clients whose send failed gone from the registry. *)
Lemma _broadcast_to_surface_run (surface_id : string) (m : message)
    (st : CanvasManager) :
  let clients := default ∅ (_ws_clients st !! surface_id) in
  let sends := imap (fun i c => EvSend c m (send_ok w c (length (log st) + i)))
                    (elements clients) in
  exists remaining : gset nat,
    _broadcast_to_surface w surface_id m st =
    (Ok tt,
     set_ws_clients (if bool_decide (clients = ∅) then _ws_clients st
                     else <[surface_id := remaining]> (_ws_clients st))
       (set_log (log st ++ sends) st)) /\
    (forall c, c ∈ remaining <-> c ∈ clients /\ ~ In (EvSend c m false) sends) /\
    (if bool_decide (clients = ∅) then remaining = ∅
     else _ws_clients st !! surface_id = Some clients).
Proof.
  intros clients sends. unfold _broadcast_to_surface, bind at 1, get_self.
  fold clients. destruct (bool_decide_reflect (clients = ∅)) as [Hempty|Hne].
  - exists ∅. subst sends. rewrite Hempty, elements_empty. cbn.
    rewrite app_nil_r, set_log_id, set_ws_clients_id. split; [done|].
    split; [|done].
    intros c. split; [intros H | intros [H _]]; by apply not_elem_of_empty in H.
  - destruct (broadcast_sends_run m (elements clients) st) as (d & Hrun & Hd).
    fold sends in Hrun, Hd.
    assert (Hs : _ws_clients st !! surface_id = Some clients).
    { subst clients. destruct (_ws_clients st !! surface_id); [done|].
      by destruct Hne. }
    exists (clients ∖ list_to_set d). split; [|split; [|exact Hs]].
    + unfold bind. rewrite Hrun. by erewrite discard_all_run by exact Hs.
    + intros c. rewrite elem_of_difference, elem_of_list_to_set, list_elem_of_In.
      by rewrite Hd.
Qed.

Lemma _persist_surface_run (surface_id : string) (st : CanvasManager) :
  exists (fs : gmap string SurfaceState) (u : gset string) (writes : list event),
    _persist_surface w surface_id st =
    (Ok tt, set_unreadable u (set_files fs (set_log (log st ++ writes) st))) /\
    (writes = [] \/ exists ok, writes = [EvWrite surface_id ok]).
Proof.
  unfold _persist_surface, bind, get_self, emit, modify, ret.
  destruct (persistence_enabled st); cbn [negb].
  - destruct (_surfaces st !! surface_id) as [state|].
    + destruct (disk_ok w (length (log st))) eqn:E.
      * destruct (reload_state state) as [record|];
          eexists _, _, [EvWrite surface_id true];
          (split; [reflexivity | eauto]).
      * destruct (truncates w (length (log st))).
        -- eexists _, _, [EvWrite surface_id false]. split; [reflexivity | eauto].
        -- exists (files st), (unreadable st), [EvWrite surface_id false].
           split; [by destruct st | eauto].
    + exists (files st), (unreadable st), []. rewrite app_nil_r.
      split; [by destruct st | auto].
  - exists (files st), (unreadable st), []. rewrite app_nil_r.
    split; [by destruct st | auto].
Qed.

Lemma _delete_persisted_surface_run (surface_id : string) (st : CanvasManager) :
  exists (fs : gmap string SurfaceState) (u : gset string) (unlinks : list event),
    _delete_persisted_surface w surface_id st =
    (Ok tt, set_unreadable u (set_files fs (set_log (log st ++ unlinks) st))) /\
    (unlinks = [] \/ exists ok, unlinks = [EvUnlink surface_id ok]) /\
    (persistence_enabled st = true -> is_Some (files st !! surface_id) ->
     exists ok, unlinks = [EvUnlink surface_id ok] /\
                (ok = true -> fs !! surface_id = None)).
Proof.
  unfold _delete_persisted_surface, bind, get_self, emit, modify, ret.
  destruct (persistence_enabled st); cbn [negb].
  - destruct (file_exists surface_id st) eqn:Ef; cbn [negb].
    + destruct (disk_ok w (length (log st))) eqn:E.
      * eexists _, _, [EvUnlink surface_id true].
        split; [reflexivity|]. split; [eauto|]. intros _ _.
        exists true. split; [done|]. intros _. apply lookup_delete_eq.
      * exists (files st), (unreadable st), [EvUnlink surface_id false].
        split; [by destruct st|]. split; [eauto|]. intros _ _.
        exists false. split; [done|]. discriminate.
    + exists (files st), (unreadable st), []. rewrite app_nil_r.
      split; [by destruct st|].
      split; [auto|]. intros _ Hsome. unfold file_exists in Ef.
      by rewrite (bool_decide_eq_true_2 _ Hsome) in Ef.
  - exists (files st), (unreadable st), []. rewrite app_nil_r.
    split; [by destruct st|].
    split; [auto|]. discriminate.
Qed.

Lemma close_all_run (clients : list nat) (st : CanvasManager) :
  close_all w clients st =
  (Ok tt,
   set_log (log st ++
            imap (fun i c => EvClose c (close_ok w c (length (log st) + i))) clients) st).
Proof.
  revert st. induction clients as [|client rest IH]; intros st.
  - cbn. by rewrite app_nil_r, set_log_id.
  - cbn [close_all]. unfold bind at 1, try_except. rewrite ws_close_run.
    set (ok := close_ok w client (length (log st))).
    set (st1 := set_log (log st ++ [EvClose client ok]) st).
    rewrite imap_cons.
    replace (length (log st) + 0)%nat with (length (log st)) by lia. fold ok.
    assert (Hlen : length (log st1) = S (length (log st))).
    { subst st1. cbn. rewrite length_app. cbn. lia. }
    assert (Himap : imap (fun i c => EvClose c (close_ok w c (length (log st1) + i))) rest =
                    imap ((fun i c => EvClose c (close_ok w c (length (log st) + i))) ∘ S) rest).
    { apply imap_ext. intros i c _. rewrite Hlen. unfold compose. do 2 f_equal. lia. }
    rewrite <- Himap.
    transitivity (close_all w rest st1);
      [destruct ok; reflexivity|].
    rewrite IH. subst st1. cbn [log set_log]. by rewrite set_log_set_log, <- app_assoc.
Qed.

End ManagerFacts.

Section ManagerTheorems.

Variable w : World.

Lemma update_data_model_root_run (surface_id path : string) (value : json)
    (st : CanvasManager) (state : SurfaceState) :
  _surfaces st !! surface_id = Some state ->
  is_root_path path = true ->
  update_data_model w surface_id path value st = (Raise InvalidPathError, st).
Proof.
  intros Hs Hroot. unfold update_data_model, bind at 1, get_self.
  rewrite Hs. unfold _set_json_pointer. rewrite Hroot.
  unfold bind, modify, raise. rewrite set_data_model_id, insert_id by done.
  by rewrite set_surfaces_id.
Qed.

Lemma is_root_path_spec (path : string) :
  is_root_path path = true <-> path = "" \/ path = "/".
Proof.
  unfold is_root_path. rewrite orb_true_iff, !String.eqb_eq. tauto.
Qed.

(** C1. A path-scoped mutation at a root path fails with
    [InvalidPathError] on every tree and for every value, and so does the
    patch of the data model of any surface that exists. *)
Theorem root_path_rejected (obj : list (string * json)) (path : string)
    (value : json) :
  path = "" \/ path = "/" ->
  _set_json_pointer obj path value = (obj, Some InvalidPathError) /\
  forall (surface_id : string) (st : CanvasManager),
    is_Some (_surfaces st !! surface_id) ->
    fst (update_data_model w surface_id path value st) = Raise InvalidPathError.
Proof.
  intros Hroot. apply is_root_path_spec in Hroot. split.
  - unfold _set_json_pointer. by rewrite Hroot.
  - intros surface_id st [state Hs].
    by rewrite (update_data_model_root_run _ _ _ _ _ Hs Hroot).
Qed.

(** C10. On a surface that exists, the patch at a root path raises before
    any effect: the manager is left as it was, and so are the surface's
    data model and [updated_at], the files and the log of events. *)
Theorem update_data_model_root_no_effect (surface_id path : string)
    (value : json) (st : CanvasManager) (state : SurfaceState) :
  _surfaces st !! surface_id = Some state ->
  path = "" \/ path = "/" ->
  exists st',
    update_data_model w surface_id path value st = (Raise InvalidPathError, st') /\
    st' = st /\
    (exists state', _surfaces st' !! surface_id = Some state' /\
                    data_model state' = data_model state /\
                    updated_at state' = updated_at state) /\
    files st' = files st /\
    log st' = log st /\
    _ws_clients st' = _ws_clients st /\
    clock st' = clock st.
Proof.
  intros Hs Hroot. apply is_root_path_spec in Hroot. exists st.
  split; [by eapply update_data_model_root_run|].
  split; [done|]. split; [by exists state|]. done.
Qed.

(** C8. [update_components] fails with [SurfaceNotFoundError], touching
    nothing, when the id is not in the store; otherwise it returns, and
    the surface holds the new list in place of the old one, with
    [updated_at] set to the time of the call and its other fields kept. *)
Theorem update_components_spec (sid : string) (comps : list json)
    (st : CanvasManager) :
  match _surfaces st !! sid with
  | None =>
      update_components w sid comps st = (Raise (SurfaceNotFoundError sid), st)
  | Some state =>
      exists st' state',
        update_components w sid comps st = (Ok true, st') /\
        _surfaces st' = <[sid := state']> (_surfaces st) /\
        components state' = comps /\
        updated_at state' = clock st /\
        data_model state' = data_model state /\
        surface_id state' = surface_id state /\
        name state' = name state /\
        created_at state' = created_at state
  end.
Proof.
  unfold update_components. rewrite bind_get_self.
  destruct (_surfaces st !! sid) as [state|]; [|reflexivity].
  set (state' := set_updated_at (clock st) (set_components comps state)).
  set (st1 := set_surfaces (<[sid := state']> (_surfaces st))
                (set_clock (clock st + 1) st)).
  destruct (_persist_surface_run w sid st1) as (fs & u & writes & Hp & _).
  destruct (_broadcast_to_surface_run w sid (updateComponents comps)
              (set_unreadable u (set_files fs (set_log (log st1 ++ writes) st1))))
    as (remaining & Hb & _).
  exists (snd (_broadcast_to_surface w sid (updateComponents comps)
                 (set_unreadable u
                    (set_files fs (set_log (log st1 ++ writes) st1))))), state'.
  split; [|by rewrite Hb].
  erewrite bind_ok by reflexivity.
  erewrite bind_ok by reflexivity.
  erewrite bind_ok by exact Hp.
  erewrite bind_ok by exact Hb.
  by rewrite Hb.
Qed.

(** C9. A broadcast never reports an error, whatever the channels do.
    Every subscriber of the surface gets one send, in the order of
    iteration and whether or not an earlier send failed; the subscribers
    whose send failed are gone from the registry, the others stay, and
    nothing else in the manager changes. *)
Theorem broadcast_isolates_failures (sid : string) (m : message)
    (st : CanvasManager) :
  let clients := default ∅ (_ws_clients st !! sid) in
  let sends := imap (fun i c => EvSend c m (send_ok w c (length (log st) + i)))
                    (elements clients) in
  exists st',
    _broadcast_to_surface w sid m st = (Ok tt, st') /\
    log st' = log st ++ sends /\
    (forall c, c ∈ clients -> exists ok, In (EvSend c m ok) sends) /\
    (forall c, c ∈ default ∅ (_ws_clients st' !! sid) <->
               c ∈ clients /\ ~ In (EvSend c m false) sends) /\
    (forall sid', sid' <> sid -> _ws_clients st' !! sid' = _ws_clients st !! sid') /\
    _surfaces st' = _surfaces st /\
    files st' = files st /\
    clock st' = clock st.
Proof.
  intros clients sends.
  destruct (_broadcast_to_surface_run w sid m st) as (remaining & Hb & Hrem & Hcase).
  fold clients in Hb, Hrem, Hcase. fold sends in Hb, Hrem.
  eexists. split; [exact Hb|]. cbn.
  split; [done|]. split.
  { intros c Hc. apply elem_of_elements, list_elem_of_lookup in Hc as [i Hi].
    exists (send_ok w c (length (log st) + i)).
    apply list_elem_of_In, list_elem_of_lookup. exists i.
    subst sends. by rewrite list_lookup_imap, Hi. }
  split.
  { intros c. rewrite <- Hrem.
    destruct (bool_decide (clients = ∅)) eqn:E.
    - subst remaining. apply bool_decide_eq_true in E. fold clients. by rewrite E.
    - by rewrite lookup_insert_eq. }
  split; [|done].
  intros sid' Hne. destruct (bool_decide (clients = ∅)); [done|].
  by rewrite lookup_insert_ne.
Qed.

Lemma send_leaves_run (ws : nat) (leaves : list (string * json))
    (st : CanvasManager) :
  (forall i, (i < length leaves)%nat -> send_ok w ws (length (log st) + i) = true) ->
  send_leaves w ws leaves st =
  (Ok tt,
   set_log (log st ++
            map (fun leaf => EvSend ws (updateDataModel (fst leaf) (snd leaf)) true)
                leaves) st).
Proof.
  revert st. induction leaves as [|[path value] rest IH]; intros st Hok.
  - cbn. by rewrite app_nil_r, set_log_id.
  - cbn [send_leaves]. erewrite bind_ok; cycle 1.
    { rewrite send_str_run.
      replace (send_ok w ws (length (log st))) with true; [reflexivity|].
      symmetry. rewrite <- (Hok O) by (cbn; lia). f_equal. lia. }
    rewrite IH.
    + cbn [log set_log map fst snd]. by rewrite set_log_set_log, <- app_assoc.
    + intros i Hi. cbn [log set_log]. rewrite length_app. cbn [length].
      rewrite <- (Hok (S i)) by (cbn; lia). f_equal. lia.
Qed.

(** C2. To a handle on which the sends go through, [send_initial_state]
    sends the replay and nothing else: [createSurface], then
    [updateComponents] with the whole current list if and only if the
    list is not empty, then one [updateDataModel] per leaf of the
    flattened data model, in the order of the flattening. *)
Theorem send_initial_state_replay (sid : string) (ws : nat)
    (st : CanvasManager) (state : SurfaceState) :
  _surfaces st !! sid = Some state ->
  (forall i, (i < length (join_replay state))%nat ->
             send_ok w ws (length (log st) + i) = true) ->
  send_initial_state w sid ws st =
  (Ok tt, set_log (log st ++ map (fun m => EvSend ws m true) (join_replay state)) st).
Proof.
  intros Hs Hok. unfold send_initial_state. rewrite bind_get_self, Hs.
  assert (H0 : send_ok w ws (length (log st)) = true).
  { rewrite <- (Hok O) by (cbn; lia). f_equal. lia. }
  erewrite bind_ok; cycle 1.
  { rewrite send_str_run, H0. reflexivity. }
  unfold join_replay in *. unfold to_create_message, to_components_message.
  set (leaves := _flatten_data_model (data_model state) "") in *.
  assert (Hleaves : data_model state = [] -> leaves = []).
  { intros E. subst leaves. by rewrite E. }
  destruct (components state) as [|comp comps'] eqn:Ec.
  - erewrite bind_ok by reflexivity.
    transitivity (send_leaves w ws leaves
                    (set_log (log st ++ [EvSend ws (createSurface (surface_id state) "standard") true]) st)).
    { destruct (data_model state); [by rewrite Hleaves|reflexivity]. }
    rewrite send_leaves_run.
    + cbn [log set_log]. rewrite set_log_set_log, <- app_assoc.
      cbn [app map]. by rewrite List.map_map.
    + intros i Hi. cbn [log set_log]. rewrite length_app. cbn [length].
      rewrite <- (Hok (S i)); [f_equal; lia|].
      cbn [app length]. rewrite List.length_map. lia.
  - assert (H1 : send_ok w ws (S (length (log st))) = true).
    { rewrite <- (Hok 1%nat); [f_equal; lia|]. cbn [app length]. lia. }
    erewrite bind_ok; cycle 1.
    { rewrite send_str_run. cbn [log set_log]. rewrite length_app. cbn [length].
      replace (length (log st) + 1)%nat with (S (length (log st))) by lia.
      rewrite H1. reflexivity. }
    cbn [log set_log]. rewrite set_log_set_log.
    transitivity (send_leaves w ws leaves
                    (set_log ((log st ++ [EvSend ws (createSurface (surface_id state) "standard") true])
                              ++ [EvSend ws (updateComponents (comp :: comps')) true]) st)).
    { destruct (data_model state); [by rewrite Hleaves|reflexivity]. }
    rewrite send_leaves_run.
    + cbn [log set_log]. rewrite set_log_set_log, <- !app_assoc.
      cbn [app map]. by rewrite List.map_map.
    + intros i Hi. cbn [log set_log]. rewrite !length_app. cbn [length].
      rewrite <- (Hok (S (S i))); [f_equal; lia|].
      cbn [app length]. rewrite List.length_map. lia.
Qed.

Lemma closes_one_per_client (clients : list nat) (n : nat) :
  Forall2 (fun e c => exists ok, e = EvClose c ok)
          (imap (fun i c => EvClose c (close_ok w c (n + i))) clients) clients.
Proof.
  revert n. induction clients as [|c r IH]; intros n; [constructor|].
  rewrite imap_cons. constructor; [eauto|].
  erewrite imap_ext; [apply (IH (S n))|].
  intros i x _. unfold compose. do 2 f_equal. lia.
Qed.

(** C3, as the code has it. Closing a surface that exists returns, and
    its effects come in this order: the delete notice is sent to every
    subscriber; the surface's subscribers are dropped from the registry
    and subscriber handles are closed, one after the other; the surface is
    removed from the store; and only then is the persisted record
    unlinked, if persistence is on and the record is there. Every handle
    that is closed is a subscriber, so its close comes after the send of
    its notice; when no send of the notice failed, every subscriber is
    closed, once. A later get of the id fails with
    [SurfaceNotFoundError]. *)
Theorem close_surface_order (sid : string) (st : CanvasManager)
    (state : SurfaceState) :
  _surfaces st !! sid = Some state ->
  let clients := default ∅ (_ws_clients st !! sid) in
  let notice := deleteSurface sid in
  let sends := imap (fun i c => EvSend c notice (send_ok w c (length (log st) + i)))
                    (elements clients) in
  exists (st' : CanvasManager) (closed : list nat) (closes unlinks : list event),
    close_surface w sid st = (Ok true, st') /\
    log st' = log st ++ sends ++ [EvDropClients sid] ++ closes ++
              [EvDropSurface sid] ++ unlinks /\
    (forall c, c ∈ clients -> exists ok, In (EvSend c notice ok) sends) /\
    Forall2 (fun e c => exists ok, e = EvClose c ok) closes closed /\
    (forall c, In c closed -> c ∈ clients) /\
    ((forall c, ~ In (EvSend c notice false) sends) -> closed = elements clients) /\
    (unlinks = [] \/ exists ok, unlinks = [EvUnlink sid ok]) /\
    (persistence_enabled st = true -> is_Some (files st !! sid) ->
     exists ok, unlinks = [EvUnlink sid ok] /\ (ok = true -> files st' !! sid = None)) /\
    _ws_clients st' = delete sid (_ws_clients st) /\
    _surfaces st' = delete sid (_surfaces st) /\
    get_surface sid st' = None /\
    canvas_get sid st' = (Raise (SurfaceNotFoundError sid), st').
Proof.
  intros Hs clients notice sends. unfold close_surface.
  rewrite bind_get_self, Hs.
  destruct (_broadcast_to_surface_run w sid notice st) as (remaining & Hb & Hrem & Hcase).
  fold clients in Hb, Hrem, Hcase. fold sends in Hb, Hrem.
  set (ws1 := if bool_decide (clients = ∅) then _ws_clients st
              else <[sid := remaining]> (_ws_clients st)) in Hb.
  set (st1 := set_ws_clients ws1 (set_log (log st ++ sends) st)) in Hb.
  assert (Hdef : default ∅ (_ws_clients st1 !! sid) = remaining).
  { subst st1 ws1. cbn. destruct (bool_decide (clients = ∅)) eqn:E.
    - apply bool_decide_eq_true in E. fold clients. by rewrite E, Hcase.
    - by rewrite lookup_insert_eq. }
  assert (Hdel : delete sid (_ws_clients st1) = delete sid (_ws_clients st)).
  { subst st1 ws1. cbn. destruct (bool_decide (clients = ∅)); [done|].
    by rewrite delete_insert_eq. }
  set (closes := imap (fun i c => EvClose c (close_ok w c (length ((log st ++ sends) ++ [EvDropClients sid]) + i)))
                      (elements remaining)).
  set (st4 := set_surfaces (delete sid (_surfaces st))
                (set_ws_clients (delete sid (_ws_clients st))
                   (set_log ((((log st ++ sends) ++ [EvDropClients sid]) ++ closes) ++ [EvDropSurface sid]) st))).
  destruct (_delete_persisted_surface_run w sid st4)
    as (fs & u & unlinks & Hu & Hshape & Hfile).
  exists (set_unreadable u (set_files fs (set_log (log st4 ++ unlinks) st4))),
         (elements remaining), closes, unlinks.
  split.
  { erewrite bind_ok by exact Hb.
    rewrite bind_get_self, Hdef, Hdel.
    erewrite bind_ok by reflexivity.
    erewrite bind_ok by reflexivity.
    erewrite bind_ok by apply close_all_run.
    erewrite bind_ok by reflexivity.
    erewrite bind_ok by reflexivity.
    erewrite bind_ok by exact Hu.
    reflexivity. }
  split.
  { subst st4. cbn. by rewrite <- !app_assoc. }
  split.
  { intros c Hc. apply elem_of_elements, list_elem_of_lookup in Hc as [j Hj].
    exists (send_ok w c (length (log st) + j)).
    apply list_elem_of_In, list_elem_of_lookup. exists j.
    subst sends. by rewrite list_lookup_imap, Hj. }
  split.
  { apply closes_one_per_client. }
  split.
  { intros c Hin. apply list_elem_of_In, elem_of_elements in Hin.
    by apply Hrem in Hin as [Hc _]. }
  split.
  { intros Hall. f_equal. apply set_eq. intros c. rewrite Hrem.
    split; [by intros [? _] | intros Hc; split; [done | apply Hall]]. }
  split; [exact Hshape|].
  split.
  { intros He Hf. destruct (Hfile He Hf) as (ok & -> & Hgone). eauto. }
  split; [done|]. split; [done|].
  assert (Hget : get_surface sid
                   (set_unreadable u (set_files fs (set_log (log st4 ++ unlinks) st4)))
                 = None).
  { unfold get_surface. cbn. apply lookup_delete_eq. }
  split; [exact Hget|].
  unfold canvas_get. by rewrite bind_get_self, Hget.
Qed.

End ManagerTheorems.

(** ** The claims at concrete inputs *)

(** [root_path_rejected] at the path ["/"] and a tree with one key. *)
Lemma root_path_rejected_witness :
  _set_json_pointer [("a", JInt 1)] "/" JNull
    = ([("a", JInt 1)], Some InvalidPathError) /\
  forall (surface_id : string) (st : CanvasManager),
    is_Some (_surfaces st !! surface_id) ->
    fst (update_data_model Example.w0 surface_id "/" JNull st) = Raise InvalidPathError.
Proof.
  apply (root_path_rejected Example.w0 [("a", JInt 1)] "/" JNull).
  right. reflexivity.
Defined.

(** [update_data_model_root_no_effect] at the empty path, on the example. *)
Lemma update_data_model_root_no_effect_witness :
  exists st',
    update_data_model Example.w0 "s1" "" (JInt 7) Example.st0
      = (Raise InvalidPathError, st') /\
    st' = Example.st0.
Proof.
  destruct (update_data_model_root_no_effect Example.w0 "s1" "" (JInt 7)
              Example.st0 Example.s0) as (st' & Hrun & Hst & _).
  - reflexivity.
  - left. reflexivity.
  - exists st'. split; [exact Hrun | exact Hst].
Defined.

(** [send_initial_state_replay] for the healthy channel 1 of the example. *)
Lemma send_initial_state_replay_witness :
  send_initial_state Example.w0 "s1" 1%nat Example.st0 =
  (Ok tt,
   set_log (log Example.st0 ++
            map (fun m => EvSend 1%nat m true) (join_replay Example.s0))
           Example.st0).
Proof.
  apply (send_initial_state_replay Example.w0 "s1" 1%nat Example.st0 Example.s0).
  - reflexivity.
  - intros i _. reflexivity.
Defined.

(** [close_surface_order] on the example, where nothing fails: the three
    subscribers are closed. *)
Lemma close_surface_order_witness :
  exists st' closes,
    close_surface Example.w1 "s1" Example.st0 = (Ok true, st') /\
    Forall2 (fun e c => exists ok, e = EvClose c ok) closes
            (elements (default ∅ (_ws_clients Example.st0 !! "s1"))) /\
    get_surface "s1" st' = None.
Proof.
  destruct (close_surface_order Example.w1 "s1" Example.st0 Example.s0)
    as (st' & closed & closes & unlinks & Hrun & _ & _ & Hcl & _ & Hall & _ & _ & _ & _
        & Hget & _).
  - reflexivity.
  - exists st', closes. split; [exact Hrun|]. split; [|exact Hget].
    rewrite <- Hall; [exact Hcl|].
    intros c Hin. apply list_elem_of_In, list_elem_of_lookup in Hin as [i Hi].
    rewrite list_lookup_imap in Hi.
    destruct (elements (default ∅ (_ws_clients Example.st0 !! "s1")) !! i);
      discriminate Hi.
Defined.

(** C3, the claim as worded, fails. With three subscribers that all get
    the notice, and a persisted record, the surface leaves the store before
    its record is unlinked: nowhere in the log does the unlink come
    first. *)
Lemma close_surface_unlinks_after_store_removal :
  let l := log (snd (close_surface Example.w1 "s1" Example.st0)) in
  l = [EvSend 2 (deleteSurface "s1") true;
       EvSend 3 (deleteSurface "s1") true;
       EvSend 1 (deleteSurface "s1") true;
       EvDropClients "s1";
       EvClose 2 true; EvClose 3 true; EvClose 1 true;
       EvDropSurface "s1";
       EvUnlink "s1" true] /\
  ~ exists i j, (i < j)%nat /\
                l !! i = Some (EvUnlink "s1" true) /\
                l !! j = Some (EvDropSurface "s1").
Proof.
  assert (E : log (snd (close_surface Example.w1 "s1" Example.st0)) =
              [EvSend 2 (deleteSurface "s1") true;
               EvSend 3 (deleteSurface "s1") true;
               EvSend 1 (deleteSurface "s1") true;
               EvDropClients "s1";
               EvClose 2 true; EvClose 3 true; EvClose 1 true;
               EvDropSurface "s1";
               EvUnlink "s1" true]) by (vm_compute; reflexivity).
  cbv zeta. rewrite E. split; [reflexivity|].
  intros (i & j & Hlt & Hi & Hj).
  do 9 (destruct i as [|i]; [try discriminate Hi|]); [|destruct i; discriminate Hi].
  do 9 (destruct j as [|j]; [try discriminate Hj; try lia|]).
  destruct j; discriminate Hj.
Qed.

(** * Further properties *)

Local Set Warnings "-clear-no-such-hyp".

(** ** Paths: encoding, redundant slashes, the paths made of slashes *)

Section PyStrMore.

Variable c : ascii.

Lemma split_no_separator_id (s : string) :
  PyStr.contains_char c s = false -> PyStr.split c s = [s].
Proof.
  induction s as [|a r IH]; [reflexivity|].
  cbn [PyStr.contains_char PyStr.split]. intros H.
  apply orb_false_iff in H as [Ha Hr]. rewrite Ha, (IH Hr). reflexivity.
Qed.

Lemma split_app_separator (h rest : string) :
  PyStr.contains_char c h = false ->
  PyStr.split c (h +:+ String c rest) = h :: PyStr.split c rest.
Proof.
  induction h as [|a r IH]; intros H.
  - change ("" +:+ String c rest) with (String c rest).
    cbn [PyStr.split]. by rewrite Ascii.eqb_refl.
  - cbn [PyStr.contains_char] in H. apply orb_false_iff in H as [Ha Hr].
    rewrite append_cons. cbn [PyStr.split]. rewrite Ha, (IH Hr). reflexivity.
Qed.

Lemma split_join (segs : list string) :
  segs <> [] ->
  Forall (fun p => PyStr.contains_char c p = false) segs ->
  PyStr.split c (PyStr.join c segs) = segs.
Proof.
  induction segs as [|h t IH]; [done|]. intros _ Hall.
  apply Forall_cons in Hall as [Hh Ht].
  destruct t as [|h' t'].
  - by apply split_no_separator_id.
  - change (PyStr.join c (h :: h' :: t'))
      with (h +:+ String c (PyStr.join c (h' :: t'))).
    rewrite split_app_separator by done. f_equal. by apply IH.
Qed.

Lemma lstrip_id (s : string) :
  PyStr.starts_with c s = false -> PyStr.lstrip c s = s.
Proof. destruct s as [|a r]; [done|]. cbn. by intros ->. Qed.

Lemma rstrip_id (s : string) :
  PyStr.ends_with c s = false -> PyStr.rstrip c s = s.
Proof.
  induction s as [|a r IH]; [done|].
  destruct r as [|b r'].
  - cbn. by intros ->.
  - intros H. change (PyStr.ends_with c (String a (String b r')))
      with (PyStr.ends_with c (String b r')) in H.
    cbn [PyStr.rstrip] in *. rewrite (IH H). reflexivity.
Qed.

Lemma lstrip_rep (n : nat) (s : string) :
  PyStr.lstrip c (PyStr.rep c n +:+ s) = PyStr.lstrip c s.
Proof.
  induction n as [|n IH]; [reflexivity|].
  cbn [PyStr.rep]. rewrite append_cons. cbn [PyStr.lstrip].
  by rewrite Ascii.eqb_refl.
Qed.

Lemma rstrip_rep_only (n : nat) : PyStr.rstrip c (PyStr.rep c n) = "".
Proof.
  induction n as [|n IH]; [reflexivity|].
  cbn [PyStr.rep PyStr.rstrip]. rewrite IH. by rewrite Ascii.eqb_refl.
Qed.

Lemma rstrip_rep (n : nat) (s : string) :
  PyStr.rstrip c (s +:+ PyStr.rep c n) = PyStr.rstrip c s.
Proof.
  induction s as [|a r IH].
  - change ("" +:+ PyStr.rep c n) with (PyStr.rep c n). apply rstrip_rep_only.
  - rewrite append_cons. cbn [PyStr.rstrip]. by rewrite IH.
Qed.

Lemma lstrip_app_keep (s t : string) :
  PyStr.lstrip c s <> "" -> PyStr.lstrip c (s +:+ t) = PyStr.lstrip c s +:+ t.
Proof.
  induction s as [|a r IH]; [done|].
  rewrite append_cons. cbn [PyStr.lstrip].
  destruct (Ascii.eqb a c); [exact IH | by rewrite append_cons].
Qed.

Lemma strip_rep_only (n : nat) : PyStr.strip c (PyStr.rep c n) = "".
Proof.
  unfold PyStr.strip.
  replace (PyStr.rep c n) with (PyStr.rep c n +:+ "").
  - by rewrite lstrip_rep.
  - induction n as [|n IH]; [done|]. cbn [PyStr.rep]. by rewrite append_cons, IH.
Qed.

Lemma lstrip_all_sep (s : string) :
  PyStr.lstrip c s = "" -> exists n, s = PyStr.rep c n.
Proof.
  intros H. destruct (lstrip_decompose c s) as [n Hn]. rewrite H in Hn.
  exists n. rewrite Hn. clear. induction n as [|n IH]; [done|].
  cbn [PyStr.rep]. by rewrite append_cons, IH.
Qed.

Lemma rep_app (i j : nat) :
  PyStr.rep c i +:+ PyStr.rep c j = PyStr.rep c (i + j).
Proof.
  induction i as [|i IH]; [done|]. cbn [PyStr.rep Nat.add].
  by rewrite append_cons, IH.
Qed.

(** Slashes added in front of a path or after it are stripped with the
    others. *)
Lemma strip_padded (i j : nat) (s : string) :
  PyStr.strip c (PyStr.rep c i +:+ s +:+ PyStr.rep c j) = PyStr.strip c s.
Proof.
  unfold PyStr.strip. rewrite lstrip_rep.
  destruct (PyStr.lstrip c s) as [|a r] eqn:E.
  - destruct (lstrip_all_sep s E) as [n ->].
    rewrite rep_app. fold (PyStr.strip c (PyStr.rep c (n + j))).
    by rewrite strip_rep_only.
  - rewrite lstrip_app_keep by (rewrite E; discriminate).
    rewrite E. apply rstrip_rep.
Qed.

End PyStrMore.

Lemma append_eq_empty (s t : string) : s +:+ t = "" -> s = "" /\ t = "".
Proof.
  destruct s; [|rewrite append_cons; discriminate].
  change ("" +:+ t) with t. by intros ->.
Qed.

Lemma ends_with_app (c : ascii) (s t : string) :
  t <> "" -> PyStr.ends_with c (s +:+ t) = PyStr.ends_with c t.
Proof.
  intros Ht. induction s as [|a r IH]; [done|].
  rewrite append_cons.
  destruct (r +:+ t) as [|b u] eqn:E.
  - apply append_eq_empty in E as [_ ->]. done.
  - exact IH.
Qed.

Lemma slash_free_no_lead (c : ascii) (s : string) :
  PyStr.contains_char c s = false -> PyStr.starts_with c s = false.
Proof. destruct s; [done|]. cbn. by intros [? _]%orb_false_iff. Qed.

Lemma slash_free_no_trail (c : ascii) (s : string) :
  PyStr.contains_char c s = false -> PyStr.ends_with c s = false.
Proof.
  induction s as [|a r IH]; [done|]. cbn [PyStr.contains_char].
  intros [Ha Hr]%orb_false_iff. destruct r; [exact Ha | by apply IH].
Qed.

Lemma join_no_trail (c : ascii) (segs : list string) :
  segs <> [] ->
  Forall (fun p => PyStr.contains_char c p = false) segs ->
  List.last segs "" <> "" ->
  PyStr.join c segs <> "" /\ PyStr.ends_with c (PyStr.join c segs) = false.
Proof.
  induction segs as [|h t IH]; [done|]. intros _ Hall Hlast.
  apply Forall_cons in Hall as [Hh Ht].
  destruct t as [|h' t'].
  - cbn in *. split; [done | by apply slash_free_no_trail].
  - change (PyStr.join c (h :: h' :: t'))
      with (h +:+ String c (PyStr.join c (h' :: t'))).
    destruct (IH ltac:(done) Ht Hlast) as [Hne Hend].
    split.
    + intros [_ ?]%append_eq_empty. discriminate.
    + rewrite ends_with_app by discriminate.
      destruct (PyStr.join c (h' :: t')) eqn:E; [done|exact Hend].
Qed.

Lemma join_no_lead (c : ascii) (segs : list string) :
  Forall (fun p => PyStr.contains_char c p = false) segs ->
  hd "" segs <> "" ->
  PyStr.starts_with c (PyStr.join c segs) = false.
Proof.
  intros Hall Hhd. destruct segs as [|h t]; [done|].
  apply Forall_cons in Hall as [Hh _].
  cbn [hd] in Hhd. destruct h as [|a r]; [done|].
  rewrite join_cons_char. cbn in *. by apply orb_false_iff in Hh as [? _].
Qed.

Lemma strip_slash_join (segs : list string) :
  segs <> [] ->
  Forall (fun p => PyStr.contains_char "/" p = false) segs ->
  hd "" segs <> "" ->
  List.last segs "" <> "" ->
  PyStr.strip "/" ("/" +:+ PyStr.join "/" segs) = PyStr.join "/" segs.
Proof.
  intros Hne Hall Hhd Hlast.
  destruct (join_no_trail "/" segs Hne Hall Hlast) as [_ Hend].
  pose proof (join_no_lead "/" segs Hall Hhd) as Hlead.
  unfold PyStr.strip.
  change ("/" +:+ PyStr.join "/" segs) with (String "/" (PyStr.join "/" segs)).
  cbn [PyStr.lstrip]. rewrite Ascii.eqb_refl.
  by rewrite lstrip_id, rstrip_id.
Qed.

(** X1. Encoding then decoding: for segments without slashes, the first and
    the last of them not empty, the path made of a slash and the segments
    joined by slashes is not a root path and decodes to the segments. *)
Theorem path_parts_of_segments (segs : list string) :
  segs <> [] ->
  Forall (fun p => PyStr.contains_char "/" p = false) segs ->
  hd "" segs <> "" ->
  List.last segs "" <> "" ->
  is_root_path ("/" +:+ PyStr.join "/" segs) = false /\
  path_parts ("/" +:+ PyStr.join "/" segs) = segs.
Proof.
  intros Hne Hall Hhd Hlast.
  destruct (join_no_trail "/" segs Hne Hall Hlast) as [Hj _].
  split.
  - destruct (PyStr.join "/" segs); done.
  - unfold path_parts. rewrite strip_slash_join by done. by apply split_join.
Qed.

(** [path_parts_of_segments] on three segments, the middle one empty. *)
Lemma path_parts_of_segments_witness :
  is_root_path ("/" +:+ PyStr.join "/" ["user"; ""; "name"]) = false /\
  path_parts ("/" +:+ PyStr.join "/" ["user"; ""; "name"]) = ["user"; ""; "name"].
Proof.
  apply (path_parts_of_segments ["user"; ""; "name"]).
  - discriminate.
  - repeat constructor.
  - discriminate.
  - discriminate.
Defined.

Lemma is_root_path_padded (i j : nat) (path : string) :
  is_root_path path = false ->
  is_root_path (PyStr.rep "/" i +:+ path +:+ PyStr.rep "/" j) = false.
Proof.
  intros Hroot.
  destruct (is_root_path (PyStr.rep "/" i +:+ path +:+ PyStr.rep "/" j)) eqn:E;
    [|done].
  exfalso.
  apply is_root_path_spec in E.
  assert (Hp : path <> "" /\ path <> "/").
  { split; intros ->; discriminate. }
  destruct Hp as [Hp1 Hp2].
  destruct i as [|i].
  - change (PyStr.rep "/" 0 +:+ path +:+ PyStr.rep "/" j)
      with (path +:+ PyStr.rep "/" j) in E.
    destruct E as [E|E].
    + by apply append_eq_empty in E as [? _].
    + destruct path as [|a r]; [done|]. rewrite append_cons in E.
      injection E as -> E. apply append_eq_empty in E as [-> _]. done.
  - cbn [PyStr.rep] in E. rewrite append_cons in E. destruct E as [E|E]; [done|].
    injection E as E. apply append_eq_empty in E as [_ E].
    by apply append_eq_empty in E as [? _].
Qed.

(** X2. Slashes added in front of a path or after it change nothing to what
    [_set_json_pointer] does: the target is the same, and so is the tree. *)
Theorem set_ignores_padding (obj : list (string * json)) (path : string)
    (value : json) (i j : nat) :
  is_root_path path = false ->
  _set_json_pointer obj (PyStr.rep "/" i +:+ path +:+ PyStr.rep "/" j) value
  = _set_json_pointer obj path value.
Proof.
  intros Hroot. unfold _set_json_pointer.
  rewrite (is_root_path_padded i j path Hroot), Hroot.
  unfold path_parts. by rewrite strip_padded.
Qed.

(** [set_ignores_padding] on ["a/b"], written ["//a/b/"]. *)
Lemma set_ignores_padding_witness :
  _set_json_pointer [] (PyStr.rep "/" 2 +:+ "a/b" +:+ PyStr.rep "/" 1) (JInt 1)
  = _set_json_pointer [] "a/b" (JInt 1).
Proof. apply (set_ignores_padding [] "a/b" (JInt 1) 2 1). reflexivity. Defined.

(** X3. Only [""] and ["/"] are root paths. A path of two slashes or more
    is accepted, and it sets the empty key of the root. *)
Theorem set_slashes_only (obj : list (string * json)) (value : json) (n : nat) :
  (2 <= n)%nat ->
  _set_json_pointer obj (PyStr.rep "/" n) value = (dict_set obj "" value, None).
Proof.
  intros Hn. unfold _set_json_pointer.
  destruct n as [|[|n]]; [lia | lia |].
  change (is_root_path (PyStr.rep "/" (S (S n)))) with false. cbv iota zeta.
  unfold path_parts. by rewrite strip_rep_only.
Qed.

(** [set_slashes_only] on ["///"]. *)
Lemma set_slashes_only_witness :
  _set_json_pointer [("a", JInt 1)] (PyStr.rep "/" 3) JNull
  = (dict_set [("a", JInt 1)] "" JNull, None).
Proof. apply (set_slashes_only [("a", JInt 1)] JNull 3). lia. Defined.

(** ** The patcher: what else a set does, and what it leaves alone *)

Lemma dict_get_set_other (d : list (string * json)) (key key' : string) (value : json) :
  key <> key' -> dict_get (dict_set d key value) key' = dict_get d key'.
Proof.
  intros Hne. induction d as [|[k v] r IH]; simpl.
  - apply String.eqb_neq in Hne. by rewrite Hne.
  - destruct (String.eqb_spec k key) as [->|Hk]; simpl.
    + apply String.eqb_neq in Hne. by rewrite Hne.
    + by rewrite IH.
Qed.

Lemma dict_set_set (d : list (string * json)) (key : string) (v1 v2 : json) :
  dict_set (dict_set d key v1) key v2 = dict_set d key v2.
Proof.
  induction d as [|[k v] r IH]; simpl.
  - by rewrite String.eqb_refl.
  - destruct (String.eqb k key) eqn:E; simpl; rewrite E; [done | by rewrite IH].
Qed.

Lemma set_walk_twice (current current1 : json) (parts : list string)
    (last : string) (v1 v2 : json) :
  set_walk current parts last v1 = (current1, None) ->
  set_walk current1 parts last v2 = set_walk current parts last v2.
Proof.
  revert current current1. induction parts as [|part rest IH]; intros current current1 Hset.
  - destruct current; try discriminate. injection Hset as <-.
    cbn. by rewrite dict_set_set.
  - cbn [set_walk] in Hset |- *.
    destruct current as [| | | |s|l|d]; try discriminate.
    + cbn [py_contains] in Hset. destruct (PyStr.is_substring part s); discriminate.
    + cbn [py_contains] in Hset. destruct (existsb _ l); discriminate.
    + cbn [py_contains] in Hset |- *.
      destruct (dict_get d part) as [child|] eqn:Ed.
      * rewrite bool_decide_eq_true_2 in Hset |- * by eauto.
        cbn [py_getitem] in Hset |- *. rewrite Ed in Hset |- *.
        destruct (set_walk child rest last v1) as [child1 e1] eqn:E1.
        injection Hset as <- ->. cbn [py_alias_back py_contains].
        rewrite bool_decide_eq_true_2 by (rewrite dict_get_set_eq; eauto).
        cbn [py_getitem]. rewrite dict_get_set_eq, (IH _ _ E1).
        destruct (set_walk child rest last v2) as [child2 e2].
        cbn [py_alias_back]. by rewrite dict_set_set.
      * rewrite bool_decide_eq_false_2 in Hset |- * by (intros [? ?]; congruence).
        cbn [py_setitem py_getitem] in Hset |- *. rewrite dict_get_set_eq in Hset |- *.
        destruct (set_walk (JDict []) rest last v1) as [child1 e1] eqn:E1.
        injection Hset as <- ->. cbn [py_alias_back py_contains].
        rewrite dict_set_set.
        rewrite bool_decide_eq_true_2 by (rewrite dict_get_set_eq; eauto).
        cbn [py_getitem]. rewrite dict_get_set_eq, (IH _ _ E1).
        destruct (set_walk (JDict []) rest last v2) as [child2 e2].
        cbn [py_alias_back]. by rewrite !dict_set_set.
Qed.

(** X4. The last write wins: after a set that returned, a second set at
    the same path gives what it would have given on the first tree. *)
Theorem set_twice (obj obj1 : list (string * json)) (path : string) (v1 v2 : json) :
  _set_json_pointer obj path v1 = (obj1, None) ->
  _set_json_pointer obj1 path v2 = _set_json_pointer obj path v2.
Proof.
  intros Hset. pose proof (_set_json_pointer_returns _ _ _ _ Hset) as Hwalk.
  unfold _set_json_pointer in *.
  destruct (is_root_path path); [done|]. cbv zeta.
  rewrite (set_walk_twice _ _ _ _ _ v2 Hwalk).
  destruct (set_walk_dict obj (removelast (path_parts path))
              (List.last (path_parts path) "") v2) as [d' Hd].
  destruct (set_walk (JDict obj) _ _ v2) as [t e]. cbn [fst] in Hd. by subst t.
Qed.

(** [set_twice] at ["/a/b"], first on an empty tree. *)
Lemma set_twice_witness :
  _set_json_pointer [("a", JDict [("b", JInt 1)])] "/a/b" (JInt 2)
  = _set_json_pointer [] "/a/b" (JInt 2).
Proof. apply (set_twice [] _ "/a/b" (JInt 1) (JInt 2)). reflexivity. Defined.

Lemma set_walk_frame (current : json) (parts q : list string)
    (last : string) (value : json) :
  diverge (parts ++ [last]) q ->
  get_walk (fst (set_walk current parts last value)) q = get_walk current q.
Proof.
  revert current q. induction parts as [|part rest IH]; intros current q Hdiv.
  - destruct current; try reflexivity.
    inversion Hdiv as [k1 k2 r1 r2 Hne|k r1 r2 Hrest]; subst.
    + cbn. by rewrite dict_get_set_other.
    + inversion Hrest.
  - cbn [set_walk].
    destruct current as [| | | |s|l|d]; try reflexivity.
    + cbn [py_contains]. by destruct (PyStr.is_substring part s).
    + cbn [py_contains]. by destruct (existsb _ l).
    + cbn [py_contains].
      destruct (dict_get d part) as [child|] eqn:Ed.
      * rewrite bool_decide_eq_true_2 by eauto.
        cbn [py_getitem]. rewrite Ed.
        specialize (IH child).
        destruct (set_walk child rest last value) as [child' e].
        cbn [py_alias_back fst] in *.
        inversion Hdiv as [k1 k2 r1 r2 Hne|k r1 r2 Hrest]; subst.
        -- cbn. by rewrite dict_get_set_other.
        -- cbn. rewrite dict_get_set_eq, Ed. by apply IH.
      * rewrite bool_decide_eq_false_2 by (intros [? ?]; congruence).
        cbn [py_setitem py_getitem]. rewrite dict_get_set_eq.
        specialize (IH (JDict [])).
        destruct (set_walk (JDict []) rest last value) as [child' e].
        cbn [py_alias_back fst] in *. rewrite dict_set_set.
        inversion Hdiv as [k1 k2 r1 r2 Hne|k r1 r2 Hrest]; subst.
        -- cbn. by rewrite dict_get_set_other.
        -- cbn. rewrite dict_get_set_eq, Ed. rewrite (IH _ Hrest).
           by inversion Hrest.
Qed.

(** X5. A set is scoped to its path: whatever it does, the lookup of a path
    that parts ways with the one set gives what it gave before. *)
Theorem set_leaves_other_paths (obj : list (string * json)) (path other : string)
    (value : json) :
  diverge (path_parts path) (path_parts other) ->
  get_json_pointer (fst (_set_json_pointer obj path value)) other
  = get_json_pointer obj other.
Proof.
  intros Hdiv. unfold _set_json_pointer.
  destruct (is_root_path path); [done|]. cbv zeta.
  rewrite path_parts_snoc in Hdiv.
  pose proof (set_walk_frame (JDict obj) _ _ _ value Hdiv) as Hframe.
  destruct (set_walk_dict obj (removelast (path_parts path))
              (List.last (path_parts path) "") value) as [d' Hd].
  destruct (set_walk (JDict obj) _ _ value) as [t e]. cbn [fst] in *. by subst t.
Qed.

(** [set_leaves_other_paths]: setting ["/user/name"] and reading ["/user/age"]. *)
Lemma set_leaves_other_paths_witness :
  get_json_pointer
    (fst (_set_json_pointer [("user", JDict [("age", JInt 30)])] "/user/name" (JStr "x")))
    "/user/age"
  = get_json_pointer [("user", JDict [("age", JInt 30)])] "/user/age".
Proof.
  apply (set_leaves_other_paths _ "/user/name" "/user/age").
  apply diverge_later, diverge_here. discriminate.
Defined.

Lemma _set_json_pointer_error (obj obj' : list (string * json)) (path : string)
    (value : json) (e : exn) :
  _set_json_pointer obj path value = (obj', Some e) ->
  obj' = obj /\
  ((is_root_path path = true /\ e = InvalidPathError) \/
   (is_root_path path = false /\ hits_non_mapping obj path = true /\ e = TypeError)).
Proof.
  intros Hset. destruct (is_root_path path) eqn:Hroot.
  - unfold _set_json_pointer in Hset. rewrite Hroot in Hset.
    injection Hset as <- <-. auto.
  - destruct (hits_non_mapping obj path) eqn:Hb.
    + rewrite (_set_json_pointer_blocked _ _ value Hroot Hb) in Hset.
      injection Hset as <- <-. auto.
    + destruct (_set_json_pointer_clear _ _ value Hroot Hb) as [o Ho].
      rewrite Ho in Hset. discriminate.
Qed.

(** X6. A set that raises has changed nothing, and it raises for one of two
    reasons: the path is a root path, or a value on the way is not a
    mapping. *)
Theorem set_raises_unchanged (obj obj' : list (string * json)) (path : string)
    (value : json) (e : exn) :
  _set_json_pointer obj path value = (obj', Some e) ->
  obj' = obj /\
  ((is_root_path path = true /\ e = InvalidPathError) \/
   (is_root_path path = false /\ hits_non_mapping obj path = true /\ e = TypeError)).
Proof. apply _set_json_pointer_error. Qed.

(** [set_raises_unchanged] under a list. *)
Lemma set_raises_unchanged_witness :
  [("tags", JList [JStr "a"])] = [("tags", JList [JStr "a"])] /\
  ((is_root_path "/tags/a" = true /\ TypeError = InvalidPathError) \/
   (is_root_path "/tags/a" = false /\
    hits_non_mapping [("tags", JList [JStr "a"])] "/tags/a" = true /\
    TypeError = TypeError)).
Proof.
  apply (set_raises_unchanged [("tags", JList [JStr "a"])] _ "/tags/a" (JInt 1)).
  reflexivity.
Defined.

(** ** models.py: the presets *)

(** X7. The enumeration is read back from its values: the value of a
    member parses to the member, a string parses to a member only if it is
    the member's value, and any other string makes [from_preset] raise a
    [ValueError]. *)
Theorem preset_value_round_trip (p : CanvasSizePreset) (s : string) :
  preset_of_value (preset_value p) = Ok p /\
  from_preset_name (preset_value p) = Ok (from_preset p) /\
  (preset_of_value s = Ok p -> s = preset_value p) /\
  ((forall q, s <> preset_value q) ->
   exists msg, from_preset_name s = Raise (ValueError msg)).
Proof.
  split; [by destruct p|]. split; [by destruct p|]. split.
  - unfold preset_of_value.
    repeat (match goal with
            | |- context [String.eqb s ?v] =>
                destruct (String.eqb s v) eqn:E;
                [apply String.eqb_eq in E; intros [= <-]; exact E | clear E]
            end).
    discriminate.
  - intros Hno. unfold from_preset_name, preset_of_value.
    destruct (String.eqb_spec s "tv_1080p") as [E|_]; [by destruct (Hno TV_1080P)|].
    destruct (String.eqb_spec s "tv_4k") as [E|_]; [by destruct (Hno TV_4K)|].
    destruct (String.eqb_spec s "phone") as [E|_]; [by destruct (Hno PHONE_PORTRAIT)|].
    destruct (String.eqb_spec s "tablet") as [E|_]; [by destruct (Hno TABLET)|].
    destruct (String.eqb_spec s "square") as [E|_]; [by destruct (Hno SQUARE)|].
    destruct (String.eqb_spec s "auto") as [E|_]; [by destruct (Hno AUTO)|].
    destruct (String.eqb_spec s "custom") as [E|_]; [by destruct (Hno CUSTOM)|].
    eauto.
Qed.

(** X8. [from_preset] keeps the preset and the scale mode ["fit"]; it
    leaves the width and the height unset for [AUTO] and [CUSTOM] and for
    no other preset, and the sizes it sets are positive. *)
Theorem from_preset_dimensions (p : CanvasSizePreset) :
  preset (from_preset p) = p /\
  scale_mode (from_preset p) = "fit" /\
  (width (from_preset p) = None <-> p = AUTO \/ p = CUSTOM) /\
  (height (from_preset p) = None <-> p = AUTO \/ p = CUSTOM) /\
  (forall n, width (from_preset p) = Some n \/ height (from_preset p) = Some n -> 0 < n).
Proof.
  destruct p; cbn; (split; [done|]); (split; [done|]);
    (split; [split; [try discriminate; auto | try (intros [?|?]; discriminate); auto]|]);
    (split; [split; [try discriminate; auto | try (intros [?|?]; discriminate); auto]|]);
    intros n [[= <-]|[= <-]]; lia.
Qed.

(** ** The registry of subscribers *)

Lemma set_ws_clients_set_ws_clients (m m' : gmap string (gset nat)) (st : CanvasManager) :
  set_ws_clients m (set_ws_clients m' st) = set_ws_clients m st.
Proof. reflexivity. Qed.

Lemma register_ws_client_run (sid : string) (ws : nat) (st : CanvasManager)
    (state : SurfaceState) :
  _surfaces st !! sid = Some state ->
  register_ws_client sid ws st =
  (Ok true,
   set_ws_clients (<[sid := default ∅ (_ws_clients st !! sid) ∪ {[ws]}]> (_ws_clients st)) st).
Proof.
  intros Hs. unfold register_ws_client. by rewrite bind_get_self, Hs.
Qed.

(** X9. [register_ws_client] refuses a handle for a surface that does not
    exist and changes nothing then. For a surface that exists it adds the
    handle to the surface's set, creating the set if the registry had none,
    and touches nothing else; registering again changes nothing more. *)
Theorem register_ws_client_spec (sid : string) (ws : nat) (st : CanvasManager) :
  match _surfaces st !! sid with
  | None => register_ws_client sid ws st = (Ok false, st)
  | Some _ =>
      exists st',
        register_ws_client sid ws st = (Ok true, st') /\
        _ws_clients st' !! sid = Some (default ∅ (_ws_clients st !! sid) ∪ {[ws]}) /\
        (forall sid', sid' <> sid -> _ws_clients st' !! sid' = _ws_clients st !! sid') /\
        _surfaces st' = _surfaces st /\
        files st' = files st /\
        log st' = log st /\
        register_ws_client sid ws st' = (Ok true, st')
  end.
Proof.
  destruct (_surfaces st !! sid) as [state|] eqn:Hs.
  - rewrite (register_ws_client_run _ ws _ _ Hs).
    eexists. split; [reflexivity|]. cbn [_ws_clients _surfaces files log set_ws_clients].
    split; [apply lookup_insert_eq|].
    split; [intros sid' Hne; by apply lookup_insert_ne|].
    do 3 (split; [done|]).
    erewrite register_ws_client_run by exact Hs.
    cbn [_ws_clients set_ws_clients]. rewrite lookup_insert_eq, insert_insert_eq.
    cbn [default]. rewrite set_ws_clients_set_ws_clients. unfold id.
    rewrite <- (assoc_L (∪)). by rewrite union_idemp_L.
  - unfold register_ws_client. by rewrite bind_get_self, Hs.
Qed.

(** X10. [unregister_ws_client] never raises. Afterwards the handle is not
    a subscriber of the surface, the other handles and the other surfaces
    are as before, and when the handle was not a subscriber (or the
    registry has no set for the surface) the manager is unchanged. *)
Theorem unregister_ws_client_spec (sid : string) (ws : nat) (st : CanvasManager) :
  exists st',
    unregister_ws_client sid ws st = (Ok tt, st') /\
    (ws ∉ default ∅ (_ws_clients st' !! sid)) /\
    (forall c, c <> ws ->
               (c ∈ default ∅ (_ws_clients st' !! sid) <->
                c ∈ default ∅ (_ws_clients st !! sid))) /\
    (forall sid', sid' <> sid -> _ws_clients st' !! sid' = _ws_clients st !! sid') /\
    _surfaces st' = _surfaces st /\
    (ws ∉ default ∅ (_ws_clients st !! sid) -> st' = st).
Proof.
  unfold unregister_ws_client. rewrite bind_get_self.
  destruct (_ws_clients st !! sid) as [s|] eqn:Hs.
  - eexists. split; [reflexivity|]. cbn. rewrite lookup_insert_eq. cbn.
    split; [set_solver|]. split; [intros c Hc; set_solver|].
    split; [intros sid' Hne; by apply lookup_insert_ne|].
    split; [done|]. intros Hnot.
    replace (s ∖ {[ws]}) with s by set_solver.
    rewrite insert_id by done. apply set_ws_clients_id.
  - exists st. split; [reflexivity|]. rewrite Hs. cbn.
    split; [set_solver|]. done.
Qed.

(** X11. Registering a handle that was not a subscriber and unregistering
    it gives the surface the subscribers it had. *)
Theorem register_then_unregister (sid : string) (ws : nat) (st : CanvasManager) :
  is_Some (_surfaces st !! sid) ->
  ws ∉ default ∅ (_ws_clients st !! sid) ->
  exists st1 st2,
    register_ws_client sid ws st = (Ok true, st1) /\
    unregister_ws_client sid ws st1 = (Ok tt, st2) /\
    default ∅ (_ws_clients st2 !! sid) = default ∅ (_ws_clients st !! sid) /\
    (forall sid', sid' <> sid -> _ws_clients st2 !! sid' = _ws_clients st !! sid') /\
    _surfaces st2 = _surfaces st.
Proof.
  intros [state Hs] Hnot.
  unfold register_ws_client, unregister_ws_client. rewrite bind_get_self, Hs.
  eexists. eexists. split; [reflexivity|].
  rewrite bind_get_self. cbn. rewrite lookup_insert_eq.
  split; [reflexivity|]. cbn. rewrite lookup_insert_eq. cbn.
  split; [set_solver|].
  split; [|done]. intros sid' Hne. by rewrite !lookup_insert_ne.
Qed.

(** [register_then_unregister] for a fourth handle on the example. *)
Lemma register_then_unregister_witness :
  exists st1 st2,
    register_ws_client "s1" 4%nat Example.st0 = (Ok true, st1) /\
    unregister_ws_client "s1" 4%nat st1 = (Ok tt, st2) /\
    default ∅ (_ws_clients st2 !! "s1") = default ∅ (_ws_clients Example.st0 !! "s1").
Proof.
  destruct (register_then_unregister "s1" 4%nat Example.st0)
    as (st1 & st2 & H1 & H2 & H3 & _).
  - eexists. reflexivity.
  - vm_compute. set_solver.
  - exists st1, st2. auto.
Defined.

(** ** Creating a surface *)

Section ManagerMoreFacts.

Variable w : World.
Variable config : CanvasConfig.

Lemma _persist_surface_exact (sid : string) (st : CanvasManager) :
  _persist_surface w sid st =
  (Ok tt,
   if persistence_enabled st then
     match _surfaces st !! sid with
     | Some state => after_write w sid state st
     | None => st
     end
   else st).
Proof.
  unfold _persist_surface, after_write. rewrite bind_get_self.
  destruct (persistence_enabled st); [|reflexivity]. cbn [negb].
  destruct (_surfaces st !! sid) as [state|]; [|reflexivity].
  unfold bind, emit, modify, ret. cbv zeta.
  destruct (disk_ok w (length (log st))).
  - by destruct (reload_state state).
  - by destruct (truncates w (length (log st))).
Qed.

Lemma after_write_frame (sid : string) (state : SurfaceState) (st : CanvasManager) :
  persistence_enabled (after_write w sid state st) = persistence_enabled st /\
  _surfaces (after_write w sid state st) = _surfaces st /\
  _ws_clients (after_write w sid state st) = _ws_clients st /\
  clock (after_write w sid state st) = clock st /\
  log (after_write w sid state st)
  = log st ++ [EvWrite sid (disk_ok w (length (log st)))] /\
  (forall sid', sid' <> sid ->
                files (after_write w sid state st) !! sid' = files st !! sid').
Proof.
  unfold after_write. cbv zeta.
  destruct (disk_ok w (length (log st)));
    [destruct (reload_state state) | destruct (truncates w (length (log st)))];
    cbn; repeat split; try done; intros sid' Hne.
  - by rewrite lookup_insert_ne.
  - by rewrite lookup_delete_ne.
  - by rewrite lookup_delete_ne.
Qed.

Lemma after_write_surfaces (sid : string) (state : SurfaceState) (st : CanvasManager) :
  _surfaces (after_write w sid state st) = _surfaces st.
Proof. apply after_write_frame. Qed.

Lemma after_write_ws_clients (sid : string) (state : SurfaceState) (st : CanvasManager) :
  _ws_clients (after_write w sid state st) = _ws_clients st.
Proof. apply after_write_frame. Qed.

Lemma after_write_enabled (sid : string) (state : SurfaceState) (st : CanvasManager) :
  persistence_enabled (after_write w sid state st) = persistence_enabled st.
Proof. apply after_write_frame. Qed.

Lemma after_write_clock (sid : string) (state : SurfaceState) (st : CanvasManager) :
  clock (after_write w sid state st) = clock st.
Proof. apply after_write_frame. Qed.

Lemma after_write_log (sid : string) (state : SurfaceState) (st : CanvasManager) :
  log (after_write w sid state st)
  = log st ++ [EvWrite sid (disk_ok w (length (log st)))].
Proof. apply after_write_frame. Qed.

Lemma after_write_files (sid : string) (state : SurfaceState) (st : CanvasManager) :
  files (after_write w sid state st)
  = files_after_write w (length (log st)) sid state (files st).
Proof.
  unfold after_write, files_after_write. cbv zeta.
  destruct (disk_ok w (length (log st)));
    [by destruct (reload_state state) | by destruct (truncates w (length (log st)))].
Qed.

(** A state with no component and no data model loads as it was written. *)
Lemma reload_state_fresh (state : SurfaceState) :
  components state = [] -> data_model state = [] -> reload_state state = Some state.
Proof.
  destruct state as [i n d sz c m ca ua]. cbn. by intros -> ->.
Qed.

Lemma reload_state_surface_id (state record : SurfaceState) :
  reload_state state = Some record -> surface_id record = surface_id state.
Proof.
  unfold reload_state. destruct (forallb is_mapping (components state)); [|done].
  by intros [= <-].
Qed.

(** X12. [create_surface] with a size that resolves returns the connection
    info of the new surface (the id it was given, the URLs of that id, no
    connected client) and stores a surface with no component and an empty
    data model under that id, with an empty set of subscribers; the other
    surfaces are untouched. The surface is written to disk at once when
    persistence is on and the disk works, and nothing is written when
    persistence is off. *)
Theorem create_surface_spec (new_id : string) (nm : option string)
    (sz : size_arg) (cs : CanvasSize) (st : CanvasManager) :
  resolve_size config sz = Ok cs ->
  exists (st' : CanvasManager) (surf : Surface.t) (state : SurfaceState),
    create_surface w config new_id nm sz st = (Ok surf, st') /\
    Surface.surface_id surf = new_id /\
    Surface.name surf = nm /\
    Surface.size surf = cs /\
    (Surface.local_url surf, Surface.ws_url surf) = _get_surface_urls config new_id /\
    Surface.connected_clients surf = 0%nat /\
    state = {| surface_id := new_id; name := nm; device_id := None; size := cs;
               components := []; data_model := [];
               created_at := clock st; updated_at := clock st + 1 |} /\
    _surfaces st' = <[new_id := state]> (_surfaces st) /\
    _ws_clients st' = <[new_id := ∅]> (_ws_clients st) /\
    (persistence_enabled st = true -> disk_ok w (length (log st)) = true ->
     files st' = <[new_id := state]> (files st) /\
     log st' = log st ++ [EvWrite new_id true]) /\
    (persistence_enabled st = false -> files st' = files st /\ log st' = log st).
Proof.
  intros Hsz. unfold create_surface.
  destruct (_get_surface_urls config new_id) as [local_url ws_url] eqn:Hurls.
  rewrite Hsz.
  erewrite bind_ok by reflexivity.
  erewrite bind_ok by reflexivity.
  erewrite bind_ok by reflexivity.
  erewrite bind_ok by reflexivity.
  erewrite bind_ok by reflexivity.
  erewrite bind_ok by apply _persist_surface_exact.
  erewrite bind_ok by reflexivity.
  eexists. eexists. eexists. split; [reflexivity|].
  do 5 (split; [reflexivity|]). split; [reflexivity|].
  cbn [datetime_now modify fst snd clock persistence_enabled _surfaces _ws_clients
       files log set_clock set_surfaces set_ws_clients set_files set_log].
  rewrite lookup_insert_eq.
  destruct (persistence_enabled st) eqn:Hp.
  - unfold after_write. cbn.
    destruct (disk_ok w (length (log st))) eqn:Hd;
      [|destruct (truncates w (length (log st)))];
      cbn; repeat split; try done; by intros.
  - cbn. repeat split; try done.
Qed.

Lemma from_preset_name_unknown (s : string) :
  (forall q, s <> preset_value q) ->
  exists msg, from_preset_name s = Raise (ValueError msg).
Proof.
  intros Hno. unfold from_preset_name, preset_of_value.
  destruct (String.eqb_spec s "tv_1080p") as [E|_]; [by destruct (Hno TV_1080P)|].
  destruct (String.eqb_spec s "tv_4k") as [E|_]; [by destruct (Hno TV_4K)|].
  destruct (String.eqb_spec s "phone") as [E|_]; [by destruct (Hno PHONE_PORTRAIT)|].
  destruct (String.eqb_spec s "tablet") as [E|_]; [by destruct (Hno TABLET)|].
  destruct (String.eqb_spec s "square") as [E|_]; [by destruct (Hno SQUARE)|].
  destruct (String.eqb_spec s "auto") as [E|_]; [by destruct (Hno AUTO)|].
  destruct (String.eqb_spec s "custom") as [E|_]; [by destruct (Hno CUSTOM)|].
  eauto.
Qed.

(** X13. [create_surface] with a size name that is no preset's value raises
    a [ValueError] and leaves the manager as it was: no surface is stored,
    nothing is written. *)
Theorem create_surface_unknown_preset (new_id : string) (nm : option string)
    (s : string) (st : CanvasManager) :
  (forall q, s <> preset_value q) ->
  exists msg,
    create_surface w config new_id nm (SizeName s) st = (Raise (ValueError msg), st).
Proof.
  intros Hno. destruct (from_preset_name_unknown s Hno) as [msg Hmsg].
  exists msg. unfold create_surface.
  destruct (_get_surface_urls config new_id) as [local_url ws_url].
  cbn [resolve_size]. by rewrite Hmsg.
Qed.

Lemma get_surface_info_some (sid : string) (st : CanvasManager) (state : SurfaceState) :
  _surfaces st !! sid = Some state ->
  get_surface_info config sid st =
  Some {| Surface.surface_id := surface_id state;
          Surface.name := name state;
          Surface.device_id := None;
          Surface.size := size state;
          Surface.local_url := fst (_get_surface_urls config sid);
          Surface.ws_url := snd (_get_surface_urls config sid);
          Surface.created_at := created_at state;
          Surface.connected_clients :=
            base.size (default ∅ (_ws_clients st !! sid)) |}.
Proof.
  intros Hs. unfold get_surface_info. rewrite Hs. destruct state.
  by destruct (_get_surface_urls config sid).
Qed.

(** X14. The count of connected clients follows the registry: a surface
    just created shows none, and registering a handle that was not a
    subscriber shows one more, the rest of the info being the same. *)
Theorem connected_clients_counts (sid : string) (ws : nat) (st : CanvasManager) :
  is_Some (_surfaces st !! sid) ->
  ws ∉ default ∅ (_ws_clients st !! sid) ->
  exists st' info info',
    register_ws_client sid ws st = (Ok true, st') /\
    get_surface_info config sid st = Some info /\
    get_surface_info config sid st' = Some info' /\
    Surface.connected_clients info = base.size (default ∅ (_ws_clients st !! sid)) /\
    Surface.connected_clients info' = S (Surface.connected_clients info) /\
    Surface.surface_id info' = Surface.surface_id info /\
    Surface.local_url info' = Surface.local_url info /\
    Surface.ws_url info' = Surface.ws_url info.
Proof.
  intros [state Hs] Hnot.
  eexists. eexists. eexists.
  split; [by eapply register_ws_client_run|].
  split; [by apply get_surface_info_some|].
  split; [by apply get_surface_info_some|].
  cbn. rewrite lookup_insert_eq. cbn.
  split; [done|]. split; [|done].
  rewrite size_union by set_solver. rewrite size_singleton. lia.
Qed.

(** X15. Right after [create_surface] the info of the new surface shows the
    id, the name, the size and the URLs that the call returned, and no
    connected client. *)
Theorem create_then_info (new_id : string) (nm : option string)
    (sz : size_arg) (cs : CanvasSize) (st : CanvasManager) :
  resolve_size config sz = Ok cs ->
  exists st' surf info,
    create_surface w config new_id nm sz st = (Ok surf, st') /\
    get_surface_info config new_id st' = Some info /\
    Surface.surface_id info = Surface.surface_id surf /\
    Surface.name info = Surface.name surf /\
    Surface.size info = Surface.size surf /\
    Surface.local_url info = Surface.local_url surf /\
    Surface.ws_url info = Surface.ws_url surf /\
    Surface.connected_clients info = 0%nat.
Proof.
  intros Hsz. unfold create_surface.
  destruct (_get_surface_urls config new_id) as [local_url ws_url] eqn:Hurls.
  rewrite Hsz.
  do 5 (erewrite bind_ok by reflexivity).
  erewrite bind_ok by apply _persist_surface_exact.
  erewrite bind_ok by reflexivity.
  eexists. eexists. eexists. split; [reflexivity|].
  split.
  { apply get_surface_info_some.
    cbn [datetime_now modify fst snd clock persistence_enabled _surfaces _ws_clients
         files log set_clock set_surfaces set_ws_clients set_files set_log].
    rewrite lookup_insert_eq.
    destruct (persistence_enabled st); [rewrite after_write_surfaces|]; cbn;
      apply lookup_insert_eq. }
  cbn [Surface.surface_id Surface.name Surface.size Surface.local_url Surface.ws_url
       Surface.connected_clients surface_id name size].
  rewrite Hurls. do 5 (split; [reflexivity|]).
  cbn [datetime_now modify fst snd clock persistence_enabled _surfaces _ws_clients
       files log set_clock set_surfaces set_ws_clients set_files set_log].
  rewrite lookup_insert_eq.
  destruct (persistence_enabled st); [rewrite after_write_ws_clients|]; cbn;
    rewrite lookup_insert_eq; cbn; apply size_empty.
Qed.

End ManagerMoreFacts.


(** [create_surface_spec] with the preset named ["phone"], on the example. *)
Lemma create_surface_spec_witness :
  exists st' surf,
    create_surface Example.w0
      {| host := "0.0.0.0"; port := 8080; default_size := from_preset TV_1080P |}
      "abc123" (Some "demo") (SizeName "phone") Example.st0 = (Ok surf, st') /\
    Surface.surface_id surf = "abc123".
Proof.
  destruct (create_surface_spec Example.w0
              {| host := "0.0.0.0"; port := 8080; default_size := from_preset TV_1080P |}
              "abc123" (Some "demo") (SizeName "phone")
              (from_preset PHONE_PORTRAIT) Example.st0)
    as (st' & surf & state & Hrun & Hid & _).
  - reflexivity.
  - exists st', surf. split; [exact Hrun | exact Hid].
Defined.


(** [create_surface_unknown_preset] with the name ["cinema"]. *)
Lemma create_surface_unknown_preset_witness :
  exists msg,
    create_surface Example.w0
      {| host := "::1"; port := 80; default_size := from_preset AUTO |}
      "abc123" None (SizeName "cinema") Example.st0
    = (Raise (ValueError msg), Example.st0).
Proof.
  apply (create_surface_unknown_preset Example.w0
           {| host := "::1"; port := 80; default_size := from_preset AUTO |}
           "abc123" None "cinema" Example.st0).
  intros q. destruct q; discriminate.
Defined.

(** [connected_clients_counts] for a fourth handle on the example. *)
Lemma connected_clients_counts_witness :
  exists st' info',
    register_ws_client "s1" 4%nat Example.st0 = (Ok true, st') /\
    get_surface_info
      {| host := "0.0.0.0"; port := 8080; default_size := from_preset TV_1080P |}
      "s1" st' = Some info' /\
    Surface.connected_clients info' = 4%nat.
Proof.
  destruct (connected_clients_counts
              {| host := "0.0.0.0"; port := 8080; default_size := from_preset TV_1080P |}
              "s1" 4%nat Example.st0)
    as (st' & info & info' & Hreg & Hinfo & Hinfo' & Hn & Hn' & _).
  - eexists. reflexivity.
  - vm_compute. set_solver.
  - exists st', info'. split; [exact Hreg|]. split; [exact Hinfo'|].
    rewrite Hn', Hn. reflexivity.
Defined.

(** [create_then_info] with the default size, on the example. *)
Lemma create_then_info_witness :
  exists st' surf info,
    create_surface Example.w0
      {| host := "0.0.0.0"; port := 8080; default_size := from_preset TV_1080P |}
      "abc123" None SizeNone Example.st0 = (Ok surf, st') /\
    get_surface_info
      {| host := "0.0.0.0"; port := 8080; default_size := from_preset TV_1080P |}
      "abc123" st' = Some info /\
    Surface.connected_clients info = 0%nat.
Proof.
  destruct (create_then_info Example.w0
              {| host := "0.0.0.0"; port := 8080; default_size := from_preset TV_1080P |}
              "abc123" None SizeNone (from_preset TV_1080P) Example.st0)
    as (st' & surf & info & Hrun & Hinfo & _ & _ & _ & _ & _ & Hn).
  - reflexivity.
  - exists st', surf, info. auto.
Defined.

(** ** Updates: order of effects, persistence, failures, other surfaces *)

Section UpdateFacts.

Variable w : World.

(** The common end of the two updates: persist, broadcast, return. *)
Lemma persist_then_broadcast (sid : string) (m : message) (st : CanvasManager)
    (state : SurfaceState) :
  _surfaces st !! sid = Some state ->
  let subscribers := default ∅ (_ws_clients st !! sid) in
  let writes := if persistence_enabled st
                then [EvWrite sid (disk_ok w (length (log st)))] else [] in
  let sends := imap (fun i c => EvSend c m
                                  (send_ok w c (length (log st ++ writes) + i)))
                    (elements subscribers) in
  exists st',
    (_persist_surface w sid ;;; _broadcast_to_surface w sid m ;;; ret true) st
    = (Ok true, st') /\
    _surfaces st' = _surfaces st /\
    clock st' = clock st /\
    persistence_enabled st' = persistence_enabled st /\
    log st' = log st ++ writes ++ sends /\
    files st' = (if persistence_enabled st
                 then files (after_write w sid state st) else files st) /\
    (forall c, c ∈ default ∅ (_ws_clients st' !! sid) <->
               c ∈ subscribers /\ ~ In (EvSend c m false) sends) /\
    (forall sid', sid' <> sid -> _ws_clients st' !! sid' = _ws_clients st !! sid').
Proof.
  intros Hs subscribers writes sends.
  erewrite bind_ok by apply _persist_surface_exact.
  rewrite Hs.
  set (st1 := if persistence_enabled st then _ else st).
  assert (H1 : _surfaces st1 = _surfaces st /\ clock st1 = clock st /\
               persistence_enabled st1 = persistence_enabled st /\
               _ws_clients st1 = _ws_clients st /\
               log st1 = log st ++ writes /\
               files st1 = (if persistence_enabled st
                            then files (after_write w sid state st) else files st)).
  { subst st1 writes. destruct (persistence_enabled st) eqn:Hp.
    - rewrite after_write_surfaces, after_write_clock, after_write_enabled,
        after_write_ws_clients, after_write_log. done.
    - by rewrite app_nil_r. }
  destruct H1 as (Hsurf & Hclock & Hpe & Hws & Hlog & Hfiles).
  destruct (_broadcast_to_surface_run w sid m st1) as (remaining & Hb & Hrem & Hcase).
  rewrite Hws in Hb, Hrem, Hcase. rewrite Hlog in Hb, Hrem.
  fold subscribers in Hb, Hrem, Hcase.
  fold sends in Hb, Hrem.
  erewrite bind_ok by exact Hb.
  eexists. split; [reflexivity|]. cbn. rewrite <- app_assoc.
  do 5 (split; [done|]). split.
  - intros c. rewrite <- Hrem.
    destruct (bool_decide (subscribers = ∅)) eqn:E.
    + subst remaining. apply bool_decide_eq_true in E. fold subscribers. by rewrite E.
    + by rewrite lookup_insert_eq.
  - intros sid' Hne. destruct (bool_decide (subscribers = ∅)); [done|].
    by rewrite lookup_insert_ne.
Qed.

(** X16. A patch that [_set_json_pointer] accepts returns [True], whatever
    the disk and the channels do, and its effects come in this order: the
    surface gets the new data model and the time of the call as
    [updated_at]; it is written to disk when persistence is on; then every
    subscriber is sent [updateDataModel] with the path as the caller wrote
    it. After a write that went through, the file loads as the new state
    does after a dump and a load (its infinities and NaNs read as [null]),
    or as no record if a component is not a mapping; after a write that
    failed, the file is as it was if [open] failed and loads as no record
    if it failed later. *)
Theorem update_data_model_success (sid path : string) (value : json)
    (st : CanvasManager) (state : SurfaceState) (dm : list (string * json)) :
  _surfaces st !! sid = Some state ->
  _set_json_pointer (data_model state) path value = (dm, None) ->
  let state' := set_updated_at (clock st) (set_data_model dm state) in
  let writes := if persistence_enabled st
                then [EvWrite sid (disk_ok w (length (log st)))] else [] in
  let sends := imap (fun i c => EvSend c (updateDataModel path value)
                                  (send_ok w c (length (log st ++ writes) + i)))
                    (elements (default ∅ (_ws_clients st !! sid))) in
  exists st',
    update_data_model w sid path value st = (Ok true, st') /\
    _surfaces st' = <[sid := state']> (_surfaces st) /\
    log st' = log st ++ writes ++ sends /\
    files st' =
      (if negb (persistence_enabled st) then files st
       else if disk_ok w (length (log st)) then
         match reload_state state' with
         | Some record => <[sid := record]> (files st)
         | None => delete sid (files st)
         end
       else if truncates w (length (log st)) then delete sid (files st)
       else files st) /\
    clock st' = clock st + 1.
Proof.
  intros Hs Hset state' writes sends.
  unfold update_data_model. rewrite bind_get_self, Hs, Hset.
  erewrite bind_ok by reflexivity.
  erewrite bind_ok by reflexivity.
  erewrite bind_ok by reflexivity.
  cbn [_surfaces set_surfaces set_clock]. rewrite insert_insert_eq. fold state'.
  set (st1 := set_surfaces (<[sid := state']> (_surfaces st))
                (set_clock (clock st + 1)
                   (set_surfaces (<[sid := set_data_model dm state]> (_surfaces st)) st))).
  destruct (persist_then_broadcast sid (updateDataModel path value) st1 state')
    as (st' & Hrun & Hsurf & Hclock & _ & Hlog & Hfiles & _).
  { subst st1. cbn. apply lookup_insert_eq. }
  exists st'. split; [exact Hrun|]. rewrite Hsurf, Hlog, Hfiles, Hclock.
  do 2 (split; [done|]). split; [|done].
  subst st1. cbn [persistence_enabled set_surfaces set_clock].
  destruct (persistence_enabled st); [|done]. by rewrite after_write_files.
Qed.

(** X17. [update_components] on a surface that exists has its effects in
    the same order: the surface gets the new list and the time of the call,
    it is written to disk when persistence is on, then every subscriber is
    sent [updateComponents] with the new list; a disk or a channel that
    fails does not stop it. The file afterwards loads as the new state does
    after a dump and a load, or as no record if a component of the new
    list is not a mapping or if the write failed after truncating; it is as
    it was if [open] failed. *)
Theorem update_components_effects (sid : string) (comps : list json)
    (st : CanvasManager) (state : SurfaceState) :
  _surfaces st !! sid = Some state ->
  let state' := set_updated_at (clock st) (set_components comps state) in
  let writes := if persistence_enabled st
                then [EvWrite sid (disk_ok w (length (log st)))] else [] in
  let sends := imap (fun i c => EvSend c (updateComponents comps)
                                  (send_ok w c (length (log st ++ writes) + i)))
                    (elements (default ∅ (_ws_clients st !! sid))) in
  exists st',
    update_components w sid comps st = (Ok true, st') /\
    log st' = log st ++ writes ++ sends /\
    files st' =
      (if negb (persistence_enabled st) then files st
       else if disk_ok w (length (log st)) then
         if forallb is_mapping comps
         then <[sid := set_data_model (dict_reload (data_model state))
                         (set_components (map json_reload comps) state')]> (files st)
         else delete sid (files st)
       else if truncates w (length (log st)) then delete sid (files st)
       else files st) /\
    (forall c, c ∈ default ∅ (_ws_clients st' !! sid) <->
               c ∈ default ∅ (_ws_clients st !! sid) /\
               ~ In (EvSend c (updateComponents comps) false) sends).
Proof.
  intros Hs state' writes sends.
  unfold update_components. rewrite bind_get_self, Hs.
  erewrite bind_ok by reflexivity.
  erewrite bind_ok by reflexivity.
  fold state'.
  set (st1 := set_surfaces (<[sid := state']> (_surfaces st))
                (set_clock (clock st + 1) st)).
  destruct (persist_then_broadcast sid (updateComponents comps) st1 state')
    as (st' & Hrun & _ & _ & _ & Hlog & Hfiles & Hsubs & _).
  { subst st1. cbn. apply lookup_insert_eq. }
  exists st'. split; [exact Hrun|]. rewrite Hlog, Hfiles.
  split; [done|]. split; [|done].
  subst st1. cbn [persistence_enabled set_surfaces set_clock].
  destruct (persistence_enabled st); [|done]. rewrite after_write_files.
  unfold files_after_write.
  cbn [log set_surfaces set_clock files]. unfold reload_state.
  cbn [components data_model state' set_updated_at set_components].
  by destruct (forallb is_mapping comps).
Qed.

End UpdateFacts.

(** [update_data_model_success] at ["/user/name"], on the example. *)
Lemma update_data_model_success_witness :
  exists st',
    update_data_model Example.w0 "s1" "/user/name" (JStr "ada") Example.st0
    = (Ok true, st') /\
    clock st' = clock Example.st0 + 1.
Proof.
  destruct (update_data_model_success Example.w0 "s1" "/user/name" (JStr "ada")
              Example.st0 Example.s0
              [("msg", JStr "hi");
               ("user", JDict [("age", JInt 30); ("name", JStr "ada")])])
    as (st' & Hrun & _ & _ & _ & Hclock).
  - reflexivity.
  - reflexivity.
  - exists st'. split; [exact Hrun | exact Hclock].
Defined.

(** [update_components_effects] with an empty list, on the example. *)
Lemma update_components_effects_witness :
  exists st',
    update_components Example.w0 "s1" [] Example.st0 = (Ok true, st') /\
    length (log st') = 4%nat.
Proof.
  destruct (update_components_effects Example.w0 "s1" [] Example.st0 Example.s0)
    as (st' & Hrun & Hlog & _).
  - reflexivity.
  - exists st'. split; [exact Hrun|]. rewrite Hlog. reflexivity.
Defined.


(** ** Closing, failing, and the surfaces next door *)

Section CloseFacts.

Variable w : World.

Lemma _delete_persisted_surface_exact (sid : string) (st : CanvasManager) :
  _delete_persisted_surface w sid st =
  (Ok tt,
   if persistence_enabled st && file_exists sid st
   then after_unlink w sid st else st).
Proof.
  unfold _delete_persisted_surface, after_unlink. rewrite bind_get_self.
  destruct (persistence_enabled st); [|reflexivity]. cbn [negb andb].
  destruct (file_exists sid st); [|reflexivity]. cbn [negb].
  unfold bind, emit, modify, ret. by destruct (disk_ok w (length (log st))).
Qed.

Lemma file_exists_false (sid : string) (st : CanvasManager) :
  file_exists sid st = false -> files st !! sid = None.
Proof.
  unfold file_exists. intros H. apply orb_false_iff in H as [H _].
  apply bool_decide_eq_false in H. by apply eq_None_not_Some.
Qed.

Lemma after_unlink_frame (sid : string) (st : CanvasManager) :
  persistence_enabled (after_unlink w sid st) = persistence_enabled st /\
  _surfaces (after_unlink w sid st) = _surfaces st /\
  _ws_clients (after_unlink w sid st) = _ws_clients st /\
  clock (after_unlink w sid st) = clock st /\
  log (after_unlink w sid st)
  = log st ++ [EvUnlink sid (disk_ok w (length (log st)))] /\
  files (after_unlink w sid st)
  = (if disk_ok w (length (log st)) then delete sid (files st) else files st).
Proof.
  unfold after_unlink. cbv zeta. by destruct (disk_ok w (length (log st))).
Qed.

Lemma Forall_imap_sends (sid : string) (subs : gset nat) (m : message) (n : nat) :
  Forall (event_on sid subs)
         (imap (fun i c => EvSend c m (send_ok w c (n + i))) (elements subs)).
Proof.
  apply Forall_forall. intros e He.
  apply list_elem_of_lookup in He as [i He].
  rewrite list_lookup_imap in He.
  destruct (elements subs !! i) as [c|] eqn:Ei; [|discriminate].
  injection He as <-. cbn. apply elem_of_elements, list_elem_of_lookup. eauto.
Qed.

Lemma Forall_imap_closes (sid : string) (subs remaining : gset nat) (n : nat) :
  remaining ⊆ subs ->
  Forall (event_on sid subs)
         (imap (fun i c => EvClose c (close_ok w c (n + i))) (elements remaining)).
Proof.
  intros Hsub. apply Forall_forall. intros e He.
  apply list_elem_of_lookup in He as [i He].
  rewrite list_lookup_imap in He.
  destruct (elements remaining !! i) as [c|] eqn:Ei; [|discriminate].
  injection He as <-. cbn. apply Hsub, elem_of_elements, list_elem_of_lookup. eauto.
Qed.

(** What closing a surface that exists leaves behind. *)
Lemma close_surface_effects (sid : string) (st : CanvasManager) (state : SurfaceState) :
  _surfaces st !! sid = Some state ->
  exists (st' : CanvasManager) (evs : list event),
    close_surface w sid st = (Ok true, st') /\
    log st' = log st ++ evs /\
    Forall (event_on sid (default ∅ (_ws_clients st !! sid))) evs /\
    _ws_clients st' = delete sid (_ws_clients st) /\
    _surfaces st' = delete sid (_surfaces st) /\
    (files st' = files st \/ files st' = delete sid (files st)) /\
    (persistence_enabled st = true -> (forall t, disk_ok w t = true) ->
     files st' = delete sid (files st)) /\
    persistence_enabled st' = persistence_enabled st.
Proof.
  intros Hs. set (subs := default ∅ (_ws_clients st !! sid)).
  unfold close_surface. rewrite bind_get_self, Hs.
  destruct (_broadcast_to_surface_run w sid (deleteSurface sid) st)
    as (remaining & Hb & Hrem & Hcase).
  fold subs in Hb, Hrem, Hcase.
  set (sends := imap (fun i c => EvSend c (deleteSurface sid)
                                   (send_ok w c (length (log st) + i)))
                     (elements subs)) in *.
  set (ws1 := if bool_decide (subs = ∅) then _ws_clients st
              else <[sid := remaining]> (_ws_clients st)) in Hb.
  set (st1 := set_ws_clients ws1 (set_log (log st ++ sends) st)) in Hb.
  assert (Hdef : default ∅ (_ws_clients st1 !! sid) = remaining).
  { subst st1 ws1. cbn. destruct (bool_decide (subs = ∅)) eqn:E.
    - apply bool_decide_eq_true in E. fold subs. by rewrite E, Hcase.
    - by rewrite lookup_insert_eq. }
  assert (Hdel : delete sid (_ws_clients st1) = delete sid (_ws_clients st)).
  { subst st1 ws1. cbn. destruct (bool_decide (subs = ∅)); [done|].
    by rewrite delete_insert_eq. }
  set (closes := imap (fun i c => EvClose c
                         (close_ok w c (length ((log st ++ sends) ++ [EvDropClients sid]) + i)))
                      (elements remaining)).
  set (st4 := set_surfaces (delete sid (_surfaces st))
                (set_ws_clients (delete sid (_ws_clients st))
                   (set_log ((((log st ++ sends) ++ [EvDropClients sid]) ++ closes)
                             ++ [EvDropSurface sid]) st))).
  pose proof (_delete_persisted_surface_exact sid st4) as Hu.
  set (st5 := if persistence_enabled st4 && file_exists sid st4 then _ else st4) in Hu.
  exists st5.
  exists (sends ++ [EvDropClients sid] ++ closes ++ [EvDropSurface sid] ++
          drop (length (log st4)) (log st5)).
  assert (Hsub : remaining ⊆ subs) by (intros c Hc; by apply Hrem in Hc as [? _]).
  assert (H5 : log st5 = log st4 ++ drop (length (log st4)) (log st5) /\
               Forall (event_on sid subs) (drop (length (log st4)) (log st5)) /\
               _ws_clients st5 = _ws_clients st4 /\ _surfaces st5 = _surfaces st4 /\
               (files st5 = files st \/ files st5 = delete sid (files st)) /\
               (persistence_enabled st = true -> (forall t, disk_ok w t = true) ->
                files st5 = delete sid (files st)) /\
               persistence_enabled st5 = persistence_enabled st).
  { subst st5. change (persistence_enabled st4) with (persistence_enabled st).
    destruct (persistence_enabled st) eqn:Hp; cbn [andb].
    - destruct (file_exists sid st4) eqn:Hf.
      + destruct (after_unlink_frame sid st4) as (Hpe & Hsu & Hwc & _ & Hlg & Hfs).
        rewrite Hpe, Hsu, Hwc, Hlg, Hfs, drop_app_length.
        change (files st4) with (files st).
        change (persistence_enabled st4) with (persistence_enabled st).
        split; [done|]. split; [by repeat constructor|].
        do 2 (split; [done|]). split.
        * destruct (disk_ok w (length (log st4))); auto.
        * split; [|done]. intros _ Hok. by rewrite Hok.
      + rewrite drop_all, app_nil_r. repeat split; auto.
        intros _ _. change (files st4) with (files st). symmetry.
        apply delete_id. by apply (file_exists_false sid st4).
    - rewrite drop_all, app_nil_r. repeat split; auto. discriminate. }
  destruct H5 as (Hlog5 & Hev5 & Hws5 & Hsurf5 & Hfiles5 & Hfiles5' & Hpe5).
  split.
  { erewrite bind_ok by exact Hb.
    rewrite bind_get_self, Hdef, Hdel.
    do 2 (erewrite bind_ok by reflexivity).
    erewrite bind_ok by apply close_all_run.
    do 2 (erewrite bind_ok by reflexivity).
    erewrite bind_ok by exact Hu.
    reflexivity. }
  split.
  { remember (drop (length (log st4)) (log st5)) as tail eqn:Htail.
    rewrite Hlog5. clear Htail.
    change (log st4) with ((((log st ++ sends) ++ [EvDropClients sid]) ++ closes)
                          ++ [EvDropSurface sid]).
    by rewrite <- !app_assoc. }
  split.
  { apply Forall_app. split; [apply Forall_imap_sends|].
    apply Forall_cons. split; [done|].
    apply Forall_app. split; [by apply Forall_imap_closes|].
    apply Forall_cons. split; [done|]. exact Hev5. }
  rewrite Hws5, Hsurf5. done.
Qed.

Lemma Forall_event_on_writes (sid : string) (subs : gset nat) (b ok : bool) :
  Forall (event_on sid subs) (if b then [EvWrite sid ok] else []).
Proof. destruct b; by repeat constructor. Qed.

(** What the end of an update leaves alone. *)
Lemma persist_then_broadcast_frame (sid : string) (m : message) (st : CanvasManager)
    (state : SurfaceState) :
  _surfaces st !! sid = Some state ->
  exists st' evs,
    (_persist_surface w sid ;;; _broadcast_to_surface w sid m ;;; ret true) st
    = (Ok true, st') /\
    log st' = log st ++ evs /\
    Forall (event_on sid (default ∅ (_ws_clients st !! sid))) evs /\
    _surfaces st' = _surfaces st /\
    (forall sid', sid' <> sid ->
       _ws_clients st' !! sid' = _ws_clients st !! sid' /\
       files st' !! sid' = files st !! sid').
Proof.
  intros Hs.
  destruct (persist_then_broadcast w sid m st state Hs)
    as (st' & Hrun & Hsurf & _ & _ & Hlog & Hfiles & _ & Hws).
  eexists st', _. split; [exact Hrun|]. split; [exact Hlog|].
  split; [|split; [exact Hsurf|]].
  - apply Forall_app. split; [apply Forall_event_on_writes | apply Forall_imap_sends].
  - intros sid' Hne. split; [by apply Hws|]. rewrite Hfiles.
    destruct (persistence_enabled st); [|done].
    by apply after_write_frame.
Qed.

Lemma update_components_outcome (sid : string) (comps : list json) (st : CanvasManager) :
  (_surfaces st !! sid = None /\
   update_components w sid comps st = (Raise (SurfaceNotFoundError sid), st)) \/
  (exists st' evs,
     update_components w sid comps st = (Ok true, st') /\
     log st' = log st ++ evs /\
     Forall (event_on sid (default ∅ (_ws_clients st !! sid))) evs /\
     (forall sid', sid' <> sid ->
        _surfaces st' !! sid' = _surfaces st !! sid' /\
        _ws_clients st' !! sid' = _ws_clients st !! sid' /\
        files st' !! sid' = files st !! sid')).
Proof.
  unfold update_components. rewrite bind_get_self.
  destruct (_surfaces st !! sid) as [state|] eqn:Hs; [right | by left].
  do 2 (erewrite bind_ok by reflexivity).
  set (state' := set_updated_at (clock st) (set_components comps state)).
  set (st1 := set_surfaces (<[sid := state']> (_surfaces st))
                (set_clock (clock st + 1) st)).
  destruct (persist_then_broadcast_frame sid (updateComponents comps) st1 state')
    as (st' & evs & Hrun & Hlog & Hev & Hsurf & Hframe).
  { subst st1. cbn. apply lookup_insert_eq. }
  exists st', evs. split; [exact Hrun|]. split; [exact Hlog|]. split; [exact Hev|].
  intros sid' Hne. rewrite Hsurf. destruct (Hframe sid' Hne) as [Hw Hf].
  split; [subst st1; cbn; by rewrite lookup_insert_ne | by split].
Qed.

Lemma update_data_model_outcome (sid path : string) (value : json) (st : CanvasManager) :
  (exists e,
     update_data_model w sid path value st = (Raise e, st) /\
     (e = SurfaceNotFoundError sid \/ e = InvalidPathError \/ e = TypeError)) \/
  (exists st' evs,
     update_data_model w sid path value st = (Ok true, st') /\
     log st' = log st ++ evs /\
     Forall (event_on sid (default ∅ (_ws_clients st !! sid))) evs /\
     (forall sid', sid' <> sid ->
        _surfaces st' !! sid' = _surfaces st !! sid' /\
        _ws_clients st' !! sid' = _ws_clients st !! sid' /\
        files st' !! sid' = files st !! sid')).
Proof.
  unfold update_data_model. rewrite bind_get_self.
  destruct (_surfaces st !! sid) as [state|] eqn:Hs; [|left; eauto].
  destruct (_set_json_pointer (data_model state) path value) as [dm [e|]] eqn:Hset.
  - left. exists e. apply _set_json_pointer_error in Hset as [-> Hcases]. split.
    + unfold bind, modify, raise. rewrite set_data_model_id, insert_id by done.
      by rewrite set_surfaces_id.
    + destruct Hcases as [[_ ->]|(_ & _ & ->)]; auto.
  - right. do 3 (erewrite bind_ok by reflexivity).
    cbn [_surfaces set_surfaces set_clock]. rewrite insert_insert_eq.
    set (state' := set_updated_at (clock st) (set_data_model dm state)).
    set (st1 := set_surfaces (<[sid := state']> (_surfaces st))
                  (set_clock (clock st + 1)
                     (set_surfaces (<[sid := set_data_model dm state]> (_surfaces st)) st))).
    destruct (persist_then_broadcast_frame sid (updateDataModel path value) st1 state')
      as (st' & evs & Hrun & Hlog & Hev & Hsurf & Hframe).
    { subst st1. cbn. apply lookup_insert_eq. }
    exists st', evs. split; [exact Hrun|]. split; [exact Hlog|]. split; [exact Hev|].
    intros sid' Hne. rewrite Hsurf. destruct (Hframe sid' Hne) as [Hw Hf].
    split; [subst st1; cbn; by rewrite lookup_insert_ne | by split].
Qed.

Lemma close_surface_outcome (sid : string) (st : CanvasManager) :
  (_surfaces st !! sid = None /\
   close_surface w sid st = (Raise (SurfaceNotFoundError sid), st)) \/
  (exists st' evs,
     close_surface w sid st = (Ok true, st') /\
     log st' = log st ++ evs /\
     Forall (event_on sid (default ∅ (_ws_clients st !! sid))) evs /\
     (forall sid', sid' <> sid ->
        _surfaces st' !! sid' = _surfaces st !! sid' /\
        _ws_clients st' !! sid' = _ws_clients st !! sid' /\
        files st' !! sid' = files st !! sid')).
Proof.
  destruct (_surfaces st !! sid) as [state|] eqn:Hs.
  - right. destruct (close_surface_effects sid st state Hs)
      as (st' & evs & Hrun & Hlog & Hev & Hws & Hsurf & Hfiles & _ & _).
    exists st', evs. do 3 (split; [done|]).
    intros sid' Hne. rewrite Hws, Hsurf, !lookup_delete_ne by done.
    do 2 (split; [done|]).
    destruct Hfiles as [->| ->]; [done | by rewrite lookup_delete_ne].
  - left. split; [done|]. unfold close_surface. by rewrite bind_get_self, Hs.
Qed.

(** X18. An operation that raises has changed nothing. [update_components]
    and [close_surface] raise only [SurfaceNotFoundError], and only when the
    id is not in the store; [update_data_model] raises that error, or
    [InvalidPathError], or the [TypeError] of a walk through a value that
    is not a mapping; in every case the manager is as it was. *)
Theorem raising_operation_changes_nothing (sid path : string) (comps : list json)
    (value : json) (st : CanvasManager) (e : exn) :
  (fst (update_components w sid comps st) = Raise e ->
   update_components w sid comps st = (Raise e, st) /\
   e = SurfaceNotFoundError sid /\ _surfaces st !! sid = None) /\
  (fst (update_data_model w sid path value st) = Raise e ->
   update_data_model w sid path value st = (Raise e, st) /\
   (e = SurfaceNotFoundError sid \/ e = InvalidPathError \/ e = TypeError)) /\
  (fst (close_surface w sid st) = Raise e ->
   close_surface w sid st = (Raise e, st) /\
   e = SurfaceNotFoundError sid /\ _surfaces st !! sid = None).
Proof.
  split; [|split].
  - destruct (update_components_outcome sid comps st)
      as [[Hs ->]|(st' & evs & -> & _)]; [|discriminate].
    cbn. by intros [= <-].
  - destruct (update_data_model_outcome sid path value st)
      as [(e' & -> & He')|(st' & evs & -> & _)]; [|discriminate].
    cbn. by intros [= <-].
  - destruct (close_surface_outcome sid st)
      as [[Hs ->]|(st' & evs & -> & _)]; [|discriminate].
    cbn. by intros [= <-].
Qed.

(** X19. Each of the three mutating operations stays on its surface: every
    channel it sends on or closes belongs to a subscriber of that surface,
    every file it writes or unlinks is the surface's, and the other
    surfaces keep their state, their subscribers and their files. *)
Theorem mutations_stay_on_their_surface (sid path : string) (comps : list json)
    (value : json) (st : CanvasManager) :
  let subs := default ∅ (_ws_clients st !! sid) in
  let local (st' : CanvasManager) :=
    (exists evs, log st' = log st ++ evs /\ Forall (event_on sid subs) evs) /\
    (forall sid', sid' <> sid ->
       _surfaces st' !! sid' = _surfaces st !! sid' /\
       _ws_clients st' !! sid' = _ws_clients st !! sid' /\
       files st' !! sid' = files st !! sid') in
  local (snd (update_components w sid comps st)) /\
  local (snd (update_data_model w sid path value st)) /\
  local (snd (close_surface w sid st)).
Proof.
  intros subs local.
  assert (Hsame : local st).
  { split; [exists []; by rewrite app_nil_r | done]. }
  split; [|split].
  - destruct (update_components_outcome sid comps st)
      as [[Hs ->]|(st' & evs & -> & Hlog & Hev & Hframe)]; [exact Hsame|].
    split; [by exists evs | exact Hframe].
  - destruct (update_data_model_outcome sid path value st)
      as [(e' & -> & He')|(st' & evs & -> & Hlog & Hev & Hframe)]; [exact Hsame|].
    split; [by exists evs | exact Hframe].
  - destruct (close_surface_outcome sid st)
      as [[Hs ->]|(st' & evs & -> & Hlog & Hev & Hframe)]; [exact Hsame|].
    split; [by exists evs | exact Hframe].
Qed.

End CloseFacts.


(** [raising_operation_changes_nothing] has hypotheses only inside its
    conclusion; here is its second part on the example, under a string. *)
Lemma raising_operation_changes_nothing_witness :
  update_data_model Example.w0 "s1" "/msg/x" (JInt 1) Example.st0
  = (Raise TypeError, Example.st0).
Proof.
  apply (raising_operation_changes_nothing Example.w0 "s1" "/msg/x" []
           (JInt 1) Example.st0 TypeError).
  vm_compute. reflexivity.
Defined.

(** ** A surface created and closed; a replay cut short *)

Lemma bind_raise' {A B} (m : M A) (k : A -> M B) (st st' : CanvasManager) (e : exn) :
  m st = (Raise e, st') -> bind m k st = (Raise e, st').
Proof. unfold bind. by intros ->. Qed.

Section LifeCycleFacts.

Variable w : World.
Variable config : CanvasConfig.


Lemma send_seq_app (ws : nat) (l1 l2 : list message) (st : CanvasManager) :
  send_seq w ws (l1 ++ l2) st = (send_seq w ws l1 ;;; send_seq w ws l2) st.
Proof.
  revert st. induction l1 as [|m r IH]; intros st; [reflexivity|].
  cbn [app send_seq]. unfold bind.
  destruct (send_str w ws m st) as [[[]|e] st1]; [|reflexivity].
  rewrite IH. reflexivity.
Qed.

Lemma send_leaves_as_seq (ws : nat) (leaves : list (string * json)) (st : CanvasManager) :
  send_leaves w ws leaves st =
  send_seq w ws (map (fun leaf => updateDataModel (fst leaf) (snd leaf)) leaves) st.
Proof.
  revert st. induction leaves as [|[p v] r IH]; intros st; [reflexivity|].
  cbn [map send_seq send_leaves fst snd]. unfold bind.
  destruct (send_str w ws (updateDataModel p v) st) as [[[]|e] st1]; [|reflexivity].
  apply IH.
Qed.

Lemma send_initial_state_as_seq (sid : string) (ws : nat) (st : CanvasManager)
    (state : SurfaceState) :
  _surfaces st !! sid = Some state ->
  send_initial_state w sid ws st = send_seq w ws (join_replay state) st.
Proof.
  intros Hs. unfold send_initial_state. rewrite bind_get_self, Hs.
  unfold join_replay, to_create_message, to_components_message.
  assert (Hdm : forall st',
             match data_model state with
             | [] => ret tt
             | _ :: _ => send_leaves w ws (_flatten_data_model (data_model state) "")
             end st' =
             send_seq w ws (map (fun leaf => updateDataModel (fst leaf) (snd leaf))
                              (_flatten_data_model (data_model state) "")) st').
  { intros st'. rewrite <- send_leaves_as_seq. by destruct (data_model state). }
  destruct (components state) as [|comp comps'].
  - cbn [app send_seq]. unfold bind.
    destruct (send_str w ws (createSurface (surface_id state) "standard") st)
      as [[[]|e] st1]; [|reflexivity].
    unfold ret. apply Hdm.
  - cbn [app send_seq]. unfold bind.
    destruct (send_str w ws (createSurface (surface_id state) "standard") st)
      as [[[]|e] st1]; [|reflexivity].
    destruct (send_str w ws (updateComponents (comp :: comps')) st1)
      as [[[]|e] st2]; [|reflexivity].
    apply Hdm.
Qed.

Lemma send_seq_fails (ws : nat) (msgs : list message) (k : nat) (st : CanvasManager) :
  (k < length msgs)%nat ->
  (forall i, (i < k)%nat -> send_ok w ws (length (log st) + i) = true) ->
  send_ok w ws (length (log st) + k) = false ->
  send_seq w ws msgs st =
  (Raise ChannelError,
   set_log (log st ++
            take (S k) (imap (fun i m => EvSend ws m (send_ok w ws (length (log st) + i)))
                             msgs)) st).
Proof.
  revert k st. induction msgs as [|m r IH]; intros k st Hk Hok Hfail; [cbn in Hk; lia|].
  cbn [send_seq]. rewrite imap_cons. cbn [take].
  replace (length (log st) + 0)%nat with (length (log st)) by lia.
  destruct k as [|k].
  - replace (length (log st) + 0)%nat with (length (log st)) in Hfail by lia.
    erewrite bind_raise'; [|rewrite send_str_run, Hfail; reflexivity].
    by rewrite take_0, Hfail.
  - assert (H0 : send_ok w ws (length (log st)) = true).
    { rewrite <- (Hok O) by lia. f_equal. lia. }
    erewrite bind_ok; [|rewrite send_str_run, H0; reflexivity].
    rewrite (IH k).
    + cbn [log set_log]. rewrite set_log_set_log, <- app_assoc. cbn [app].
      rewrite H0. do 2 f_equal.
      assert (Himap : forall n,
                take n (imap (fun i m0 => EvSend ws m0
                          (send_ok w ws (length (log st ++ [EvSend ws m true]) + i))) r)
                = take n (imap ((fun i m0 => EvSend ws m0
                          (send_ok w ws (length (log st) + i))) ∘ S) r)).
      { intros n. f_equal. apply imap_ext. intros i x _. unfold compose.
        rewrite length_app. cbn [length]. do 2 f_equal. lia. }
      by rewrite Himap.
    + cbn in Hk. lia.
    + intros i Hi. cbn [log set_log]. rewrite length_app. cbn [length].
      rewrite <- (Hok (S i)) by lia. f_equal. lia.
    + cbn [log set_log]. rewrite length_app. cbn [length].
      rewrite <- Hfail. f_equal. lia.
Qed.

(** X21. The replay stops at the first send that fails: when the sends
    before the one of rank [k] go through and that one fails,
    [send_initial_state] raises the channel's error, the messages up to and
    including that one have been attempted, and none after it. *)
Theorem send_initial_state_stops_at_failure (sid : string) (ws : nat)
    (st : CanvasManager) (state : SurfaceState) (k : nat) :
  _surfaces st !! sid = Some state ->
  (k < length (join_replay state))%nat ->
  (forall i, (i < k)%nat -> send_ok w ws (length (log st) + i) = true) ->
  send_ok w ws (length (log st) + k) = false ->
  send_initial_state w sid ws st =
  (Raise ChannelError,
   set_log (log st ++
            take (S k) (imap (fun i m => EvSend ws m (send_ok w ws (length (log st) + i)))
                             (join_replay state))) st).
Proof.
  intros Hs Hk Hok Hfail.
  rewrite (send_initial_state_as_seq _ _ _ _ Hs).
  by apply send_seq_fails.
Qed.

End LifeCycleFacts.

(** [send_initial_state_stops_at_failure] for the stale channel 2 of the
    example, which refuses the first message. *)
Lemma send_initial_state_stops_at_failure_witness :
  send_initial_state Example.w0 "s1" 2%nat Example.st0 =
  (Raise ChannelError,
   set_log (log Example.st0 ++
            take 1 (imap (fun i m => EvSend 2%nat m
                                       (send_ok Example.w0 2%nat
                                          (length (log Example.st0) + i)))
                         (join_replay Example.s0))) Example.st0).
Proof.
  apply (send_initial_state_stops_at_failure Example.w0 "s1" 2%nat
           Example.st0 Example.s0 0).
  - reflexivity.
  - cbn. lia.
  - intros i Hi. lia.
  - reflexivity.
Defined.



(** ** server.py: reading a resource *)

Lemma prefix_app (p s : string) : String.prefix p (p +:+ s) = true.
Proof.
  induction p as [|a p IH]; [by destruct s|].
  rewrite append_cons. cbn. destruct (Ascii.ascii_dec a a); [exact IH | done].
Qed.

Lemma py_slice_from_app (p s : string) :
  py_slice_from (String.length p) (p +:+ s) = s.
Proof. induction p as [|a p IH]; [done|]. rewrite append_cons. exact IH. Qed.

Lemma prefix_decompose (p u : string) :
  String.prefix p u = true -> u = p +:+ py_slice_from (String.length p) u.
Proof.
  revert u. induction p as [|a p IH]; intros u; [done|].
  destruct u as [|b u]; [discriminate|]. cbn [String.prefix].
  destruct (Ascii.ascii_dec a b) as [->|]; [|discriminate].
  intros H. rewrite append_cons. cbn [String.length py_slice_from]. f_equal. by apply IH.
Qed.

Section ResourceFacts.

Variable config : CanvasConfig.

(** X22. The URI [canvas://<id>/state] of a surface whose id holds no
    slash reads the surface's state, and [canvas://<id>/url] its URLs; for
    an id that is not in the store both fail with the surface-not-found
    error. Nothing is changed by the reading. *)
Theorem read_resource_of_surface (sid : string) (st : CanvasManager) :
  PyStr.contains_char "/" sid = false ->
  read_resource config ("canvas://" +:+ sid +:+ "/state") st =
    (match _surfaces st !! sid with
     | Some state =>
         Ok (StateDoc (surface_id state) (name state) (components state)
                      (data_model state) (created_at state) (updated_at state))
     | None => Raise (SurfaceNotFoundError sid)
     end, st) /\
  read_resource config ("canvas://" +:+ sid +:+ "/url") st =
    (match _surfaces st !! sid with
     | Some state =>
         Ok (UrlDoc (surface_id state)
                    (fst (_get_surface_urls config sid))
                    (snd (_get_surface_urls config sid)))
     | None => Raise (SurfaceNotFoundError sid)
     end, st).
Proof.
  intros Hsid. unfold read_resource.
  rewrite !prefix_app. cbn [negb]. rewrite !py_slice_from_app.
  change ("/state") with (String "/" "state"). change ("/url") with (String "/" "url").
  rewrite !split_app_separator by done.
  change (PyStr.split "/" "state") with ["state"].
  change (PyStr.split "/" "url") with ["url"].
  split.
  - change (String.eqb "state" "state") with true. cbv iota.
    rewrite bind_get_self. unfold get_surface, state_surface_id.
    by destruct (_surfaces st !! sid).
  - change (String.eqb "url" "state") with false. cbv iota.
    change (String.eqb "url" "url") with true. cbv iota.
    rewrite bind_get_self.
    destruct (_surfaces st !! sid) as [state|] eqn:Hs.
    + by rewrite (get_surface_info_some config sid st state Hs).
    + unfold get_surface_info. by rewrite Hs.
Qed.

(** X23. [read_resource] returns a document only for a URI of the form
    [canvas://<id>/state] or [canvas://<id>/url] where the id holds no slash
    and is in the store; it never changes the manager. *)
Theorem read_resource_returns_only_for (uri : string) (st st' : CanvasManager)
    (doc : resource_doc) :
  read_resource config uri st = (Ok doc, st') ->
  st' = st /\
  exists sid ty,
    uri = "canvas://" +:+ sid +:+ "/" +:+ ty /\
    PyStr.contains_char "/" sid = false /\
    is_Some (_surfaces st !! sid) /\
    (ty = "state" \/ ty = "url").
Proof.
  unfold read_resource.
  destruct (String.prefix "canvas://" uri) eqn:Hp; [|discriminate]. cbn [negb].
  apply prefix_decompose in Hp.
  set (path := py_slice_from (String.length "canvas://") uri) in *.
  pose proof (join_split "/" path) as Hjoin.
  pose proof (split_no_separator "/" path) as Hfree.
  destruct (PyStr.split "/" path) as [|a [|b [|c r]]]; try discriminate.
  apply Forall_cons in Hfree as [Ha _].
  change (PyStr.join "/" [a; b]) with (a +:+ String "/" b) in Hjoin.
  assert (Huri : forall ty, b = ty -> uri = "canvas://" +:+ a +:+ "/" +:+ ty).
  { intros ty <-. rewrite Hp at 1. by rewrite <- Hjoin. }
  destruct (String.eqb_spec b "state") as [Hb|_].
  - rewrite bind_get_self. unfold get_surface.
    destruct (_surfaces st !! a) as [state|] eqn:Hs; [|discriminate].
    intros [= <- <-]. split; [done|]. exists a, "state".
    split; [by apply Huri|]. split; [done|]. split; [eauto|]. by left.
  - destruct (String.eqb_spec b "url") as [Hb|_]; [|discriminate].
    rewrite bind_get_self.
    destruct (_surfaces st !! a) as [state|] eqn:Hs.
    + rewrite (get_surface_info_some config a st state Hs).
      intros [= <- <-]. split; [done|]. exists a, "url".
      split; [by apply Huri|]. split; [done|]. split; [eauto|]. by right.
    + unfold get_surface_info. rewrite Hs. discriminate.
Qed.

End ResourceFacts.

(** [read_resource_of_surface] for the surface of the example. *)
Lemma read_resource_of_surface_witness :
  fst (read_resource
         {| host := "0.0.0.0"; port := 8080; default_size := from_preset TV_1080P |}
         ("canvas://" +:+ "s1" +:+ "/url") Example.st0)
  = Ok (UrlDoc "s1" "http://localhost:8080/canvas/s1" "ws://localhost:8080/ws/s1").
Proof.
  destruct (read_resource_of_surface
              {| host := "0.0.0.0"; port := 8080; default_size := from_preset TV_1080P |}
              "s1" Example.st0) as [_ Hurl].
  - reflexivity.
  - rewrite Hurl. reflexivity.
Defined.

(** [read_resource_returns_only_for] on the state of the example's surface. *)
Lemma read_resource_returns_only_for_witness :
  exists sid ty,
    "canvas://s1/state" = "canvas://" +:+ sid +:+ "/" +:+ ty /\
    PyStr.contains_char "/" sid = false.
Proof.
  destruct (read_resource_returns_only_for
              {| host := "0.0.0.0"; port := 8080; default_size := from_preset TV_1080P |}
              "canvas://s1/state" Example.st0 Example.st0
              (StateDoc "s1" None (components Example.s0) (data_model Example.s0) 0 0))
    as (_ & sid & ty & Huri & Hsid & _).
  - reflexivity.
  - exists sid, ty. auto.
Defined.

(** ** Invariants of the store, and the restart *)

(** Induction on a JSON value, with the hypothesis for the values held by a
    list or a mapping. *)
Lemma json_nested_ind (P : json -> Prop) :
  P JNull ->
  (forall b, P (JBool b)) ->
  (forall n, P (JInt n)) ->
  (forall bits, P (JFloat bits)) ->
  (forall s, P (JStr s)) ->
  (forall l, Forall P l -> P (JList l)) ->
  (forall d, Forall (fun kv => P (snd kv)) d -> P (JDict d)) ->
  forall v, P v.
Proof.
  intros Hnull Hbool Hint Hfloat Hstr Hlist Hdict.
  fix IH 1. intros [| b | n | bits | s | l | d].
  - exact Hnull.
  - apply Hbool.
  - apply Hint.
  - apply Hfloat.
  - apply Hstr.
  - apply Hlist. induction l as [|x l IHl]; constructor; [apply IH | exact IHl].
  - apply Hdict. induction d as [|[k x] d IHd]; constructor; [apply IH | exact IHd].
Qed.

(** What a file gave back, written again, comes back the same. *)
Lemma json_reload_idem (v : json) : json_reload (json_reload v) = json_reload v.
Proof.
  induction v as [| b | n | bits | s | l IH | d IH] using json_nested_ind;
    try reflexivity.
  - cbn [json_reload]. destruct (is_finite bits) eqn:E; [|reflexivity].
    cbn [json_reload]. by rewrite E.
  - cbn [json_reload]. f_equal. rewrite List.map_map.
    induction IH as [|x l Hx _ IHl]; [done|]. cbn [map]. by rewrite Hx, IHl.
  - cbn [json_reload]. f_equal. rewrite List.map_map.
    induction IH as [|[k x] d Hx _ IHd]; [done|]. cbn [map snd] in *.
    by rewrite Hx, IHd.
Qed.

Lemma is_mapping_json_reload (v : json) : is_mapping (json_reload v) = is_mapping v.
Proof. destruct v; try reflexivity. cbn. by destruct (is_finite bits). Qed.

Lemma reload_state_idem (state record : SurfaceState) :
  reload_state state = Some record -> reload_state record = Some record.
Proof.
  unfold reload_state.
  destruct (forallb is_mapping (components state)) eqn:E; [|done].
  intros [= <-]. cbn [components data_model set_data_model set_components].
  assert (E' : forallb is_mapping (map json_reload (components state)) = true).
  { rewrite forallb_forall in E |- *. intros x [y [<- Hy]]%in_map_iff.
    rewrite is_mapping_json_reload. by apply E. }
  rewrite E'. f_equal. destruct state as [i n dv sz c m ca ua].
  unfold set_data_model, set_components, dict_reload. cbn. f_equal.
  - rewrite List.map_map. apply map_ext. intros x. apply json_reload_idem.
  - rewrite List.map_map. apply map_ext. intros [k x]. by rewrite json_reload_idem.
Qed.


Section InvariantFacts.

Variable w : World.
Variable config : CanvasConfig.

Lemma create_surface_state (new_id : string) (nm : option string) (sz : size_arg)
    (st : CanvasManager) :
  (exists e, create_surface w config new_id nm sz st = (Raise e, st)) \/
  (exists surf st' state,
     create_surface w config new_id nm sz st = (Ok surf, st') /\
     surface_id state = new_id /\
     _surfaces st' = <[new_id := state]> (_surfaces st) /\
     files st' = (if persistence_enabled st
                  then files_after_write w (length (log st)) new_id state (files st)
                  else files st) /\
     persistence_enabled st' = persistence_enabled st).
Proof.
  unfold create_surface.
  destruct (_get_surface_urls config new_id) as [local_url ws_url].
  destruct (resolve_size config sz) as [cs|e]; [right | left; eauto].
  do 5 (erewrite bind_ok by reflexivity).
  erewrite bind_ok by apply _persist_surface_exact.
  erewrite bind_ok by reflexivity.
  eexists. eexists.
  exists {| surface_id := new_id; name := nm; device_id := None; size := cs;
            components := []; data_model := [];
            created_at := clock st; updated_at := clock st + 1 |}.
  split; [reflexivity|]. split; [reflexivity|].
  cbn [datetime_now modify fst snd clock persistence_enabled _surfaces _ws_clients
       files log set_clock set_surfaces set_ws_clients set_files set_log].
  rewrite lookup_insert_eq.
  destruct (persistence_enabled st) eqn:Hp.
  - rewrite after_write_surfaces, after_write_files, after_write_enabled.
    cbn [persistence_enabled _surfaces files log set_files set_log set_ws_clients
         set_surfaces set_clock]. by rewrite Hp.
  - cbn [persistence_enabled _surfaces files set_files set_log set_ws_clients
         set_surfaces set_clock]. by rewrite Hp.
Qed.

Lemma update_components_state (sid : string) (comps : list json) (st : CanvasManager)
    (state : SurfaceState) :
  _surfaces st !! sid = Some state ->
  let state' := set_updated_at (clock st) (set_components comps state) in
  exists st',
    update_components w sid comps st = (Ok true, st') /\
    _surfaces st' = <[sid := state']> (_surfaces st) /\
    files st' = (if persistence_enabled st
                 then files_after_write w (length (log st)) sid state' (files st)
                 else files st) /\
    persistence_enabled st' = persistence_enabled st.
Proof.
  intros Hs state'. unfold update_components. rewrite bind_get_self, Hs.
  do 2 (erewrite bind_ok by reflexivity). fold state'.
  set (st1 := set_surfaces (<[sid := state']> (_surfaces st))
                (set_clock (clock st + 1) st)).
  destruct (persist_then_broadcast w sid (updateComponents comps) st1 state')
    as (st' & Hrun & Hsurf & _ & Hpe & _ & Hfiles & _).
  { subst st1. cbn. apply lookup_insert_eq. }
  exists st'. split; [exact Hrun|]. rewrite Hsurf, Hfiles, Hpe.
  subst st1. cbn [persistence_enabled set_surfaces set_clock].
  destruct (persistence_enabled st); [|done]. by rewrite after_write_files.
Qed.

Lemma update_data_model_state (sid path : string) (value : json) (st : CanvasManager)
    (state : SurfaceState) (dm : list (string * json)) :
  _surfaces st !! sid = Some state ->
  _set_json_pointer (data_model state) path value = (dm, None) ->
  let state' := set_updated_at (clock st) (set_data_model dm state) in
  exists st',
    update_data_model w sid path value st = (Ok true, st') /\
    _surfaces st' = <[sid := state']> (_surfaces st) /\
    files st' = (if persistence_enabled st
                 then files_after_write w (length (log st)) sid state' (files st)
                 else files st) /\
    persistence_enabled st' = persistence_enabled st.
Proof.
  intros Hs Hset state'. unfold update_data_model. rewrite bind_get_self, Hs, Hset.
  do 3 (erewrite bind_ok by reflexivity).
  cbn [_surfaces set_surfaces set_clock]. rewrite insert_insert_eq. fold state'.
  set (st1 := set_surfaces (<[sid := state']> (_surfaces st))
                (set_clock (clock st + 1)
                   (set_surfaces (<[sid := set_data_model dm state]> (_surfaces st)) st))).
  destruct (persist_then_broadcast w sid (updateDataModel path value) st1 state')
    as (st' & Hrun & Hsurf & _ & Hpe & _ & Hfiles & _).
  { subst st1. cbn. apply lookup_insert_eq. }
  exists st'. split; [exact Hrun|]. rewrite Hsurf, Hfiles, Hpe.
  subst st1. cbn [persistence_enabled set_surfaces set_clock].
  destruct (persistence_enabled st); [|done]. by rewrite after_write_files.
Qed.

Lemma keyed_insert (st st' : CanvasManager) (sid : string) (state : SurfaceState)
    (b : bool) (t : nat) :
  keyed st ->
  surface_id state = sid ->
  _surfaces st' = <[sid := state]> (_surfaces st) ->
  files st' = (if b then files_after_write w t sid state (files st) else files st) ->
  keyed st'.
Proof.
  intros [Hk1 Hk2] Hid Hsurf Hfiles. split.
  - intros s x. rewrite Hsurf, lookup_insert.
    case_decide; [by intros [= <-]; subst | apply Hk1].
  - intros s x. rewrite Hfiles. destruct b; [|apply Hk2].
    unfold files_after_write.
    assert (Hdel : delete sid (files st) !! s = Some x -> surface_id x = s).
    { intros [_ Hx]%lookup_delete_Some. by apply Hk2. }
    destruct (disk_ok w t); [|destruct (truncates w t); [exact Hdel | apply Hk2]].
    destruct (reload_state state) as [record|] eqn:Hr; [|exact Hdel].
    rewrite lookup_insert. case_decide; [|apply Hk2].
    intros [= <-]. subst. by apply reload_state_surface_id.
Qed.

Lemma load_records_run (records : list (string * SurfaceState)) (st : CanvasManager) :
  load_records records st =
  (Ok tt,
   set_surfaces (foldl (fun m r => <[surface_id (snd r) := snd r]> m)
                       (_surfaces st) records) st).
Proof.
  revert st. induction records as [|[f state] rest IH]; intros st.
  - cbn. by rewrite set_surfaces_id.
  - cbn [load_records]. unfold bind, load_record, modify. rewrite IH. reflexivity.
Qed.

Lemma foldl_load_keyed (records : list (string * SurfaceState))
    (m : gmap string SurfaceState) :
  (forall sid state, m !! sid = Some state -> surface_id state = sid) ->
  forall sid state,
    foldl (fun m r => <[surface_id (snd r) := snd r]> m) m records !! sid = Some state ->
    surface_id state = sid.
Proof.
  revert m. induction records as [|[f x] rest IH]; intros m Hm; [exact Hm|].
  cbn [foldl snd]. apply IH. intros sid state. rewrite lookup_insert.
  case_decide; [by intros [= <-] | apply Hm].
Qed.

(** X24. Every surface is stored under the id that it carries, and every
    record is filed under it: the operations of the manager keep this
    true, whatever they are given and whether or not they return. *)
Theorem keyed_preserved (sid path new_id : string) (nm : option string)
    (sz : size_arg) (comps : list json) (value : json) (ws : nat)
    (st : CanvasManager) :
  keyed st ->
  keyed (snd (create_surface w config new_id nm sz st)) /\
  keyed (snd (update_components w sid comps st)) /\
  keyed (snd (update_data_model w sid path value st)) /\
  keyed (snd (close_surface w sid st)) /\
  keyed (snd (register_ws_client sid ws st)) /\
  keyed (snd (unregister_ws_client sid ws st)) /\
  keyed (snd (initialize st)).
Proof.
  intros Hk. split; [|split; [|split; [|split; [|split; [|split]]]]].
  - destruct (create_surface_state new_id nm sz st)
      as [[e ->]|(surf & st' & state & -> & Hid & Hsurf & Hfiles & _)]; [apply Hk|].
    apply (keyed_insert st st' new_id _ _ _ Hk Hid Hsurf Hfiles).
  - destruct (_surfaces st !! sid) as [state|] eqn:Hs.
    + destruct (update_components_state sid comps st state Hs)
        as (st' & -> & Hsurf & Hfiles & _).
      apply (keyed_insert st st' sid
               (set_updated_at (clock st) (set_components comps state)) _ _
               Hk (proj1 Hk sid state Hs) Hsurf Hfiles).
    + unfold update_components. rewrite bind_get_self, Hs. apply Hk.
  - destruct (update_data_model_outcome w sid path value st)
      as [(e & -> & _)|(st' & evs & Hrun & _)]; [apply Hk|].
    destruct (_surfaces st !! sid) as [state|] eqn:Hs.
    + destruct (_set_json_pointer (data_model state) path value) as [dm [e|]] eqn:Hset.
      * unfold update_data_model in Hrun. rewrite bind_get_self, Hs, Hset in Hrun.
        discriminate.
      * destruct (update_data_model_state sid path value st state dm Hs Hset)
          as (st'' & -> & Hsurf & Hfiles & _).
        apply (keyed_insert st st'' sid
                 (set_updated_at (clock st) (set_data_model dm state)) _ _
                 Hk (proj1 Hk sid state Hs) Hsurf Hfiles).
    + unfold update_data_model in Hrun. rewrite bind_get_self, Hs in Hrun. discriminate.
  - destruct (_surfaces st !! sid) as [state|] eqn:Hs.
    + destruct (close_surface_effects w sid st state Hs)
        as (st' & evs & -> & _ & _ & _ & Hsurf & Hfiles & _).
      cbn [snd]. split.
      * intros s x. rewrite Hsurf. intros [_ Hx]%lookup_delete_Some.
        exact (proj1 Hk s x Hx).
      * intros s x. destruct Hfiles as [->| ->]; [apply Hk|].
        intros [_ Hx]%lookup_delete_Some. exact (proj2 Hk s x Hx).
    + unfold close_surface. rewrite bind_get_self, Hs. apply Hk.
  - unfold register_ws_client. rewrite bind_get_self.
    destruct (_surfaces st !! sid); apply Hk.
  - unfold unregister_ws_client. rewrite bind_get_self.
    destruct (_ws_clients st !! sid); apply Hk.
  - unfold initialize, _load_persisted_surfaces. rewrite bind_get_self.
    destruct (persistence_enabled st); [|apply Hk].
    rewrite bind_get_self, load_records_run. split.
    + cbn [snd _surfaces set_surfaces]. apply foldl_load_keyed, Hk.
    + apply Hk.
Qed.

Lemma foldl_load_lookup (records : list (string * SurfaceState))
    (m : gmap string SurfaceState) (sid : string) :
  NoDup records.*1 ->
  (forall k x, (k, x) ∈ records -> surface_id x = k) ->
  foldl (fun m r => <[surface_id (snd r) := snd r]> m) m records !! sid
  = (list_to_map records ∪ m) !! sid.
Proof.
  revert m. induction records as [|[k x] rest IH]; intros m Hnd Hkeys.
  - cbn. by rewrite (left_id_L ∅ (∪)).
  - cbn [foldl snd]. apply NoDup_cons in Hnd as [Hk Hnd].
    rewrite (Hkeys k x) by left.
    rewrite IH by (auto; intros; apply Hkeys; by right).
    cbn [list_to_map foldr]. rewrite !lookup_union.
    destruct (decide (k = sid)) as [->|Hne].
    + rewrite !lookup_insert_eq.
      rewrite (not_elem_of_list_to_map_1 _ _ Hk). by destruct (m !! sid).
    + by rewrite !lookup_insert_ne.
Qed.

Lemma foldl_load_files (fs : gmap string SurfaceState) :
  (forall sid state, fs !! sid = Some state -> surface_id state = sid) ->
  foldl (fun m r => <[surface_id (snd r) := snd r]> m) ∅ (map_to_list fs) = fs.
Proof.
  intros Hk. apply map_eq. intros sid. rewrite foldl_load_lookup.
  - by rewrite list_to_map_to_list, (right_id_L ∅ (∪)).
  - apply NoDup_fst_map_to_list.
  - intros k x Hin. apply elem_of_map_to_list in Hin. by apply Hk.
Qed.

(** X25. With persistence on and a disk that works, the files follow the
    store, up to what a dump and a load keep: if each file loads as its
    surface does after [model_dump_json] and a load (a surface that
    [SurfaceState] would refuse having no record), this is still so after
    creating, updating, patching or closing a surface, whatever the
    arguments and whether or not the call returns; and it is so again
    after a restart on these files. *)
Theorem files_mirror_store (sid path new_id : string) (nm : option string)
    (sz : size_arg) (comps : list json) (value : json) (now : Z)
    (st : CanvasManager) :
  (forall t, disk_ok w t = true) ->
  mirrored st ->
  mirrored (snd (create_surface w config new_id nm sz st)) /\
  mirrored (snd (update_components w sid comps st)) /\
  mirrored (snd (update_data_model w sid path value st)) /\
  mirrored (snd (close_surface w sid st)) /\
  (keyed st ->
   mirrored (snd (initialize (new_manager true (files st) (unreadable st) now)))).
Proof.
  intros Hdisk [Hpe Hsync].
  assert (Hwrite : forall t sid' state,
             files_after_write w t sid' state (omap reload_state (_surfaces st))
             = omap reload_state (<[sid' := state]> (_surfaces st))).
  { intros t sid' state. unfold files_after_write.
    rewrite Hdisk, omap_insert. by destruct (reload_state state). }
  split; [|split; [|split; [|split]]].
  - destruct (create_surface_state new_id nm sz st)
      as [[e ->]|(surf & st' & state & -> & Hid & Hsurf & Hfiles & Hpe')]; [done|].
    cbn [snd]. split; [by rewrite Hpe'|].
    by rewrite Hfiles, Hsurf, Hpe, Hsync, Hwrite.
  - destruct (_surfaces st !! sid) as [state|] eqn:Hs.
    + destruct (update_components_state sid comps st state Hs)
        as (st' & -> & Hsurf & Hfiles & Hpe').
      cbn [snd]. split; [by rewrite Hpe'|].
      by rewrite Hfiles, Hsurf, Hpe, Hsync, Hwrite.
    + unfold update_components. by rewrite bind_get_self, Hs.
  - destruct (update_data_model_outcome w sid path value st)
      as [(e & -> & _)|(st' & evs & Hrun & _)]; [done|].
    destruct (_surfaces st !! sid) as [state|] eqn:Hs.
    + destruct (_set_json_pointer (data_model state) path value) as [dm [e|]] eqn:Hset.
      * unfold update_data_model in Hrun. rewrite bind_get_self, Hs, Hset in Hrun.
        discriminate.
      * destruct (update_data_model_state sid path value st state dm Hs Hset)
          as (st'' & -> & Hsurf & Hfiles & Hpe').
        cbn [snd]. split; [by rewrite Hpe'|].
        by rewrite Hfiles, Hsurf, Hpe, Hsync, Hwrite.
    + unfold update_data_model in Hrun. rewrite bind_get_self, Hs in Hrun. discriminate.
  - destruct (_surfaces st !! sid) as [state|] eqn:Hs.
    + destruct (close_surface_effects w sid st state Hs)
        as (st' & evs & -> & _ & _ & _ & Hsurf & _ & Hfiles & Hpe').
      cbn [snd]. split; [by rewrite Hpe'|].
      by rewrite (Hfiles Hpe Hdisk), Hsurf, Hsync, omap_delete.
    + unfold close_surface. by rewrite bind_get_self, Hs.
  - intros [_ Hk]. unfold initialize, _load_persisted_surfaces.
    rewrite bind_get_self. cbn [persistence_enabled new_manager].
    rewrite bind_get_self, load_records_run.
    split; [done|].
    cbn [snd _surfaces files set_surfaces new_manager].
    rewrite foldl_load_files by exact Hk.
    apply map_eq. intros i. rewrite lookup_omap.
    destruct (files st !! i) as [record|] eqn:Hi; [|done]. cbn.
    rewrite Hsync in Hi. apply lookup_omap_Some in Hi as (state & Hr & _).
    symmetry. by eapply reload_state_idem.
Qed.

(** X26. A restart gives the store back. When every record is filed under
    the id it carries, [initialize] on a new manager with persistence on
    loads each file as a surface under that id, so the store is the files;
    from a manager whose files were its store, the store is recovered as it
    was, with no subscriber. *)
Theorem restart_restores_store (st : CanvasManager) (now : Z) :
  keyed st ->
  exists st',
    initialize (new_manager true (files st) (unreadable st) now) = (Ok tt, st') /\
    _surfaces st' = files st /\
    _ws_clients st' = ∅ /\
    files st' = files st /\
    (synced st -> _surfaces st' = _surfaces st).
Proof.
  intros [_ Hk]. unfold initialize, _load_persisted_surfaces.
  rewrite bind_get_self. cbn [persistence_enabled new_manager].
  rewrite bind_get_self, load_records_run.
  eexists. split; [reflexivity|].
  cbn [_surfaces _ws_clients files set_surfaces new_manager].
  rewrite foldl_load_files by exact Hk.
  do 3 (split; [done|]). by intros [_ ->].
Qed.

End InvariantFacts.

Lemma keyed_example : keyed Example.st0.
Proof.
  split; intros sid state; cbn; intros [<- <-]%lookup_singleton_Some; reflexivity.
Qed.

(** [keyed_preserved] on the example. *)
Lemma keyed_preserved_witness :
  keyed (snd (update_data_model Example.w0 "s1" "/user/name" (JStr "ada") Example.st0)).
Proof.
  apply (keyed_preserved Example.w0
           {| host := "0.0.0.0"; port := 8080; default_size := from_preset TV_1080P |}
           "s1" "/user/name" "abc123" None SizeNone [] (JStr "ada") 4%nat Example.st0).
  exact keyed_example.
Defined.

(** [files_mirror_store] on the example, whose one surface loads as it is,
    for a patch that puts an infinity in the data model. *)
Lemma files_mirror_store_witness :
  mirrored (snd (update_data_model Example.w0 "s1" "/ratio"
                   (JFloat 9218868437227405312) Example.st0)).
Proof.
  apply (files_mirror_store Example.w0
           {| host := "0.0.0.0"; port := 8080; default_size := from_preset TV_1080P |}
           "s1" "/ratio" "abc123" None SizeNone []
           (JFloat 9218868437227405312) 9 Example.st0).
  - intros t. reflexivity.
  - split; [reflexivity|]. cbn [files _surfaces Example.st0].
    symmetry. by apply omap_singleton_Some.
Defined.

(** [restart_restores_store] on the example. *)
Lemma restart_restores_store_witness :
  exists st',
    initialize (new_manager true (files Example.st0) ∅ 9) = (Ok tt, st') /\
    _surfaces st' = files Example.st0.
Proof.
  destruct (restart_restores_store Example.st0 9 keyed_example)
    as (st' & Hrun & Hsurf & _).
  exists st'. split; [exact Hrun | exact Hsurf].
Defined.


(** ** Flattening *)

Lemma append_empty_r (s : string) : s +:+ "" = s.
Proof. induction s as [|a s IH]; [done|]. by rewrite append_cons, IH. Qed.

Lemma flatten_value_dict_cons (prefix key : string) (v : json)
    (rest : list (string * json)) :
  flatten_value prefix (JDict ((key, v) :: rest)) =
  flatten_value (prefix +:+ "/" +:+ key) v ++ flatten_value prefix (JDict rest).
Proof. reflexivity. Qed.

Lemma flatten_value_leaves (v : json) :
  forall prefix path leaf,
    In (path, leaf) (flatten_value prefix v) ->
    (forall items, leaf <> JDict items) /\
    exists rest, path = prefix +:+ rest /\
                 ((exists items, v = JDict items) -> PyStr.starts_with "/" rest = true).
Proof.
  induction v as [| b | n | bits | s | l _ | d IH] using json_nested_ind;
    intros prefix path leaf Hin.
  1-6: destruct Hin as [[= <- <-]|[]]; (split; [discriminate|]);
       exists ""; (split; [by rewrite append_empty_r | intros [? [=]]]).
  revert Hin. induction IH as [|[k x] d IHx _ IHd]; intros Hin; [destruct Hin|].
  cbn [snd] in IHx.
  rewrite flatten_value_dict_cons in Hin. apply in_app_or in Hin as [Hin|Hin].
  - destruct (IHx _ _ _ Hin) as [Hleaf (rest & -> & _)].
    split; [exact Hleaf|]. exists ("/" +:+ k +:+ rest).
    split; [by rewrite !string_app_assoc | by intros _].
  - destruct (IHd Hin) as [Hleaf (rest & -> & Hrest)].
    split; [exact Hleaf|]. exists rest. split; [done|]. intros _. apply Hrest. eauto.
Qed.

Lemma unique_keys_dict (d : list (string * json)) :
  unique_keys (JDict d) <->
  NoDup (map fst d) /\ Forall (fun kv => unique_keys (snd kv)) d.
Proof.
  cbn [unique_keys].
  assert (Heach : (fix each (l : list (string * json)) : Prop :=
                     match l with
                     | [] => True
                     | (_, x) :: r => unique_keys x /\ each r
                     end) d <->
                  Forall (fun kv => unique_keys (snd kv)) d).
  { induction d as [|[k x] r IH]; [split; [constructor | done]|].
    rewrite Forall_cons, <- IH. reflexivity. }
  by rewrite Heach.
Qed.

Lemma dict_get_unique (d : list (string * json)) (key : string) (value : json) :
  NoDup (map fst d) -> In (key, value) d -> dict_get d key = Some value.
Proof.
  induction d as [|[k v] r IH]; [done|]. cbn [map fst dict_get].
  intros [Hk Hnd]%NoDup_cons [[= -> ->]|Hin].
  - by rewrite String.eqb_refl.
  - destruct (String.eqb_spec k key) as [->|_]; [|by apply IH].
    destruct Hk. apply list_elem_of_In. by apply (in_map fst) in Hin.
Qed.

Lemma flatten_value_item_inv (prefix : string) (d : list (string * json))
    (leaf : string * json) :
  In leaf (flatten_value prefix (JDict d)) ->
  exists key child, In (key, child) d /\
                    In leaf (flatten_value (prefix +:+ "/" +:+ key) child).
Proof.
  induction d as [|[k v] r IH]; [done|].
  rewrite flatten_value_dict_cons. intros [Hin|Hin]%in_app_or.
  - exists k, v. split; [by left | done].
  - destruct (IH Hin) as (key & child & Hd & Hl).
    exists key, child. split; [by right | done].
Qed.

Lemma path_of_keys_cons (key : string) (keys : list string) :
  path_of_keys (key :: keys) = "/" +:+ key +:+ path_of_keys keys.
Proof.
  destruct keys as [|k' keys']; [by cbn; rewrite append_empty_r|reflexivity].
Qed.

(** What is yielded is there: a pair comes from keys that lead, through
    the mappings, to its value. *)
Lemma flatten_value_sound (v : json) :
  forall prefix path leaf,
    unique_keys v ->
    In (path, leaf) (flatten_value prefix v) ->
    exists keys, get_walk v keys = Some leaf /\
                 path = prefix +:+ path_of_keys keys /\
                 ((exists items, v = JDict items) -> keys <> []).
Proof.
  induction v as [| b | n | bits | s | l _ | d IH] using json_nested_ind;
    intros prefix path leaf Hu Hin.
  1-6: destruct Hin as [[= <- <-]|[]]; exists [];
       (split; [done|]); (split; [by rewrite append_empty_r | intros [? [=]]]).
  apply unique_keys_dict in Hu as [Hnd Hall].
  apply flatten_value_item_inv in Hin as (key & child & Hd & Hl).
  rewrite Forall_forall in IH, Hall.
  destruct (IH (key, child) ltac:(by apply list_elem_of_In) _ _ _
              (Hall (key, child) ltac:(by apply list_elem_of_In)) Hl)
    as (keys & Hget & -> & _).
  exists (key :: keys). split; [|split; [|done]].
  - cbn [get_walk]. by rewrite (dict_get_unique d key child Hnd Hd).
  - by rewrite path_of_keys_cons, !string_app_assoc.
Qed.

(** What is there is yielded. *)
Lemma flatten_value_complete (keys : list string) :
  forall obj prefix leaf,
    keys <> [] ->
    get_walk (JDict obj) keys = Some leaf ->
    (forall items, leaf <> JDict items) ->
    In (prefix +:+ "/" +:+ PyStr.join "/" keys, leaf) (flatten_value prefix (JDict obj)).
Proof.
  induction keys as [|k keys IH]; intros obj prefix leaf Hne Hget Hleaf; [done|].
  cbn [get_walk] in Hget.
  destruct (dict_get obj k) as [child|] eqn:Hk; [|discriminate].
  apply dict_get_In in Hk.
  eapply flatten_value_item; [exact Hk|].
  destruct keys as [|k' keys'].
  + cbn in Hget. injection Hget as ->. cbn [PyStr.join].
    destruct leaf; try (by left). by destruct (Hleaf items).
  + destruct child as [| | | | | |d]; try discriminate.
    change (PyStr.join "/" (k :: k' :: keys'))
      with (k +:+ String "/" (PyStr.join "/" (k' :: keys'))).
    replace (prefix +:+ "/" +:+ k +:+ String "/" (PyStr.join "/" (k' :: keys')))
      with ((prefix +:+ "/" +:+ k) +:+ "/" +:+ PyStr.join "/" (k' :: keys'))
      by (by rewrite !string_app_assoc).
    by apply (IH d).
Qed.

(** X27. [_flatten_data_model] lists exactly the values that are not
    mappings, each under its path. For a data model in which no mapping has
    a key twice, a pair of a path and a value is yielded if and only if
    the value is not a mapping and some keys, one at least, lead to it
    through the mappings, the path being the prefix, a slash and these keys
    joined by slashes. *)
Theorem flatten_lists_the_leaves (obj : list (string * json)) (prefix path : string)
    (leaf : json) :
  unique_keys (JDict obj) ->
  In (path, leaf) (_flatten_data_model obj prefix) <->
  (forall items, leaf <> JDict items) /\
  exists keys, keys <> [] /\
               get_walk (JDict obj) keys = Some leaf /\
               path = prefix +:+ "/" +:+ PyStr.join "/" keys.
Proof.
  intros Hu. unfold _flatten_data_model. split.
  - intros Hin. split; [by apply (flatten_value_leaves _ _ _ _ Hin)|].
    destruct (flatten_value_sound _ _ _ _ Hu Hin) as (keys & Hget & -> & Hne).
    exists keys. specialize (Hne ltac:(eauto)).
    split; [done|]. split; [done|]. by destruct keys.
  - intros [Hleaf (keys & Hne & Hget & ->)]. by apply flatten_value_complete.
Qed.

(** [flatten_lists_the_leaves] on the data model of the example: the age
    of the user is yielded under ["/user/age"]. *)
Lemma flatten_lists_the_leaves_witness :
  In ("/user/age", JInt 30) (_flatten_data_model (data_model Example.s0) "").
Proof.
  apply (flatten_lists_the_leaves (data_model Example.s0) "" "/user/age" (JInt 30)).
  - apply unique_keys_dict. split.
    + apply (bool_decide_unpack (NoDup ["msg"; "user"])). by vm_compute.
    + apply Forall_cons. split; [done|]. apply Forall_cons. split; [|done].
      cbn [snd]. apply unique_keys_dict. split.
      * apply (bool_decide_unpack (NoDup ["age"])). by vm_compute.
      * apply Forall_cons. by split.
  - split; [discriminate|]. exists ["user"; "age"]. by repeat split.
Defined.

(** ** The replay rebuilds the data model *)

Lemma walked_non_mapping (current : json) (parts : list string) (last : string)
    (value : json) :
  (forall d, current <> JDict d) ->
  walked current parts last value = current.
Proof.
  intros Hnd. unfold walked.
  assert (Hb : walk_blocked current parts = true).
  { destruct current as [| | | | | |d]; [by destruct parts..|by destruct (Hnd d)]. }
  by rewrite (set_walk_blocked _ _ last value Hb).
Qed.

Lemma walked_nil (d : list (string * json)) (last : string) (value : json) :
  walked (JDict d) [] last value = JDict (dict_set d last value).
Proof. reflexivity. Qed.

Lemma walked_cons (d : list (string * json)) (part : string) (parts : list string)
    (last : string) (value : json) :
  walked (JDict d) (part :: parts) last value =
  JDict (dict_set d part
           (walked (default (JDict []) (dict_get d part)) parts last value)).
Proof.
  unfold walked. cbn [set_walk py_contains].
  destruct (dict_get d part) as [child|] eqn:Ed.
  - rewrite bool_decide_eq_true_2 by eauto. cbn [py_getitem]. rewrite Ed.
    cbn [default from_option]. unfold id.
    destruct (set_walk child parts last value). reflexivity.
  - rewrite bool_decide_eq_false_2 by (intros [? ?]; congruence).
    cbn [py_setitem py_getitem default from_option]. rewrite dict_get_set_eq.
    destruct (set_walk (JDict []) parts last value).
    cbn [fst py_alias_back]. by rewrite dict_set_set.
Qed.

Lemma json_dict_dec (v : json) : (exists d, v = JDict d) \/ (forall d, v <> JDict d).
Proof. destruct v; eauto; right; discriminate. Qed.

(** A key set under a mapping that has just been set: the mapping grows. *)
Lemma walked_grow (current : json) (parts : list string) (last key : string)
    (d' : list (string * json)) (value : json) :
  walked (walked current parts last (JDict d')) (parts ++ [last]) key value
  = walked current parts last (JDict (dict_set d' key value)).
Proof.
  revert current. induction parts as [|part parts IH]; intros current.
  - destruct (json_dict_dec current) as [[d ->]|Hnd].
    + rewrite !walked_nil. cbn [app]. rewrite walked_cons, dict_get_set_eq.
      cbn [default from_option]. unfold id. by rewrite walked_nil, dict_set_set.
    + by rewrite !(walked_non_mapping current) by done.
  - destruct (json_dict_dec current) as [[d ->]|Hnd].
    + rewrite !(walked_cons d). cbn [app]. rewrite walked_cons, dict_get_set_eq.
      cbn [default from_option]. unfold id. by rewrite IH, dict_set_set.
    + by rewrite !(walked_non_mapping current) by done.
Qed.

Lemma fresh_nil_dict (keys : list string) :
  keys <> [] -> fresh (JDict []) keys = true.
Proof. by destruct keys. Qed.

Lemma fresh_default (d : list (string * json)) (part : string) (keys : list string) :
  keys <> [] ->
  fresh (JDict d) (part :: keys) = true ->
  fresh (default (JDict []) (dict_get d part)) keys = true.
Proof.
  intros Hne. cbn [fresh]. destruct (dict_get d part); [done|].
  intros _. by apply fresh_nil_dict.
Qed.

(** A key set under keys that lead nowhere: the mapping is created. *)
Lemma walked_create (current : json) (parts : list string) (last key : string)
    (value : json) :
  fresh current (parts ++ [last]) = true ->
  walked current (parts ++ [last]) key value
  = walked current parts last (JDict [(key, value)]).
Proof.
  revert current. induction parts as [|part parts IH]; intros current Hf.
  - destruct current as [| | | | | |d]; try discriminate.
    cbn [app fresh] in Hf. destruct (dict_get d last) eqn:Ed; [by destruct j|].
    cbn [app]. by rewrite walked_cons, Ed, !walked_nil.
  - destruct current as [| | | | | |d]; try discriminate.
    cbn [app]. rewrite !walked_cons. do 2 f_equal. apply IH.
    apply (fresh_default d part); [by destruct parts | exact Hf].
Qed.

Lemma fresh_after_walk (current : json) (parts : list string) (last key : string)
    (d' : list (string * json)) :
  fresh current (parts ++ [last]) = true ->
  dict_get d' key = None ->
  fresh (walked current parts last (JDict d')) ((parts ++ [last]) ++ [key]) = true.
Proof.
  revert current. induction parts as [|part parts IH]; intros current Hf Hk.
  - destruct current as [| | | | | |d]; try discriminate.
    rewrite walked_nil. cbn [app fresh]. by rewrite dict_get_set_eq, Hk.
  - destruct current as [| | | | | |d]; try discriminate.
    rewrite walked_cons. cbn [app fresh]. rewrite dict_get_set_eq.
    apply IH; [|exact Hk].
    apply (fresh_default d part); [by destruct parts | exact Hf].
Qed.

Lemma fresh_snoc (current : json) (keys : list string) (key : string) :
  fresh current keys = true -> fresh current (keys ++ [key]) = true.
Proof.
  revert current. induction keys as [|k keys IH]; intros current Hf.
  - by destruct current.
  - destruct current as [| | | | | |d]; try discriminate.
    cbn [app fresh] in *. destruct (dict_get d k); [by apply IH | done].
Qed.

Lemma Forall_key_ok_slash_free (keys : list string) :
  Forall key_ok keys ->
  Forall (fun p => PyStr.contains_char "/" p = false) keys.
Proof. intros H. eapply Forall_impl; [exact H|]. by intros k [_ ?]. Qed.

Lemma path_of_keys_parts (parts : list string) (last : string) :
  Forall key_ok (parts ++ [last]) ->
  is_root_path (path_of_keys (parts ++ [last])) = false /\
  path_parts (path_of_keys (parts ++ [last])) = parts ++ [last].
Proof.
  intros Hok.
  assert (Hne : parts ++ [last] <> []) by (by destruct parts).
  assert (Hhd : hd "" (parts ++ [last]) <> "").
  { destruct parts as [|p ps]; apply Forall_cons in Hok as [[? _] _]; done. }
  assert (Hlast : List.last (parts ++ [last]) "" <> "").
  { rewrite last_last. apply Forall_app in Hok as [_ Hl].
    by apply Forall_cons in Hl as [[? _] _]. }
  pose proof (Forall_key_ok_slash_free _ Hok) as Hfree.
  unfold path_of_keys. destruct (parts ++ [last]) as [|k ks] eqn:E; [done|].
  destruct (join_no_trail "/" (k :: ks) Hne Hfree Hlast) as [Hj _].
  split.
  - destruct (PyStr.join "/" (k :: ks)); done.
  - unfold path_parts. rewrite strip_slash_join by done. by apply split_join.
Qed.

Lemma fresh_not_blocked (current : json) (parts : list string) (last : string) :
  fresh current (parts ++ [last]) = true -> walk_blocked current parts = false.
Proof.
  revert current. induction parts as [|part parts IH]; intros current Hf.
  - by destruct current.
  - destruct current as [| | | | | |d]; try discriminate.
    cbn [app fresh] in Hf. cbn [walk_blocked].
    destruct (dict_get d part); [by apply IH | done].
Qed.

Lemma put_path_keys (current : json) (parts : list string) (last : string)
    (value : json) :
  Forall key_ok (parts ++ [last]) ->
  fresh current (parts ++ [last]) = true ->
  put_path current (path_of_keys (parts ++ [last])) value
  = Some (walked current parts last value).
Proof.
  intros Hok Hf. destruct (path_of_keys_parts parts last Hok) as [Hroot Hparts].
  unfold put_path, walked. rewrite Hroot, Hparts. cbv zeta.
  rewrite removelast_last, last_last.
  destruct (set_walk_clear current parts last value (fresh_not_blocked _ _ _ Hf))
    as [current' ->].
  done.
Qed.

Lemma put_path_dict (obj : list (string * json)) (path : string) (value : json)
    (current' : json) :
  put_path (JDict obj) path value = Some current' ->
  exists obj', current' = JDict obj' /\
               _set_json_pointer obj path value = (obj', None).
Proof.
  unfold _set_json_pointer, put_path.
  destruct (is_root_path path); [done|]. cbv zeta.
  destruct (set_walk_dict obj (removelast (path_parts path))
              (List.last (path_parts path) "") value) as [d' Hd].
  destruct (set_walk (JDict obj) _ _ value) as [t [e|]]; [done|].
  cbn [fst] in Hd. subst t. intros [= <-]. eauto.
Qed.

Lemma replay_leaves_tree (leaves : list (string * json)) :
  forall obj obj',
    replay_tree leaves (JDict obj) = Some (JDict obj') ->
    replay_leaves leaves obj = Ok obj'.
Proof.
  induction leaves as [|leaf rest IH]; intros obj obj' Hrun.
  - cbn in Hrun. by injection Hrun as ->.
  - cbn [replay_tree] in Hrun. cbn [replay_leaves].
    destruct (put_path (JDict obj) (fst leaf) (snd leaf)) as [t|] eqn:E; [|done].
    destruct (put_path_dict _ _ _ _ E) as (obj1 & -> & ->). by apply IH.
Qed.

Lemma join_snoc (c : ascii) (keys : list string) (key : string) :
  keys <> [] ->
  PyStr.join c (keys ++ [key]) = PyStr.join c keys +:+ String c key.
Proof.
  induction keys as [|k keys IH]; [done|]. intros _.
  destruct keys as [|k' keys']; [done|].
  change (PyStr.join c ((k :: k' :: keys') ++ [key]))
    with (k +:+ String c (PyStr.join c ((k' :: keys') ++ [key]))).
  rewrite IH by done.
  change (PyStr.join c (k :: k' :: keys'))
    with (k +:+ String c (PyStr.join c (k' :: keys'))).
  by rewrite !string_app_assoc, append_cons.
Qed.

Lemma path_of_keys_snoc (keys : list string) (key : string) :
  path_of_keys keys +:+ "/" +:+ key = path_of_keys (keys ++ [key]).
Proof.
  destruct keys as [|k keys]; [done|].
  change (path_of_keys ((k :: keys) ++ [key]))
    with ("/" +:+ PyStr.join "/" ((k :: keys) ++ [key])).
  change (path_of_keys (k :: keys)) with ("/" +:+ PyStr.join "/" (k :: keys)).
  rewrite join_snoc by done.
  change (String "/" key) with ("/" +:+ key).
  by rewrite !string_app_assoc.
Qed.

Lemma replayable_dict (d : list (string * json)) :
  replayable (JDict d) <->
  d <> [] /\ NoDup (map fst d) /\
  Forall (fun kv => key_ok (fst kv) /\ replayable (snd kv)) d.
Proof.
  cbn [replayable].
  assert (Heach : (fix each (l : list (string * json)) : Prop :=
                     match l with
                     | [] => True
                     | (k, x) :: r => (key_ok k /\ replayable x) /\ each r
                     end) d <->
                  Forall (fun kv => key_ok (fst kv) /\ replayable (snd kv)) d).
  { induction d as [|[k x] r IH]; [split; [constructor | done]|].
    rewrite Forall_cons, <- IH. reflexivity. }
  by rewrite Heach.
Qed.

Lemma dict_get_absent (d : list (string * json)) (key : string) :
  ~ In key (map fst d) -> dict_get d key = None.
Proof.
  induction d as [|[k v] r IH]; [done|]. cbn. intros Hnot.
  destruct (String.eqb_spec k key) as [->|_]; [by destruct Hnot; left|].
  apply IH. intros ?. apply Hnot. by right.
Qed.

Lemma dict_set_absent (d : list (string * json)) (key : string) (value : json) :
  dict_get d key = None -> dict_set d key value = d ++ [(key, value)].
Proof.
  induction d as [|[k v] r IH]; [done|]. cbn.
  destruct (String.eqb k key); [discriminate|]. intros H. by rewrite IH.
Qed.

Lemma replay_tree_app (a b : list (string * json)) (current current' : json) :
  replay_tree a current = Some current' ->
  replay_tree (a ++ b) current = replay_tree b current'.
Proof.
  revert current. induction a as [|leaf a IH]; intros current Hrun.
  - cbn in Hrun. by injection Hrun as ->.
  - cbn [app replay_tree] in *.
    destruct (put_path current (fst leaf) (snd leaf)); [by apply IH | done].
Qed.

Lemma NoDup_snoc_absent (d' : list (string * json)) (k : string) (x : json)
    (r : list (string * json)) :
  NoDup (map fst (d' ++ (k, x) :: r)) -> dict_get d' k = None.
Proof.
  intros Hnd. apply dict_get_absent. intros Hin.
  rewrite map_app in Hnd. apply NoDup_app in Hnd as (_ & Hdis & _).
  apply (Hdis k); [by apply list_elem_of_In | left].
Qed.

(** The leaves of the rest of a mapping, replayed under the place where the
    first items have been put. *)
Lemma replay_tree_items (current : json) (parts : list string) (last : string)
    (r : list (string * json)) :
  Forall key_ok (parts ++ [last]) ->
  fresh current (parts ++ [last]) = true ->
  Forall (fun kv =>
            forall parts last current,
              replayable (snd kv) ->
              Forall key_ok (parts ++ [last]) ->
              fresh current (parts ++ [last]) = true ->
              replay_tree (flatten_value (path_of_keys (parts ++ [last])) (snd kv))
                          current
              = Some (walked current parts last (snd kv))) r ->
  Forall (fun kv => key_ok (fst kv) /\ replayable (snd kv)) r ->
  forall d',
    NoDup (map fst (d' ++ r)) ->
    replay_tree (flatten_value (path_of_keys (parts ++ [last])) (JDict r))
                (walked current parts last (JDict d'))
    = Some (walked current parts last (JDict (d' ++ r))).
Proof.
  intros Hok Hfresh IH. induction IH as [|[k x] r IHx _ IHr]; intros Hall d' Hnd.
  - by rewrite app_nil_r.
  - apply Forall_cons in Hall as [[Hk Hx] Hall]. cbn [fst snd] in *.
    pose proof (NoDup_snoc_absent _ _ _ _ Hnd) as Habs.
    rewrite flatten_value_dict_cons, path_of_keys_snoc.
    erewrite replay_tree_app; cycle 1.
    { apply IHx; [done| |by apply fresh_after_walk].
      apply Forall_app; split; [done|]. by constructor. }
    rewrite walked_grow, (dict_set_absent _ _ _ Habs).
    rewrite IHr; [|done|by rewrite <- app_assoc].
    by rewrite <- app_assoc.
Qed.

(** The leaves of a value, replayed at a place that is not there yet, put
    the value there. *)
Lemma replay_tree_value (v : json) :
  forall parts last current,
    replayable v ->
    Forall key_ok (parts ++ [last]) ->
    fresh current (parts ++ [last]) = true ->
    replay_tree (flatten_value (path_of_keys (parts ++ [last])) v) current
    = Some (walked current parts last v).
Proof.
  induction v as [| b | n | bits | s | l _ | d IH] using json_nested_ind;
    intros parts last current Hrep Hok Hfresh.
  1-6: by cbn [flatten_value replay_tree fst snd]; rewrite put_path_keys.
  apply replayable_dict in Hrep as (Hne & Hnd & Hall).
  destruct d as [|[k x] r]; [done|].
  apply Forall_cons in IH as [IHx IHr]. apply Forall_cons in Hall as [[Hk Hx] Hall].
  cbn [fst snd] in *.
  rewrite flatten_value_dict_cons, path_of_keys_snoc.
  erewrite replay_tree_app; cycle 1.
  { apply IHx; [done| |by apply fresh_snoc].
    apply Forall_app; split; [done|]. by constructor. }
  rewrite walked_create by done.
  by apply (replay_tree_items current parts last r Hok Hfresh IHr Hall [(k, x)]).
Qed.

(** The leaves of the items of the data model, replayed on the items
    before them. *)
Lemma replay_tree_model (r : list (string * json)) :
  Forall (fun kv => key_ok (fst kv) /\ replayable (snd kv)) r ->
  forall acc,
    NoDup (map fst (acc ++ r)) ->
    replay_tree (flatten_value "" (JDict r)) (JDict acc) = Some (JDict (acc ++ r)).
Proof.
  induction r as [|[k x] r IH]; intros Hall acc Hnd.
  - by rewrite app_nil_r.
  - apply Forall_cons in Hall as [[Hk Hx] Hall]. cbn [fst snd] in *.
    pose proof (NoDup_snoc_absent _ _ _ _ Hnd) as Habs.
    rewrite flatten_value_dict_cons.
    change ("" +:+ "/" +:+ k) with (path_of_keys ([] ++ [k])).
    erewrite replay_tree_app; cycle 1.
    { apply replay_tree_value; [done|by constructor|].
      cbn [app fresh]. by rewrite Habs. }
    rewrite walked_nil, (dict_set_absent _ _ _ Habs).
    rewrite IH; [|done|by rewrite <- app_assoc].
    by rewrite <- app_assoc.
Qed.

(** X28. A round trip of the data model: when no mapping under it is empty,
    and every key is not empty, has no slash and is there once, the leaves
    that [_flatten_data_model] lists, set one after the other with
    [_set_json_pointer] in an empty model, build the data model again, items
    in the same order, and no call raises. *)
Theorem replay_rebuilds_data_model (obj : list (string * json)) :
  replayable_model obj ->
  replay_leaves (_flatten_data_model obj "") [] = Ok obj.
Proof.
  intros [Hnd Hall]. apply replay_leaves_tree.
  unfold _flatten_data_model. by rewrite (replay_tree_model obj Hall []).
Qed.

(** [replay_rebuilds_data_model] on a model of two levels. *)
Lemma replay_rebuilds_data_model_witness :
  replayable_model [("user", JDict [("name", JStr "Ann"); ("tags", JList [JInt 1])]);
                    ("count", JInt 2)] /\
  replay_leaves
    (_flatten_data_model
       [("user", JDict [("name", JStr "Ann"); ("tags", JList [JInt 1])]);
        ("count", JInt 2)] "") []
  = Ok [("user", JDict [("name", JStr "Ann"); ("tags", JList [JInt 1])]);
        ("count", JInt 2)].
Proof.
  assert (H : replayable_model
                [("user", JDict [("name", JStr "Ann"); ("tags", JList [JInt 1])]);
                 ("count", JInt 2)]).
  { split.
    - cbn [map fst]. apply (bool_decide_unpack (NoDup ["user"; "count"])). by vm_compute.
    - repeat (apply Forall_cons; split); try apply Forall_nil_2;
        cbn [fst snd]; (split; [done|]); [|done].
      apply replayable_dict. split; [done|]. split.
      + apply (bool_decide_unpack (NoDup ["name"; "tags"])). by vm_compute.
      + by repeat constructor. }
  split; [exact H | exact (replay_rebuilds_data_model _ H)].
Defined.
